(** * discord-unifi: the UniFi Protect to Discord bridge

    A shallow embedding of the bridge's JavaScript sources and the
    properties its specification states about them.

    Layout:
    - [JS]: the fragment of JavaScript values and built-ins the sources use;
    - [Validator]: [src/utils/validator.js];
    - [DiscordCommon], [DiscordThumb], [DiscordAlarm], [DiscordFlat]: the
      three versions of [services/discord.js] present in the repository and
      the text they share;
    - [World]: outbound calls, files and the session of a run;
    - [DiscordSend]: fetching the thumbnail and sending the message;
    - [SingleEventProcessor], [DownloadThumbnail]: the command-line drivers;
    - [Spec], [Inputs]: the notions of the specification and sample inputs;
    - the properties, one section per component. *)

From Stdlib Require Import ZArith String Ascii List Lia Bool.
From Stdlib Require Import DecimalString.
From stdpp Require Import gmap strings list fin_maps option.

Set Warnings "-register-all".

Open Scope string_scope.

(* ===================================================================== *)
(** * The JavaScript fragment *)
(* ===================================================================== *)

Module JS.

(** JSON-like values. Numbers are the integer-valued ones (epoch
    milliseconds, counts); strings are sequences of code units, here the
    8-bit ones of [string], so the model is exact on ASCII text. *)
Inductive val : Type :=
| VUndef
| VNull
| VBool (b : bool)
| VNum (n : Z)
| VStr (s : string)
| VArr (xs : list val)
| VObj (fields : gmap string val).

(** An object literal, keys in source order. *)
Definition obj (l : list (string * val)) : val := VObj (list_to_map l).

(** Exceptions: the two built-in ones that the sources can trigger and
    [new Error(msg)]. *)
Inductive exn : Type :=
| TypeError
| RangeError
| Error (msg : string).

(** Completion of an expression: a value or a thrown exception. *)
Inductive result (A : Type) : Type :=
| Ok (a : A)
| Throw (e : exn).
Arguments Ok {A} a.
Arguments Throw {A} e.

#[global] Instance result_ret : MRet result := fun _ a => Ok a.
#[global] Instance result_bind : MBind result := fun _ _ f m =>
  match m with Ok a => f a | Throw e => Throw e end.

#[global] Instance result_fmap : FMap result := fun _ _ f m =>
  match m with Ok a => Ok (f a) | Throw e => Throw e end.

Definition is_ok {A} (r : result A) : bool :=
  match r with Ok _ => true | Throw _ => false end.

(** [e.message] for the exceptions above (the text of the built-in ones is
    engine-defined and never inspected by the sources). *)
Definition message (e : exn) : string :=
  match e with
  | TypeError => "TypeError"
  | RangeError => "Invalid time value"
  | Error m => m
  end.

(** ToBoolean. *)
Definition truthy (v : val) : bool :=
  match v with
  | VUndef | VNull => false
  | VBool b => b
  | VNum n => negb (n =? 0)%Z
  | VStr s => negb (String.eqb s "")
  | VArr _ | VObj _ => true
  end.

Definition nullish (v : val) : bool :=
  match v with VUndef | VNull => true | _ => false end.

(** [Array.isArray(v)] and [typeof v === "number"]. *)
Definition isArray (v : val) : bool :=
  match v with VArr _ => true | _ => false end.

Definition isNumber (v : val) : bool :=
  match v with VNum _ => true | _ => false end.

(** The elements a [for ... of] loop or [map] visits, for an array. *)
Definition elements (v : val) : list val :=
  match v with VArr xs => xs | _ => [] end.

(** Property read [v.k]: a TypeError on [undefined] and [null], the own
    property on objects, [length] on arrays and strings, [undefined]
    otherwise. None of the names the sources read from a parsed body is
    inherited from [Object.prototype]. *)
Definition get (v : val) (k : string) : result val :=
  match v with
  | VUndef | VNull => Throw TypeError
  | VObj m => Ok (default VUndef (m !! k))
  | VArr xs => Ok (if String.eqb k "length" then VNum (Z.of_nat (length xs)) else VUndef)
  | VStr s => Ok (if String.eqb k "length" then VNum (Z.of_nat (String.length s)) else VUndef)
  | VBool _ | VNum _ => Ok VUndef
  end.

(** Optional chaining [v?.k]. *)
Definition getOpt (v : val) (k : string) : val :=
  match v with
  | VUndef | VNull => VUndef
  | _ => match get v k with Ok x => x | Throw _ => VUndef end
  end.

(** [a || b] and [a && b] on already evaluated operands. *)
Definition or_else (a b : val) : val := if truthy a then a else b.
Definition and_then (a b : val) : val := if truthy a then b else a.

(** ** Strings *)

Definition lower_ascii (c : ascii) : ascii :=
  let n := nat_of_ascii c in
  if (65 <=? n)%nat && (n <=? 90)%nat then ascii_of_nat (n + 32) else c.

Fixpoint lower (s : string) : string :=
  match s with
  | EmptyString => EmptyString
  | String c s' => String (lower_ascii c) (lower s')
  end.

(** The method call [v.toLowerCase()]: defined on strings only. *)
Definition toLowerCase (v : val) : result string :=
  match v with
  | VStr s => Ok (lower s)
  | _ => Throw TypeError
  end.

(** Position of the first occurrence of [pat] in [s]. *)
Fixpoint indexOf (pat s : string) : option nat :=
  if String.prefix pat s then Some 0%nat
  else match s with
       | EmptyString => None
       | String _ s' => S <$> indexOf pat s'
       end.

(** [s.includes(pat)]. *)
Definition includes (s pat : string) : bool :=
  bool_decide (is_Some (indexOf pat s)).

(** [s.substring(0, n)]. *)
Definition substring0 (n : nat) (s : string) : string := String.substring 0 n s.

(** The text from position [n] on. *)
Fixpoint drop_string (n : nat) (s : string) : string :=
  match n, s with
  | O, _ => s
  | S n', String _ s' => drop_string n' s'
  | S _, EmptyString => EmptyString
  end.

(** [s.split(sep)] for a non-empty separator (the sources split on
    ["TOKEN="] and [";"] only): cut at each occurrence, left to right. *)
Fixpoint split_fuel (fuel : nat) (sep s : string) : list string :=
  match fuel with
  | O => [s]
  | S fuel' =>
    match indexOf sep s with
    | None => [s]
    | Some i => substring0 i s :: split_fuel fuel' sep (drop_string (i + String.length sep) s)
    end
  end.

Definition split (sep s : string) : list string :=
  split_fuel (S (String.length s)) sep s.

(** [parts.join(sep)] on strings. *)
Fixpoint join (sep : string) (parts : list string) : string :=
  match parts with
  | [] => ""
  | [p] => p
  | p :: rest => p +:+ sep +:+ join sep rest
  end.

(** Decimal text of an integer, as [String(n)] prints it (JavaScript
    switches to exponent notation from 1e21 on, outside the model). *)
Definition decimal (n : Z) : string := NilZero.string_of_int (Z.to_int n).

(** [String(v)], also what a template literal applies to an operand. *)
Fixpoint toString (v : val) : string :=
  match v with
  | VUndef => "undefined"
  | VNull => "null"
  | VBool true => "true"
  | VBool false => "false"
  | VNum n => decimal n
  | VStr s => s
  | VArr xs => join "," (map (fun x => if nullish x then "" else toString x) xs)
  | VObj _ => "[object Object]"
  end.

(** ** Dates *)

Section Date.
Local Open Scope Z_scope.

(** Largest time value of a [Date], in milliseconds either side of the epoch. *)
Definition maxTime : Z := 8640000000000000.

Definition msPerDay : Z := 86400000.

(** Left-pad the decimal text of a non-negative number with zeros. *)
Definition pad (width : nat) (n : Z) : string :=
  let d := decimal n in
  String.concat "" (repeat "0" (width - String.length d)) +:+ d.

(** Proleptic Gregorian date of a day count from 1970-01-01. *)
Definition civil (days : Z) : Z * Z * Z :=
  let z := days + 719468 in
  let era := z / 146097 in
  let doe := z - era * 146097 in
  let yoe := (doe - doe / 1460 + doe / 36524 - doe / 146096) / 365 in
  let doy := doe - (365 * yoe + yoe / 4 - yoe / 100) in
  let mp := (5 * doy + 2) / 153 in
  let d := doy - (153 * mp + 2) / 5 + 1 in
  let m := if mp <? 10 then mp + 3 else mp - 9 in
  let y := yoe + era * 400 + (if m <=? 2 then 1 else 0) in
  (y, m, d).

Definition yearText (y : Z) : string :=
  if (0 <=? y) && (y <=? 9999) then pad 4 y
  else if y <? 0 then "-" +:+ pad 6 (- y)
  else "+" +:+ pad 6 y.

(** [new Date(t).toISOString()] for a numeric [t]: a RangeError outside
    the range of time values. *)
Definition toISOString (t : Z) : result string :=
  if (Z.abs t <=? maxTime) then
    let '(y, m, d) := civil (t / msPerDay) in
    let r := t mod msPerDay in
    Ok (yearText y +:+ "-" +:+ pad 2 m +:+ "-" +:+ pad 2 d +:+ "T"
        +:+ pad 2 (r / 3600000) +:+ ":" +:+ pad 2 (r / 60000 mod 60) +:+ ":"
        +:+ pad 2 (r / 1000 mod 60) +:+ "." +:+ pad 3 (r mod 1000) +:+ "Z")
  else Throw RangeError.
End Date.

End JS.

Import JS.

(* ===================================================================== *)
(** * [src/utils/validator.js] *)
(* ===================================================================== *)

Module Validator.

(** [sanitizeData(data)], on the own properties of the request body (the
    route calls it on a body that passed [validateWebhookRequest], hence on
    a plain object): a shallow copy, three deletions, two truncations. *)
Definition truncateField (k : string) (n : nat) (sanitized : gmap string val) : gmap string val :=
  let v := default VUndef (sanitized !! k) in
  if truthy v then <[k := VStr (substring0 n (toString v))]> sanitized else sanitized.

Definition sanitizeData (data : gmap string val) : gmap string val :=
  let sanitized := data in
  let sanitized := delete "secret" sanitized in
  let sanitized := delete "password" sanitized in
  let sanitized := delete "token" sanitized in
  let sanitized := truncateField "cameraName" 100 sanitized in
  let sanitized := truncateField "description" 2000 sanitized in
  sanitized.

(** [validateWebhookRequest(body, secret)] of [src/utils/validator.js]:
    the list of error messages; the request is valid when it is empty.
    [secret] is [process.env.WEBHOOK_SECRET], a string when set. *)
Definition validateWebhookRequest (body : val) (secret : option string) : list string :=
  if negb (truthy body) || negb (match body with VObj _ | VArr _ => true | _ => false end)
  then ["Request body must be a valid JSON object"]
  else
    let alarm := getOpt body "alarm" in
    if negb (truthy alarm) || negb (match alarm with VObj _ | VArr _ => true | _ => false end)
    then ["Missing required field: alarm"]
    else
      ((if truthy (getOpt alarm "name") then [] else ["Missing required field: alarm.name"])
      ++ (if truthy (getOpt alarm "conditions") && isArray (getOpt alarm "conditions") then []
          else ["Missing required field: alarm.conditions (must be an array)"])
      ++ (if truthy (getOpt alarm "triggers") && isArray (getOpt alarm "triggers") then []
          else ["Missing required field: alarm.triggers (must be an array)"])
      ++ (if truthy (getOpt body "timestamp") then [] else ["Missing required field: timestamp"])
      ++ (match secret with
          | Some s =>
            if negb (String.eqb s "")
               && negb (match getOpt body "secret" with VStr s' => String.eqb s' s | _ => false end)
            then ["Invalid webhook secret"] else []
          | None => []
          end))%list.

End Validator.

(* ===================================================================== *)
(** * The Discord message payload *)
(* ===================================================================== *)

(** One entry of [embed.fields]. *)
Module Field.
Record t : Type := mk { name : string; value : val; inline : bool }.
End Field.

(** The embed object built by [transformToDiscordFormat]. *)
Module Embed.
Record t : Type := mk {
  title : string;
  description : val;
  color : val;
  timestamp : val;
  fields : list Field.t
}.
End Embed.

(** The message payload [{ content, embeds }]. *)
Module Message.
Record t : Type := mk { content : string; embeds : list Embed.t }.
End Message.

(** The object [getEventConfig] returns. *)
Module EventConfig.
Record t : Type := mk { emoji : val; title : val; color : val }.
End EventConfig.

(** The object [extractPersonInfo] returns. *)
Module PersonInfo.
Record t : Type := mk {
  name : val;
  eventId : val;
  eventLocalLink : val;
  eventPath : val;
  timestamp : val
}.
End PersonInfo.

(** Code shared, text for text, by the versions of [services/discord.js]. *)
Module DiscordCommon.

(** The loop of [extractEventType] over [alarm.conditions]; [keyword] is
    the chain of [if (source.includes(...)) return ...] of the version at
    hand. [Some k] when the loop returned [k], [None] when it ran out. *)
Fixpoint scanConditions (keyword : string -> option string) (conditions : list val)
  : result (option string) :=
  match conditions with
  | [] => Ok None
  | condition :: rest =>
    c ← get condition "condition";
    if truthy c then
      src ← get c "source";
      if truthy src then
        source ← toLowerCase src;
        match keyword source with
        | Some k => Ok (Some k)
        | None => scanConditions keyword rest
        end
      else scanConditions keyword rest
    else scanConditions keyword rest
  end.

(** [firstCondition && firstCondition.condition &&
    firstCondition.condition.source], then the lower-cased source or
    ["unknown"]. *)
Definition firstConditionSource (conditions : list val) : result string :=
  let firstCondition := nth 0 conditions VUndef in
  if truthy firstCondition then
    c ← get firstCondition "condition";
    if truthy c then
      src ← get c "source";
      if truthy src then toLowerCase src else Ok "unknown"
    else Ok "unknown"
  else Ok "unknown".

Definition extractEventTypeWith (keyword : string -> option string) (alarm : val)
  : result string :=
  conditions ← get alarm "conditions";
  if negb (truthy conditions) || negb (isArray conditions) then Ok "unknown"
  else
    found ← scanConditions keyword (elements conditions);
    match found with
    | Some k => Ok k
    | None => firstConditionSource (elements conditions)
    end.

(** The loop of [extractDeviceInfo]: the fragments pushed for the triggers. *)
Fixpoint deviceFragments (triggers : list val) : result (list string) :=
  match triggers with
  | [] => Ok []
  | trigger :: rest =>
    device ← get trigger "device";
    key ← get trigger "key";
    more ← deviceFragments rest;
    Ok ((if truthy device then ["Device: " +:+ toString device] else [])
        ++ (if truthy key then ["Trigger: " +:+ toString key] else [])
        ++ more)%list
  end.

(** [extractDeviceInfo(alarm)]: the joined fragments, or [null]. *)
Definition extractDeviceInfo (alarm : val) : result val :=
  triggers ← get alarm "triggers";
  if negb (truthy triggers) || negb (isArray triggers) then Ok VNull
  else
    deviceInfo ← deviceFragments (elements triggers);
    Ok (if (0 <? length deviceInfo)%nat then VStr (join " | " deviceInfo) else VNull).

(** The timestamp of the embed: [typeof timestamp === "number" ? new
    Date(timestamp).toISOString() : timestamp || new Date().toISOString()].
    [now] is what [new Date().toISOString()] evaluates to at the call. *)
Definition formatTimestamp (now : string) (timestamp : val) : result val :=
  match timestamp with
  | VNum n => VStr <$> toISOString n
  | _ => Ok (or_else timestamp (VStr now))
  end.

(** Whether a text is a run of decimal digits, and then whether the number
    it writes is positive. *)
Definition isDigit (c : ascii) : bool :=
  let n := nat_of_ascii c in (48 <=? n)%nat && (n <=? 57)%nat.

Fixpoint digitsPositive (s : string) : option bool :=
  match s with
  | EmptyString => Some false
  | String c s' =>
    if isDigit c then
      (fun rest => negb (Ascii.eqb c "0") || rest) <$> digitsPositive s'
    else None
  end.

(** [x > 0] for the value of a [length] property. Exact on numbers,
    booleans, [null], [undefined] and objects; a string counts as positive
    when it is a plain run of decimal digits, not all zero. The length of
    an array or a string is a number. *)
Definition gtZero (v : val) : bool :=
  match v with
  | VNum n => (0 <? n)%Z
  | VBool b => b
  | VStr s => default false (digitsPositive s)
  | VArr xs => default false (digitsPositive (toString (VArr xs)))
  | VUndef | VNull | VObj _ => false
  end.

(** One fragment of the conditions summary: the arrow function given to
    [alarm.conditions.map]. *)
Definition conditionFragment (cond : val) : result string :=
  c ← get cond "condition";
  if truthy c then
    source ← get c "source";
    type ← get c "type";
    Ok (toString (or_else source (VStr "unknown")) +:+ " ("
        +:+ toString (or_else type (VStr "unknown")) +:+ ")")
  else Ok "unknown".

Fixpoint mapFragments (conds : list val) : result (list string) :=
  match conds with
  | [] => Ok []
  | cond :: rest =>
    f ← conditionFragment cond;
    fs ← mapFragments rest;
    Ok (f :: fs)
  end.

(** The block [if (alarm.conditions && alarm.conditions.length > 0)] of
    [transformToDiscordFormat]: the text of the Conditions field, when the
    block pushes one. [map] is a method of arrays only. *)
Definition conditionsSummary (alarm : val) : result (option string) :=
  conditions ← get alarm "conditions";
  if truthy conditions then
    len ← get conditions "length";
    if gtZero len then
      match conditions with
      | VArr conds => fs ← mapFragments conds; Ok (Some (join ", " fs))
      | _ => Throw TypeError
      end
    else Ok None
  else Ok None.

Definition conditionsField (alarm : val) : result (list Field.t) :=
  summary ← conditionsSummary alarm;
  Ok (match summary with
      | Some conditions => [Field.mk "Conditions" (VStr conditions) false]
      | None => []
      end).

(** [`${eventConfig.emoji} **${eventConfig.title}**`]. *)
Definition contentLine (eventConfig : EventConfig.t) : string :=
  toString (EventConfig.emoji eventConfig) +:+ " **"
  +:+ toString (EventConfig.title eventConfig) +:+ "**".

Definition config (emoji title : string) (color : Z) : EventConfig.t :=
  EventConfig.mk (VStr emoji) (VStr title) (VNum color).

(** What [configs[key]] finds on the prototype of the object literal: the
    two inherited properties whose names are lower-case, both truthy and
    without [emoji], [title] or [color]. *)
Definition inheritedConfig (key : string) : option EventConfig.t :=
  if String.eqb key "constructor" || String.eqb key "__proto__"
  then Some (EventConfig.mk VUndef VUndef VUndef)
  else None.

Definition fallbackConfig : EventConfig.t := config "🔔" "Event Detected" 10181046.

End DiscordCommon.

(* ===================================================================== *)
(** * [services/discord.js], the version with thumbnails *)
(* ===================================================================== *)

(** The latest version of the service (second file of the unnamed
    [part_001]): face keywords, person information, animated thumbnail. *)
Module DiscordThumb.
Import DiscordCommon.

(** The chain of [includes] tests of [extractEventType]. *)
Definition sourceKeyword (source : string) : option string :=
  if includes source "motion" then Some "motion"
  else if includes source "person" then Some "person"
  else if includes source "vehicle" then Some "vehicle"
  else if includes source "package" then Some "package"
  else if includes source "alert" then Some "alert"
  else if includes source "face_known" then Some "face_known"
  else if includes source "face_unknown" then Some "face_unknown"
  else None.

Definition extractEventType (alarm : val) : result string :=
  extractEventTypeWith sourceKeyword alarm.

Definition extractDeviceInfo (alarm : val) : result val :=
  DiscordCommon.extractDeviceInfo alarm.

(** [trigger.key === "face_known" || trigger.key === "face_unknown"]. *)
Definition isFaceKey (key : val) : bool :=
  match key with
  | VStr k => String.eqb k "face_known" || String.eqb k "face_unknown"
  | _ => false
  end.

(** The name put in the person record: [group.name], else [value], else
    the initial [null]. *)
Definition personName (trigger : val) : result val :=
  group ← get trigger "group";
  groupName ← (if truthy group then get group "name" else Ok group);
  if truthy groupName then Ok groupName
  else
    value ← get trigger "value";
    Ok (if truthy value then value else VNull).

Fixpoint scanTriggers (alarm : val) (triggers : list val) : result (option PersonInfo.t) :=
  match triggers with
  | [] => Ok None
  | trigger :: rest =>
    key ← get trigger "key";
    if isFaceKey key then
      eventId ← get trigger "eventId";
      eventLocalLink ← get alarm "eventLocalLink";
      eventPath ← get alarm "eventPath";
      timestamp ← get trigger "timestamp";
      name ← personName trigger;
      Ok (Some (PersonInfo.mk name eventId eventLocalLink eventPath timestamp))
    else scanTriggers alarm rest
  end.

(** [extractPersonInfo(alarm)]; [None] is the returned [null]. *)
Definition extractPersonInfo (alarm : val) : result (option PersonInfo.t) :=
  triggers ← get alarm "triggers";
  if negb (truthy triggers) || negb (isArray triggers) then Ok None
  else scanTriggers alarm (elements triggers).

Fixpoint firstEventId (triggers : list val) : result val :=
  match triggers with
  | [] => Ok VNull
  | trigger :: rest =>
    eventId ← get trigger "eventId";
    if truthy eventId then Ok eventId else firstEventId rest
  end.

(** [extractEventId(alarm)]. *)
Definition extractEventId (alarm : val) : result val :=
  triggers ← get alarm "triggers";
  if negb (truthy triggers) || negb (isArray triggers) then Ok VNull
  else firstEventId (elements triggers).

(** [getEventConfig(eventType)]: [configs[eventType.toLowerCase()] || {...}]. *)
Definition getEventConfig (eventType : val) : result EventConfig.t :=
  key ← toLowerCase eventType;
  Ok (if String.eqb key "motion" then config "🚨" "Motion Detected" 15158332
      else if String.eqb key "alert" then config "⚠️" "Alert Triggered" 16776960
      else if String.eqb key "person" then config "👤" "Person Detected" 3447003
      else if String.eqb key "vehicle" then config "🚗" "Vehicle Detected" 7419530
      else if String.eqb key "package" then config "📦" "Package Detected" 5763719
      else if String.eqb key "face_known" then config "👤" "Known Person Detected" 3447003
      else if String.eqb key "face_unknown" then config "👤" "Unknown Person Detected" 16776960
      else default fallbackConfig (inheritedConfig key)).

(** The fields pushed for the person record, before and after the Device
    field. *)
Definition personField (personInfo : option PersonInfo.t) : list Field.t :=
  match personInfo with
  | Some p => if truthy (PersonInfo.name p) then [Field.mk "Person" (PersonInfo.name p) true] else []
  | None => []
  end.

Definition eventIdField (personInfo : option PersonInfo.t) : list Field.t :=
  match personInfo with
  | Some p => if truthy (PersonInfo.eventId p) then [Field.mk "Event ID" (PersonInfo.eventId p) true] else []
  | None => []
  end.

(** [transformToDiscordFormat(eventData)]. *)
Definition transformToDiscordFormat (now : string) (eventData : val) : result Message.t :=
  alarm ← get eventData "alarm";
  timestamp ← get eventData "timestamp";
  name ← get alarm "name";
  let alarmName := or_else name (VStr "Unknown Alarm") in
  eventType ← extractEventType alarm;
  deviceInfo ← extractDeviceInfo alarm;
  personInfo ← extractPersonInfo alarm;
  formattedTimestamp ← formatTimestamp now timestamp;
  eventConfig ← getEventConfig (VStr eventType);
  conditions ← conditionsField alarm;
  let fields :=
    ([Field.mk "Event Type" (VStr eventType) true]
     ++ personField personInfo
     ++ (if truthy deviceInfo then [Field.mk "Device" deviceInfo true] else [])
     ++ eventIdField personInfo
     ++ conditions)%list in
  Ok (Message.mk (contentLine eventConfig)
        [Embed.mk "Unifi Protect Alert" alarmName (EventConfig.color eventConfig)
           formattedTimestamp fields]).

End DiscordThumb.

(* ===================================================================== *)
(** * [src/services/discord.js], the version without thumbnails *)
(* ===================================================================== *)

Module DiscordAlarm.
Import DiscordCommon.

Definition sourceKeyword (source : string) : option string :=
  if includes source "motion" then Some "motion"
  else if includes source "person" then Some "person"
  else if includes source "vehicle" then Some "vehicle"
  else if includes source "package" then Some "package"
  else if includes source "alert" then Some "alert"
  else None.

Definition extractEventType (alarm : val) : result string :=
  extractEventTypeWith sourceKeyword alarm.

Definition extractDeviceInfo (alarm : val) : result val :=
  DiscordCommon.extractDeviceInfo alarm.

Definition getEventConfig (eventType : val) : result EventConfig.t :=
  key ← toLowerCase eventType;
  Ok (if String.eqb key "motion" then config "🚨" "Motion Detected" 15158332
      else if String.eqb key "alert" then config "⚠️" "Alert Triggered" 16776960
      else if String.eqb key "person" then config "👤" "Person Detected" 3447003
      else if String.eqb key "vehicle" then config "🚗" "Vehicle Detected" 7419530
      else if String.eqb key "package" then config "📦" "Package Detected" 5763719
      else default fallbackConfig (inheritedConfig key)).

Definition transformToDiscordFormat (now : string) (eventData : val) : result Message.t :=
  alarm ← get eventData "alarm";
  timestamp ← get eventData "timestamp";
  name ← get alarm "name";
  let alarmName := or_else name (VStr "Unknown Alarm") in
  eventType ← extractEventType alarm;
  deviceInfo ← extractDeviceInfo alarm;
  formattedTimestamp ← formatTimestamp now timestamp;
  eventConfig ← getEventConfig (VStr eventType);
  conditions ← conditionsField alarm;
  let fields :=
    ([Field.mk "Event Type" (VStr eventType) true]
     ++ (if truthy deviceInfo then [Field.mk "Device" deviceInfo true] else [])
     ++ conditions)%list in
  Ok (Message.mk (contentLine eventConfig)
        [Embed.mk "Unifi Protect Alert" alarmName (EventConfig.color eventConfig)
           formattedTimestamp fields]).

End DiscordAlarm.

(* ===================================================================== *)
(** * [services/discord.js], the version for flat payloads *)
(* ===================================================================== *)

(** The earliest version of the service (first file of the unnamed
    [part_001]): the payload carries [eventType] itself. *)
Module DiscordFlat.
Import DiscordCommon.

Definition getEventConfig (eventType : val) : result EventConfig.t :=
  DiscordAlarm.getEventConfig eventType.

Definition transformToDiscordFormat (now : string) (eventData : val) : result Message.t :=
  eventType ← get eventData "eventType";
  cameraName ← get eventData "cameraName";
  timestamp ← get eventData "timestamp";
  description ← get eventData "description";
  eventConfig ← getEventConfig eventType;
  location ← get eventData "location";
  let fields :=
    ((if truthy cameraName then [Field.mk "Camera" cameraName true] else [])
     ++ [Field.mk "Event Type" eventType true]
     ++ (if truthy location then [Field.mk "Location" location true] else []))%list in
  Ok (Message.mk (contentLine eventConfig)
        [Embed.mk "Unifi Protect Alert"
           (or_else description (VStr ("Event: " +:+ toString eventType)))
           (EventConfig.color eventConfig)
           (or_else timestamp (VStr now)) fields]).

End DiscordFlat.

(* ===================================================================== *)
(** * Outbound calls, files and the processor's session *)
(* ===================================================================== *)

Module World.

(** The body of an outbound POST. *)
Inductive payload : Type :=
| LoginBody (username password : string)
| JsonMessage (m : Message.t)
| FormMessage (m : Message.t) (file : string)
| FormFile (filename : string) (file : option string) (content : option string).

(** An outbound call of [axios]. *)
Inductive request : Type :=
| Get (url : string) (headers : list (string * string))
| Post (url : string) (body : payload).

(** [response.data]: a parsed body, or the [Buffer] of a binary one. *)
Inductive body : Type :=
| Data (v : val)
| Binary (bytes : string).

Definition bodyTruthy (b : body) : bool :=
  match b with Data v => truthy v | Binary _ => true end.

Definition bodyBytes (b : body) : string :=
  match b with Data v => toString v | Binary bytes => bytes end.

Definition bodyValue (b : body) : val :=
  match b with Data v => v | Binary bytes => VStr bytes end.

Record reply : Type := mkReply {
  status : Z;
  setCookie : option (list string);
  data : body
}.

(** [axios] resolves with the reply on a 2xx status and rejects otherwise
    (other status, network failure, timeout). *)
Inductive response : Type :=
| Resolved (r : reply)
| Rejected (message : string).

(** What surrounds one run: the environment variables, the clock, the
    locale rendering used by [formatEventInfo], and the peers' answers. *)
Record env : Type := mkEnv {
  PROTECT_HOST : option string;
  PROTECT_API_KEY : option string;
  PROTECT_USERNAME : string;
  PROTECT_PASSWORD : string;
  webhookUrl : string;
  dateNow : Z;
  nowISO : string;
  localeString : val -> string;
  respond : request -> response
}.

(** What a run changes: the files of the working directory, the field
    [this.sessionToken] of the processor object, and the calls made so
    far, oldest first. *)
Record world : Type := mkWorld {
  files : gmap string string;
  sessionToken : val;
  calls : list request
}.

(** A statement sequence: it may throw, and changes the world either way. *)
Definition io (A : Type) : Type := world -> result A * world.

#[global] Instance io_ret : MRet io := fun _ a w => (Ok a, w).
#[global] Instance io_bind : MBind io := fun _ _ f m w =>
  match m w with
  | (Ok a, w') => f a w'
  | (Throw e, w') => (Throw e, w')
  end.

(** A synchronous expression inside a statement sequence. *)
Definition lift {A} (r : result A) : io A := fun w => (r, w).

Definition throw {A} (e : exn) : io A := fun w => (Throw e, w).

(** [try { m } catch (error) { h error }]. *)
Definition try_catch {A} (m : io A) (h : exn -> io A) : io A := fun w =>
  match m w with
  | (Ok a, w') => (Ok a, w')
  | (Throw e, w') => h e w'
  end.

(** [await axios.get/post(...)]. *)
Definition http (E : env) (rq : request) : io reply := fun w =>
  let w' := mkWorld (files w) (sessionToken w) (calls w ++ [rq]) in
  match respond E rq with
  | Resolved r => (Ok r, w')
  | Rejected m => (Throw (Error m), w')
  end.

Definition getSessionToken : io val := fun w => (Ok (sessionToken w), w).

Definition setSessionToken (t : val) : io unit := fun w =>
  (Ok tt, mkWorld (files w) t (calls w)).

(** [fs.existsSync], [fs.readFileSync], [fs.writeFileSync], [fs.unlinkSync]. *)
Definition existsSync (path : string) : io bool := fun w =>
  (Ok (bool_decide (is_Some (files w !! path))), w).

Definition readFileSync (path : string) : io string := fun w =>
  match files w !! path with
  | Some content => (Ok content, w)
  | None => (Throw (Error "ENOENT"), w)
  end.

Definition writeFileSync (path content : string) : io unit := fun w =>
  (Ok tt, mkWorld (<[path := content]> (files w)) (sessionToken w) (calls w)).

Definition unlinkSync (path : string) : io unit := fun w =>
  match files w !! path with
  | Some _ => (Ok tt, mkWorld (delete path (files w)) (sessionToken w) (calls w))
  | None => (Throw (Error "ENOENT"), w)
  end.

(** [process.env.PROTECT_HOST || "192.168.1.80"]. *)
Definition host (E : env) : string :=
  match PROTECT_HOST E with
  | Some h => if String.eqb h "" then "192.168.1.80" else h
  | None => "192.168.1.80"
  end.

End World.

Import World.

(* ===================================================================== *)
(** * [services/discord.js] with thumbnails: fetching and sending *)
(* ===================================================================== *)

Module DiscordSend.
Import DiscordThumb.

(** [fetchAnimatedThumbnail(eventId, requestId)]: the buffer, or [None]
    for the returned [null]. *)
Definition thumbnailUrl (E : env) (eventId : val) : string :=
  "http://" +:+ host E +:+ "/proxy/protect/api/events/" +:+ toString eventId
  +:+ "/animated-thumbnail?keyFrameOnly=true&speedup=10".

Definition fetchAnimatedThumbnail (E : env) (eventId : val) : io (option string) :=
  match PROTECT_API_KEY E with
  | None => mret None
  | Some protectApiKey =>
    if String.eqb protectApiKey "" then mret None
    else if negb (truthy eventId) then mret None
    else
      try_catch
        (response ← http E (Get (thumbnailUrl E eventId) [("X-API-KEY", protectApiKey)]);
         if (status response =? 200)%Z && bodyTruthy (data response)
         then mret (Some (bodyBytes (data response)))
         else mret None)
        (fun error => mret None)
  end.

(** [sendMessage(messageData, requestId)]. *)
Definition sendMessage (E : env) (messageData : Message.t) : io val :=
  try_catch
    (response ← http E (Post (webhookUrl E) (JsonMessage messageData));
     mret (bodyValue (data response)))
    (fun error => throw (Error ("Discord webhook failed: " +:+ message error))).

(** [sendMessageWithThumbnail(messageData, thumbnailBuffer, requestId)]. *)
Definition sendMessageWithThumbnail (E : env) (messageData : Message.t)
    (thumbnailBuffer : option string) : io val :=
  try_catch
    (match thumbnailBuffer with
     | Some buffer =>
       response ← http E (Post (webhookUrl E) (FormMessage messageData buffer));
       mret (bodyValue (data response))
     | None => sendMessage E messageData
     end)
    (fun error => throw (Error ("Discord webhook failed: " +:+ message error))).

(** [processAndSend(eventData, requestId)]. The arguments of the two log
    calls are evaluated (they can throw) and dropped. *)
Definition processAndSend (E : env) (eventData : val) : io val :=
  try_catch
    (alarm ← lift (get eventData "alarm");
     _ ← lift (extractEventType alarm);
     _ ← lift (get eventData "timestamp");
     _ ← lift (extractEventType alarm);
     _ ← lift (extractDeviceInfo alarm);
     _ ← lift (extractPersonInfo alarm);
     eventId ← lift (extractEventId alarm);
     thumbnailBuffer ← (if truthy eventId then fetchAnimatedThumbnail E eventId else mret None);
     discordMessage ← lift (transformToDiscordFormat (nowISO E) eventData);
     sendMessageWithThumbnail E discordMessage thumbnailBuffer)
    (fun error => throw error).

End DiscordSend.

(* ===================================================================== *)
(** * The command-line event processor *)
(* ===================================================================== *)

(** [SingleEventProcessor] of the unnamed [part_000]; [authenticate],
    [loadExistingSession] and [ensureAuthenticated] are, text for text,
    those of [UniFiDiscordUploader] in [discord-thumbnail-uploader.mjs]. *)
Module SingleEventProcessor.

Definition tab : string := String (ascii_of_nat 9) "".
Definition newline : string := String (ascii_of_nat 10) "".

Definition userAgent : string :=
  "Mozilla/5.0 (Macintosh; Intel Mac OS X 10_15_7) AppleWebKit/537.36 (KHTML, like Gecko) Chrome/138.0.0.0 Safari/537.36".

(** [cookie.split("TOKEN=")[1].split(";")[0]]; reading [.split] of a
    missing element is a TypeError. *)
Definition tokenOfCookie (cookie : string) : result string :=
  match split "TOKEN=" cookie with
  | _ :: second :: _ =>
    match split ";" second with
    | first :: _ => Ok first
    | [] => Throw TypeError
    end
  | _ => Throw TypeError
  end.

(** The loop over the cookies, up to its [break]: the token assigned to
    [this.sessionToken], if the loop assigns one. *)
Fixpoint tokenFromCookies (cookies : list string) : result (option string) :=
  match cookies with
  | [] => Ok None
  | cookie :: rest =>
    if includes cookie "TOKEN=" then Some <$> tokenOfCookie cookie
    else tokenFromCookies rest
  end.

Definition loginUrl (E : env) : string := "https://" +:+ host E +:+ "/api/auth/login".

(** The line written to [cookies.txt]. *)
Definition cookieLine (E : env) (token : val) : string :=
  let expiry := (dateNow E / 1000 + 24 * 60 * 60)%Z in
  host E +:+ tab +:+ "TRUE" +:+ tab +:+ "/proxy/protect/" +:+ tab +:+ "TRUE" +:+ tab
  +:+ decimal expiry +:+ tab +:+ "TOKEN" +:+ tab +:+ toString token.

(** [authenticate()]. *)
Definition authenticate (E : env) : io bool :=
  try_catch
    (loginResponse ← http E (Post (loginUrl E)
                              (LoginBody (PROTECT_USERNAME E) (PROTECT_PASSWORD E)));
     _ ← match setCookie loginResponse with
         | Some cookies =>
           found ← lift (tokenFromCookies cookies);
           match found with
           | Some token => setSessionToken (VStr token)
           | None => mret tt
           end
         | None => mret tt
         end;
     sessionToken ← getSessionToken;
     if negb (truthy sessionToken) then throw (Error "No session token found in response")
     else
       _ ← writeFileSync "cookies.txt" (cookieLine E sessionToken);
       mret true)
    (fun error => mret false).

(** The capture of [/TOKEN\t([^\t\n]+)/] in [content], at the leftmost
    place where the pattern matches. *)
Definition fieldChar (c : ascii) : bool :=
  negb (Ascii.eqb c (ascii_of_nat 9)) && negb (Ascii.eqb c (ascii_of_nat 10)).

Fixpoint takeField (s : string) : string :=
  match s with
  | EmptyString => EmptyString
  | String c s' => if fieldChar c then String c (takeField s') else EmptyString
  end.

Fixpoint matchToken (content : string) : option string :=
  match content with
  | EmptyString => None
  | String _ rest =>
    let field := takeField (drop_string 6 content) in
    if String.prefix ("TOKEN" +:+ tab) content && negb (String.eqb field "")
    then Some field
    else matchToken rest
  end.

(** [loadExistingSession()]. *)
Definition loadExistingSession : io bool :=
  present ← existsSync "cookies.txt";
  if negb present then mret false
  else
    try_catch
      (cookieContent ← readFileSync "cookies.txt";
       match matchToken cookieContent with
       | Some token => _ ← setSessionToken (VStr token); mret true
       | None => mret false
       end)
      (fun error => mret false).

Definition probeUrl (E : env) : string := "https://" +:+ host E +:+ "/api/auth/me".

(** [ensureAuthenticated()]. [probe] is the [try] block testing the loaded
    session; [valid] is false where control falls out of the outer [if]
    without returning. *)
Definition probe (E : env) : io bool :=
  sessionToken ← getSessionToken;
  try_catch
    (_ ← http E (Get (probeUrl E) [("Cookie", "TOKEN=" +:+ toString sessionToken)]);
     mret true)
    (fun error => mret false).

Definition ensureAuthenticated (E : env) : io bool :=
  loaded ← loadExistingSession;
  valid ← (if loaded : bool then probe E else mret false);
  if valid : bool then mret true else authenticate E.

(** [getEventInfo(eventId)]: the event, or [null]. *)
Definition eventUrl (E : env) (eventId : string) : string :=
  "https://" +:+ host E +:+ "/proxy/protect/api/events/" +:+ eventId.

Definition getEventInfo (E : env) (eventId : string) : io val :=
  try_catch
    (sessionToken ← getSessionToken;
     response ← http E (Get (eventUrl E eventId)
                          [("accept", "application/json"); ("user-agent", userAgent);
                           ("Cookie", "TOKEN=" +:+ toString sessionToken)]);
     if (status response =? 200)%Z && bodyTruthy (data response)
     then mret (bodyValue (data response))
     else mret VNull)
    (fun error => mret VNull).

(** [downloadThumbnail(eventId, outputFile)]. *)
Definition downloadAccept : string :=
  "text/html,application/xhtml+xml,application/xml;q=0.9,image/avif,image/webp,image/apng,*/*;q=0.8,application/signed-exchange;v=b3;q=0.7".

Definition downloadThumbnail (E : env) (eventId outputFile : string) : io bool :=
  try_catch
    (sessionToken ← getSessionToken;
     response ← http E (Get (eventUrl E eventId +:+ "/thumbnail")
                          [("accept", downloadAccept); ("accept-language", "en-US,en;q=0.9");
                           ("cache-control", "no-cache"); ("pragma", "no-cache");
                           ("user-agent", userAgent);
                           ("Cookie", "TOKEN=" +:+ toString sessionToken)]);
     if (status response =? 200)%Z then
       _ ← writeFileSync outputFile (bodyBytes (data response));
       mret true
     else mret false)
    (fun error => mret false).

(** [formatEventInfo(event)]; the date line is the host's locale rendering
    of [event.start * 1000]. *)
Definition formatEventInfo (E : env) (event : val) : result (option string) :=
  if negb (truthy event) then Ok None
  else
    start ← get event "start";
    let timestamp := localeString E start in
    camera ← get event "camera";
    let cameraName := or_else (getOpt camera "name") (VStr "Unknown Camera") in
    type ← get event "type";
    let eventType := or_else type (VStr "Unknown Event") in
    Ok (Some ("📹 **" +:+ toString eventType +:+ "** on " +:+ toString cameraName
              +:+ newline +:+ "🕐 " +:+ timestamp)).

(** [path.basename] of a file name without directory part, which is all
    [processEvent] passes. *)
Definition basename (filePath : string) : string := filePath.

(** [uploadToDiscord(filePath, eventInfo)]; the stream reads the file when
    the form is sent. *)
Definition uploadToDiscord (E : env) (filePath : string) (eventInfo : val) : io bool :=
  try_catch
    (content ← lift (formatEventInfo E eventInfo);
     file ← (fun w => (Ok (files w !! filePath), w));
     response ← http E (Post (webhookUrl E) (FormFile (basename filePath) file content));
     mret ((status response =? 204)%Z || (status response =? 200)%Z))
    (fun error => mret false).

(** [processEvent(eventId)]. *)
Definition processEvent (E : env) (eventId : string) : io bool :=
  let fileName := "thumbnail-" +:+ eventId +:+ ".jpg" in
  try_catch
    (eventInfo ← getEventInfo E eventId;
     if negb (truthy eventInfo) then mret false
     else
       downloadSuccess ← downloadThumbnail E eventId fileName;
       if negb downloadSuccess then mret false
       else
         uploadSuccess ← uploadToDiscord E fileName eventInfo;
         if negb uploadSuccess then mret false
         else
           _ ← try_catch (unlinkSync fileName) (fun error => mret tt);
           mret true)
    (fun error => mret false).

End SingleEventProcessor.

(* ===================================================================== *)
(** * [download-thumbnail.mjs] *)
(* ===================================================================== *)

Module DownloadThumbnail.

(** The part of [authenticate] between the login reply and the write of
    [cookies.txt]: the session token, or [None] where the function
    returns [null]. The token variable is local and starts as [null]. *)
Definition sessionFromLogin (cookies : option (list string)) : result (option string) :=
  match cookies with
  | None => Ok None
  | Some cookies =>
    found ← SingleEventProcessor.tokenFromCookies cookies;
    let sessionToken := match found with Some token => VStr token | None => VNull end in
    Ok (if negb (truthy sessionToken) then None else Some (toString sessionToken))
  end.

End DownloadThumbnail.

(* ===================================================================== *)
(** * [src/services/discord.js]: sending, in the two earlier versions *)
(* ===================================================================== *)

(** [sendMessage] and [processAndSend] of [src/services/discord.js]. *)
Module DiscordAlarmSend.
Import DiscordAlarm.

(** [sendMessage(messageData, requestId)]: the same text in the three
    versions of the service. *)
Definition sendMessage (E : env) (messageData : Message.t) : io val :=
  DiscordSend.sendMessage E messageData.

(** [processAndSend(eventData, requestId)]; the arguments of the two log
    calls are evaluated and dropped. *)
Definition processAndSend (E : env) (eventData : val) : io val :=
  try_catch
    (alarm ← lift (get eventData "alarm");
     _ ← lift (extractEventType alarm);
     _ ← lift (get eventData "timestamp");
     _ ← lift (extractEventType alarm);
     _ ← lift (extractDeviceInfo alarm);
     discordMessage ← lift (transformToDiscordFormat (nowISO E) eventData);
     sendMessage E discordMessage)
    (fun error => throw error).

End DiscordAlarmSend.

(** [processAndSend] of the version for flat payloads. *)
Module DiscordFlatSend.
Import DiscordFlat.

Definition processAndSend (E : env) (eventData : val) : io val :=
  try_catch
    (_ ← lift (get eventData "eventType");
     _ ← lift (get eventData "cameraName");
     discordMessage ← lift (transformToDiscordFormat (nowISO E) eventData);
     DiscordSend.sendMessage E discordMessage)
    (fun error => throw error).

End DiscordFlatSend.

(* ===================================================================== *)
(** * The validator for flat payloads *)
(* ===================================================================== *)

(** [validateWebhookRequest] of the unnamed [part_002], the earlier
    version of [utils/validator.js]; its [sanitizeData] is the one of
    [Validator]. *)
Module ValidatorFlat.

Definition validateWebhookRequest (body : val) (secret : option string) : list string :=
  if negb (truthy body) || negb (match body with VObj _ | VArr _ => true | _ => false end)
  then ["Request body must be a valid JSON object"]
  else
    ((if truthy (getOpt body "timestamp") then [] else ["Missing required field: timestamp"])
     ++ (if truthy (getOpt body "eventType") then [] else ["Missing required field: eventType"])
     ++ (match secret with
         | Some s =>
           if negb (String.eqb s "")
              && negb (match getOpt body "secret" with VStr s' => String.eqb s' s | _ => false end)
           then ["Invalid webhook secret"] else []
         | None => []
         end))%list.

End ValidatorFlat.

(* ===================================================================== *)
(** * [src/routes/webhook.js] *)
(* ===================================================================== *)

Module Route.

(** What the handler sends back: [res.status(code).json(body)]. *)
Record response : Type := mkResponse { code : Z; json : val }.

(** The own enumerable properties copied by [{ ...data }]: those of an
    object, the indexed elements of an array or of a string, none for the
    other values. *)
Definition indexed {A} (f : A -> val) (xs : list A) : gmap string val :=
  list_to_map (imap (fun i x => (decimal (Z.of_nat i), f x)) xs).

Definition spread (data : val) : gmap string val :=
  match data with
  | VObj m => m
  | VArr xs => indexed (fun x => x) xs
  | VStr s => indexed (fun c => VStr (String c "")) (list_ascii_of_string s)
  | _ => ∅
  end.

Definition invalidRequest (errors : list string) : response :=
  mkResponse 400 (obj [("error", VStr "Invalid request");
                       ("details", VArr (map VStr errors))]).

Definition processed (discordMessageId : val) : response :=
  mkResponse 200 (obj [("success", VBool true);
                       ("message", VStr "Webhook processed successfully");
                       ("discordMessageId", discordMessageId)]).

Definition internalError : response :=
  mkResponse 500 (obj [("error", VStr "Internal server error");
                       ("message", VStr "Failed to process webhook")]).

(** The part of the handler after the first log calls, the same text in
    both versions of the route. [validate] is the [validateWebhookRequest]
    in use, [secret] is [process.env.WEBHOOK_SECRET] and [processAndSend]
    the method of the service held in [app.locals]. *)
Definition validateAndSend (validate : val -> option string -> list string)
    (processAndSend : val -> io val) (secret : option string) (body : val) : io response :=
  let errors := validate body secret in
  if negb (length errors =? 0)%nat then mret (invalidRequest errors)
  else
    let sanitizedData := VObj (Validator.sanitizeData (spread body)) in
    result ← processAndSend sanitizedData;
    discordMessageId ← lift (get result "id");
    mret (processed discordMessageId).

(** The [catch] of the handler: any exception becomes the 500 response. *)
Definition answer (m : io response) (w : world) : response * world :=
  match m w with
  | (Ok r, w') => (r, w')
  | (Throw _, w') => (internalError, w')
  end.

(** The POST handler of [src/routes/webhook.js]. *)
Definition handler (validate : val -> option string -> list string)
    (processAndSend : val -> io val) (secret : option string) (body : val)
  : world -> response * world :=
  answer (validateAndSend validate processAndSend secret body).

(** The arguments of the log call "Webhook structure" of the later
    version of the route (third file of the unnamed [part_000]), which
    are evaluated before the body is validated: [req.body.alarm] reads a
    property of the body, and the two [?.map] calls need arrays, whose
    entries they read. *)
Fixpoint readEntries (entries : list val) : result unit :=
  match entries with
  | [] => Ok tt
  | entry :: rest => _ ← get entry "id"; readEntries rest
  end.

Definition mapIds (field : val) : result unit :=
  if nullish field then Ok tt
  else match field with
       | VArr entries => readEntries entries
       | _ => Throw TypeError
       end.

Definition logStructure (body : val) : result unit :=
  alarm ← get body "alarm";
  _ ← mapIds (getOpt alarm "triggers");
  mapIds (getOpt alarm "conditions").

(** The POST handler of the later version of the route. *)
Definition handlerLater (validate : val -> option string -> list string)
    (processAndSend : val -> io val) (secret : option string) (body : val)
  : world -> response * world :=
  answer (_ ← lift (logStructure body);
          validateAndSend validate processAndSend secret body).

End Route.

(* ===================================================================== *)
(** * The command-line processor: [run] *)
(* ===================================================================== *)

Module ProcessorRun.
Import SingleEventProcessor.

(** [run(eventId)] of [SingleEventProcessor]: the outcome of
    [processEvent], or [None] when authentication failed or an exception
    was caught. *)
Definition run (E : env) (eventId : string) : io (option bool) :=
  try_catch
    (authSuccess ← ensureAuthenticated E;
     if negb authSuccess then mret None
     else
       success ← processEvent E eventId;
       mret (Some success))
    (fun error => mret None).

End ProcessorRun.

(* ===================================================================== *)
(** * [discord-thumbnail-uploader.mjs] *)
(* ===================================================================== *)

Module UniFiDiscordUploader.

(** The event types [getEvents] keeps. *)
Definition thumbnailEventTypes : list string :=
  ["motion"; "smartAudioDetect"; "smartDetectZone"; "smartDetectLine"; "smartDetectObject"].

(** The callback of [events.filter]. *)
Definition hasThumbnail (event : val) : result bool :=
  camera ← get event "camera";
  eventType ← get event "type";
  Ok (truthy camera
      && match eventType with
         | VStr t => existsb (String.eqb t) thumbnailEventTypes
         | _ => false
         end).

Fixpoint filterEvents (events : list val) : result (list val) :=
  match events with
  | [] => Ok []
  | event :: rest =>
    keep ← hasThumbnail event;
    kept ← filterEvents rest;
    Ok (if keep : bool then event :: kept else kept)
  end.

(** The URL of the events query, with the [params] in its query string. *)
Definition eventsUrl (E : env) : string :=
  "https://" +:+ host E +:+ "/proxy/protect/api/events?limit=100&start="
  +:+ decimal (dateNow E / 1000 - 24 * 60 * 60).

(** [getEvents()]. *)
Definition getEvents (E : env) : io (list val) :=
  try_catch
    (sessionToken ← getSessionToken;
     response ← http E (Get (eventsUrl E)
                          [("accept", "application/json");
                           ("user-agent", SingleEventProcessor.userAgent);
                           ("Cookie", "TOKEN=" +:+ toString sessionToken)]);
     if (status response =? 200)%Z && bodyTruthy (data response) then
       let data := bodyValue (data response) in
       events ← lift (if isArray data then Ok data else get data "data");
       if truthy events && isArray events then lift (filterEvents (elements events))
       else mret []
     else mret [])
    (fun error => mret []).

(** [downloadThumbnail(eventId, outputFile)]. *)
Definition downloadThumbnail (E : env) (eventId : val) (outputFile : string) : io bool :=
  try_catch
    (sessionToken ← getSessionToken;
     response ← http E (Get ("https://" +:+ host E +:+ "/proxy/protect/api/events/"
                             +:+ toString eventId +:+ "/thumbnail")
                          [("accept", "image/*");
                           ("user-agent", SingleEventProcessor.userAgent);
                           ("Cookie", "TOKEN=" +:+ toString sessionToken)]);
     if (status response =? 200)%Z then
       _ ← writeFileSync outputFile (bodyBytes (data response));
       mret true
     else mret false)
    (fun error => mret false).

(** [uploadToDiscord(filePath, eventInfo)]: the text of
    [SingleEventProcessor] without its log calls. *)
Definition uploadToDiscord (E : env) (filePath : string) (eventInfo : val) : io bool :=
  SingleEventProcessor.uploadToDiscord E filePath eventInfo.

(** [processEvent(event)]. *)
Definition processEvent (E : env) (event : val) : io bool :=
  eventId ← lift (get event "id");
  let fileName := "thumbnail-" +:+ toString eventId +:+ ".jpg" in
  try_catch
    (downloadSuccess ← downloadThumbnail E eventId fileName;
     if negb downloadSuccess then mret false
     else
       uploadSuccess ← uploadToDiscord E fileName event;
       if negb uploadSuccess then mret false
       else
         _ ← try_catch (unlinkSync fileName) (fun error => mret tt);
         mret true)
    (fun error => mret false).

(** The loop of [run] over the events, with its two counters; the pause
    of one second between two events is not modelled. *)
Fixpoint processEvents (E : env) (events : list val) (successCount failureCount : nat)
  : io (nat * nat) :=
  match events with
  | [] => mret (successCount, failureCount)
  | event :: rest =>
    success ← processEvent E event;
    if success : bool then processEvents E rest (S successCount) failureCount
    else processEvents E rest successCount (S failureCount)
  end.

(** [run()]: the two counts it logs, or [None] where it returns before
    the loop. *)
Definition run (E : env) : io (option (nat * nat)) :=
  authenticated ← SingleEventProcessor.ensureAuthenticated E;
  if negb authenticated then mret None
  else
    events ← getEvents E;
    if (length events =? 0)%nat then mret None
    else
      counts ← processEvents E events 0 0;
      mret (Some counts).

End UniFiDiscordUploader.

(* ===================================================================== *)
(** * The specification's notions and the inputs used below *)
(* ===================================================================== *)

Module Spec.

Definition isText (v : val) : bool :=
  match v with VStr _ => true | _ => false end.

(** A condition entry that the extraction can read: neither [null] nor
    [undefined], and with a source that is text when it is present. *)
Definition wellFormedCondition (c : val) : bool :=
  negb (nullish c)
  && (let cc := getOpt c "condition" in
      if truthy cc
      then (let src := getOpt cc "source" in negb (truthy src) || isText src)
      else true).

(** The source text of a condition entry, when it has one. *)
Definition conditionSource (c : val) : option string :=
  let cc := getOpt c "condition" in
  if truthy cc then
    match getOpt cc "source" with
    | VStr s => if String.eqb s "" then None else Some s
    | _ => None
    end
  else None.

(** The keywords, in priority order: of the latest version, and of
    [src/services/discord.js]. *)
Definition keywords : list string :=
  ["motion"; "person"; "vehicle"; "package"; "alert"; "face_known"; "face_unknown"].

Definition keywordsAlarm : list string :=
  ["motion"; "person"; "vehicle"; "package"; "alert"].

(** The keyword of highest priority that a source contains, case aside. *)
Definition keywordIn (kws : list string) (source : string) : option string :=
  find (fun k => includes (lower source) k) kws.

Definition fallbackType (sources : list (option string)) : string :=
  match sources with
  | Some s :: _ => lower s
  | _ => "unknown"
  end.

(** Event type as the specification words it: the keyword of highest
    priority appearing in any condition, else the first source, else
    ["unknown"]. *)
Definition claimedEventType (kws : list string) (sources : list (option string)) : string :=
  match find (fun k => existsb (fun src => match src with
                                          | Some s => includes (lower s) k
                                          | None => false
                                          end) sources) kws with
  | Some k => k
  | None => fallbackType sources
  end.

(** Event type with the conditions taken in document order: the first
    condition containing a keyword decides, by its keyword of highest
    priority. *)
Fixpoint firstKeyword (kws : list string) (sources : list (option string)) : option string :=
  match sources with
  | [] => None
  | src :: rest =>
    match src ≫= keywordIn kws with
    | Some k => Some k
    | None => firstKeyword kws rest
    end
  end.

Definition precedence (kws : list string) (sources : list (option string)) : string :=
  match firstKeyword kws sources with
  | Some k => k
  | None => fallbackType sources
  end.

(** A trigger of a face-recognition event: its [key] is exactly one of the
    two face keys. *)
Definition isFaceTrigger (t : val) : bool :=
  match getOpt t "key" with
  | VStr k => String.eqb k "face_known" || String.eqb k "face_unknown"
  | _ => false
  end.

(** The name of the person record: [group.name] when present, else
    [value], else [null]. *)
Definition personNameOf (t : val) : val :=
  let groupName := getOpt (getOpt t "group") "name" in
  if truthy groupName then groupName
  else let value := getOpt t "value" in if truthy value then value else VNull.

Definition personRecord (alarm t : val) : PersonInfo.t :=
  PersonInfo.mk (personNameOf t) (getOpt t "eventId")
    (getOpt alarm "eventLocalLink") (getOpt alarm "eventPath") (getOpt t "timestamp").

(** The fragment ["<source> (<type>)"] of a condition, each part
    defaulting to ["unknown"]. *)
Definition sourceTypeFragment (c : val) : string :=
  let cc := getOpt c "condition" in
  toString (or_else (getOpt cc "source") (VStr "unknown")) +:+ " ("
  +:+ toString (or_else (getOpt cc "type") (VStr "unknown")) +:+ ")".

(** The summary as the specification words it. *)
Definition claimedSummary (conds : list val) : option string :=
  match conds with
  | [] => None
  | _ => Some (join ", " (map sourceTypeFragment conds))
  end.

(** The summary with the bare ["unknown"] for an entry without a
    [condition] object. *)
Definition fragment (c : val) : string :=
  if truthy (getOpt c "condition") then sourceTypeFragment c else "unknown".

Definition summary (conds : list val) : option string :=
  match conds with
  | [] => None
  | _ => Some (join ", " (map fragment conds))
  end.

(** ** The supported payload shapes *)

(** A field that is either missing or an array of readable entries. *)
Definition optionalArray (entry : val -> bool) (v : val) : bool :=
  match v with
  | VUndef | VNull => true
  | VArr xs => forallb entry xs
  | _ => false
  end.

Definition isObject (v : val) : bool :=
  match v with VObj _ => true | _ => false end.

(** Shapes 2 and 3: an object with an [alarm] object, whose conditions and
    triggers are arrays of entries when present. *)
Definition alarmShape (p : val) : bool :=
  isObject p
  && isObject (getOpt p "alarm")
  && optionalArray wellFormedCondition (getOpt (getOpt p "alarm") "conditions")
  && optionalArray (fun t => negb (nullish t)) (getOpt (getOpt p "alarm") "triggers").

(** Shape 1: an object with a textual, non-empty [eventType]. *)
Definition flatShape (p : val) : bool :=
  isObject p
  && isText (getOpt p "eventType") && truthy (getOpt p "eventType").

(** A numeric timestamp that is the time value of some [Date]. *)
Definition timestampInRange (p : val) : bool :=
  match getOpt p "timestamp" with
  | VNum n => (Z.abs n <=? maxTime)%Z
  | _ => true
  end.

(** What the shape gives for the alarm object. *)
Record alarmFacts (p alarm : val) : Prop := {
  af_alarm : get p "alarm" = Ok alarm;
  af_timestamp : get p "timestamp" = Ok (getOpt p "timestamp");
  af_not_nullish : nullish alarm = false;
  af_conditions :
    nullish (getOpt alarm "conditions") = true
    \/ exists cs, getOpt alarm "conditions" = VArr cs
                  /\ Forall (fun c => wellFormedCondition c = true) cs;
  af_triggers :
    nullish (getOpt alarm "triggers") = true
    \/ exists ts, getOpt alarm "triggers" = VArr ts
                  /\ Forall (fun t => nullish t = false) ts
}.

(** The text of the Event Type field of a message. *)
Definition hasEventType (m : Message.t) (eventType : val) : Prop :=
  exists e, Message.embeds m = [e]
            /\ In (Field.mk "Event Type" eventType true) (Embed.fields e).

(** ** Cookies and sessions *)

(** The text after the first occurrence of [marker]. *)
Definition afterFirst (marker s : string) : option string :=
  (fun i => drop_string (i + String.length marker) s) <$> indexOf marker s.

(** The text before the first occurrence of [sep], all of it without one. *)
Definition upTo (sep s : string) : string :=
  match indexOf sep s with
  | Some i => substring0 i s
  | None => s
  end.

(** The token as the specification words it: from the first ["TOKEN="] to
    the next [";"], or to the end. *)
Definition claimedToken (cookie : string) : option string :=
  upTo ";" <$> afterFirst "TOKEN=" cookie.

(** The token cut at the next [";"] or the next ["TOKEN="], whichever
    comes first. *)
Definition splitToken (cookie : string) : option string :=
  (fun rest => upTo ";" (upTo "TOKEN=" rest)) <$> afterFirst "TOKEN=" cookie.

(** The token cached in [cookies.txt]. *)
Definition cachedToken (w : world) : option string :=
  files w !! "cookies.txt" ≫= SingleEventProcessor.matchToken.

Definition probeRequest (E : env) (token : string) : request :=
  Get (SingleEventProcessor.probeUrl E) [("Cookie", "TOKEN=" +:+ token)].

Definition loginRequest (E : env) : request :=
  Post (SingleEventProcessor.loginUrl E) (LoginBody (PROTECT_USERNAME E) (PROTECT_PASSWORD E)).

Definition resolved (r : response) : bool :=
  match r with Resolved _ => true | Rejected _ => false end.

(** The cached session exists and the probe with it succeeds. *)
Definition sessionValid (E : env) (w : world) : bool :=
  match cachedToken w with
  | Some token => resolved (respond E (probeRequest E token))
  | None => false
  end.

Definition isLogin (rq : request) : bool :=
  match rq with Post _ (LoginBody _ _) => true | _ => false end.

(** The number of login calls among some calls. *)
Fixpoint loginCalls (rqs : list request) : nat :=
  match rqs with
  | [] => 0
  | rq :: rest => (if isLogin rq then 1 else 0) + loginCalls rest
  end.

(** The token a login reply carries, if any. *)
Definition replyToken (r : response) : option string :=
  match r with
  | Resolved reply =>
    match setCookie reply with
    | Some cookies =>
      match SingleEventProcessor.tokenFromCookies cookies with
      | Ok found => found
      | Throw _ => None
      end
    | None => None
    end
  | Rejected _ => None
  end.

(** The world after loading the session file and probing the token found. *)
Definition afterProbe (E : env) (w : world) : world :=
  match cachedToken w with
  | Some token => mkWorld (files w) (VStr token) (calls w ++ [probeRequest E token])
  | None => w
  end.

(** ** Dispatch *)

(** The thumbnail request of the service, when it is made. *)
Definition thumbnailRequest (E : env) (eventId : val) : list request :=
  match PROTECT_API_KEY E with
  | Some key =>
    if negb (String.eqb key "") && truthy eventId
    then [Get (DiscordSend.thumbnailUrl E eventId) [("X-API-KEY", key)]]
    else []
  | None => []
  end.

(** The fetch fails: no credentials, no event id, a rejected call (other
    status, timeout), a status that is not 200, or an empty reply. *)
Definition thumbnailFails (E : env) (eventId : val) : bool :=
  match thumbnailRequest E eventId with
  | [] => true
  | rq :: _ =>
    match respond E rq with
    | Resolved r => negb ((status r =? 200)%Z && bodyTruthy (data r))
    | Rejected _ => true
    end
  end.

(** The outcome of posting the message alone, as JSON. *)
Definition plainDelivery (E : env) (msg : Message.t) : result val :=
  match respond E (Post (webhookUrl E) (JsonMessage msg)) with
  | Resolved r => Ok (bodyValue (data r))
  | Rejected m => Throw (Error ("Discord webhook failed: Discord webhook failed: " +:+ m))
  end.

Definition isPost (rq : request) : bool :=
  match rq with Post _ _ => true | Get _ _ => false end.

End Spec.

Module Inputs.

(** The scenario of the specification, run through the latest version. *)
Definition scenario : val :=
  obj [("alarm", obj [("name", VStr "Front Door Motion");
                      ("conditions", VArr [obj [("condition", obj [("source", VStr "motion"); ("type", VStr "is")])]]);
                      ("triggers", VArr [obj [("device", VStr "74ACB99F4E24"); ("key", VStr "motion")]])]);
       ("timestamp", VNum 1722526793954)].



(** A body as the route receives it, with the shared secret in it. *)
Definition secretBody : gmap string val :=
  list_to_map [("secret", VStr "s3cr3t"); ("cameraName", VStr "Front Door");
               ("timestamp", VNum 1722526793954)].

(** Two conditions, the keyword of higher priority in the second one. *)
Definition personThenMotionConditions : list val :=
  [obj [("condition", obj [("source", VStr "Person"); ("type", VStr "is")])];
   obj [("condition", obj [("source", VStr "Motion"); ("type", VStr "is")])]].

Definition personThenMotion : val :=
  obj [("name", VStr "Driveway");
       ("conditions", VArr personThenMotionConditions);
       ("triggers", VArr [])].

(** The triggers of the specification's example of a known face. *)
Definition aliceTriggers : list val :=
  [obj [("device", VStr "74ACB99F4E24"); ("key", VStr "motion")];
   obj [("key", VStr "face_known"); ("group", obj [("name", VStr "Alice")]);
        ("eventId", VStr "abc123")];
   obj [("key", VStr "face_unknown"); ("value", VStr "stranger"); ("eventId", VStr "zzz")]].

Definition aliceAlarm : val :=
  obj [("name", VStr "Face"); ("conditions", VArr []); ("triggers", VArr aliceTriggers)].

(** Conditions with an entry that has no [condition] object. *)
Definition bareConditions : list val :=
  [obj [("condition", obj [("source", VStr "motion")])]; obj []].

Definition bareAlarm : val :=
  obj [("name", VStr "Bare"); ("conditions", VArr bareConditions); ("triggers", VArr [])].

(** A nested-alarm payload without timestamp. *)
Definition noTimestamp : val :=
  obj [("alarm", obj [("name", VStr "Front Door Motion");
                      ("conditions", VArr [obj [("condition", obj [("source", VStr "motion"); ("type", VStr "is")])]]);
                      ("triggers", VArr [obj [("device", VStr "74ACB99F4E24"); ("key", VStr "motion")]])])].

(** A nested-alarm payload whose numeric timestamp is one millisecond past
    the last time value. *)
Definition lateTimestamp : val :=
  obj [("alarm", obj [("name", VStr "Front Door Motion");
                      ("conditions", VArr [obj [("condition", obj [("source", VStr "motion"); ("type", VStr "is")])]]);
                      ("triggers", VArr [obj [("device", VStr "74ACB99F4E24"); ("key", VStr "motion")]])]);
       ("timestamp", VNum 8640000000000001)].

(** A flat payload. *)
Definition flatPayload : val :=
  obj [("eventType", VStr "motion"); ("cameraName", VStr "Front Door");
       ("timestamp", VStr "2025-01-15T10:30:00.000Z")].

(** A cookie whose value contains the marker again before the first [";"]. *)
Definition doubleMarker : string := "TOKEN=abcTOKEN=def; Path=/; Secure".

(** The replies of the platform and of Discord in a run of the
    command-line processor on event [e1]: the event is found; [thumbnail]
    and [discord] are the answers to the thumbnail and webhook calls. *)
Definition cliRespond (login thumbnail discord : response) (rq : request) : response :=
  match rq with
  | Get url _ =>
    if String.eqb url "https://192.168.1.80/proxy/protect/api/events/e1"
    then Resolved (mkReply 200 None
                     (Data (obj [("type", VStr "motion"); ("start", VNum 1722526793);
                                 ("camera", obj [("name", VStr "Front Door")])])))
    else if String.eqb url "https://192.168.1.80/proxy/protect/api/events/e1/thumbnail"
    then thumbnail
    else Rejected "Request failed with status code 401"
  | Post _ (LoginBody _ _) => login
  | Post _ _ => discord
  end.

Definition cliEnv (login thumbnail discord : response) : env :=
  mkEnv None None "admin" "hunter2" "https://discord.com/api/webhooks/1/x"
    1722526793954 "2024-08-01T15:39:53.954Z" (fun _ => "8/1/2024, 3:39:53 PM")
    (cliRespond login thumbnail discord).

Definition noLogin : response := Rejected "Request failed with status code 401".

(** The thumbnail is missing upstream. *)
Definition thumbnailMissing : env :=
  cliEnv noLogin (Rejected "Request failed with status code 404")
    (Resolved (mkReply 204 None (Data (VStr "")))).

(** The thumbnail is served, and Discord refuses the upload. *)
Definition uploadRefused : env :=
  cliEnv noLogin (Resolved (mkReply 200 None (Binary "JFIF")))
    (Rejected "Request failed with status code 500").

(** The thumbnail is served, and Discord accepts the upload. *)
Definition uploadAccepted : env :=
  cliEnv noLogin (Resolved (mkReply 200 None (Binary "JFIF")))
    (Resolved (mkReply 204 None (Data (VStr "")))).

(** The processor after [ensureAuthenticated], in an empty directory
    apart from the session file. *)
Definition authenticated : world :=
  mkWorld {[ "cookies.txt" := "192.168.1.80" +:+ SingleEventProcessor.tab +:+ "TOKEN"
                                +:+ SingleEventProcessor.tab +:+ "tok123" ]}
    (VStr "tok123") [].

(** A stale session on file, and a login reply that sets no token cookie. *)
Definition loginWithoutToken : env :=
  cliEnv (Resolved (mkReply 200 (Some ["Path=/; HttpOnly"]) (Data (obj []))))
    (Rejected "Request failed with status code 404")
    (Resolved (mkReply 204 None (Data (VStr "")))).

(** A login reply with the session cookie. *)
Definition loginWithToken : env :=
  cliEnv (Resolved (mkReply 200 (Some ["Path=/"; "TOKEN=fresh456; Path=/; Secure"]) (Data (obj []))))
    (Rejected "Request failed with status code 404")
    (Resolved (mkReply 204 None (Data (VStr "")))).

(** The platform accepts the probe of the cached session. *)
Definition probeAccepted : env :=
  mkEnv None None "admin" "hunter2" "https://discord.com/api/webhooks/1/x"
    1722526793954 "2024-08-01T15:39:53.954Z" (fun _ => "8/1/2024, 3:39:53 PM")
    (fun rq => match rq with
               | Get _ _ => Resolved (mkReply 200 None (Data (obj [])))
               | Post _ _ => noLogin
               end).

(** A first run: no session file, no token yet. *)
Definition firstRun : world := mkWorld ∅ VNull [].

(** The webhook service with an API key, a platform that has no
    thumbnail for the event, and a Discord that accepts the message. *)
Definition thumbnailNotFound : env :=
  mkEnv (Some "192.168.1.80") (Some "api-key") "" "" "https://discord.com/api/webhooks/1/x"
    1722526793954 "2024-08-01T15:39:53.954Z" (fun _ => "")
    (fun rq => match rq with
               | Get _ _ => Rejected "Request failed with status code 404"
               | Post _ _ => Resolved (mkReply 200 None (Data (obj [("id", VStr "1400")])))
               end).

(** The event of the known face, as a webhook body. *)
Definition aliceEvent : val :=
  obj [("alarm", aliceAlarm); ("timestamp", VNum 1722526793954)].

Definition idle : world := mkWorld ∅ VNull [].

End Inputs.

Import Inputs.

(* ===================================================================== *)
(** * Notions and inputs for the further properties *)
(* ===================================================================== *)

Module More.
Import Spec.

(** The fragments one trigger contributes to the device information. *)
Definition triggerFragments (t : val) : list string :=
  ((if truthy (getOpt t "device") then ["Device: " +:+ toString (getOpt t "device")] else [])
   ++ (if truthy (getOpt t "key") then ["Trigger: " +:+ toString (getOpt t "key")] else []))%list.

Definition namesDevice (t : val) : bool :=
  truthy (getOpt t "device") || truthy (getOpt t "key").

(** The event id of the first trigger that has one. *)
Definition firstIdOf (ts : list val) : val :=
  match find (fun t => truthy (getOpt t "eventId")) ts with
  | Some t => getOpt t "eventId"
  | None => VNull
  end.

(** The keys with an entry of their own in the table of the latest
    [getEventConfig]. *)
Definition isMapped (key : string) : bool :=
  existsb (String.eqb key) keywords.

Definition isInherited (key : string) : bool :=
  String.eqb key "constructor" || String.eqb key "__proto__".

(** What the nested validator accepts. *)
Definition secretAccepted (secret : option string) (body : val) : bool :=
  match secret with
  | Some s =>
    String.eqb s ""
    || match getOpt body "secret" with VStr s' => String.eqb s' s | _ => false end
  | None => true
  end.

Definition objectLike (v : val) : bool :=
  match v with VObj _ | VArr _ => true | _ => false end.

Definition validBody (secret : option string) (body : val) : bool :=
  isObject body
  && objectLike (getOpt body "alarm")
  && truthy (getOpt (getOpt body "alarm") "name")
  && isArray (getOpt (getOpt body "alarm") "conditions")
  && isArray (getOpt (getOpt body "alarm") "triggers")
  && truthy (getOpt body "timestamp")
  && secretAccepted secret body.

(** The calls that are posts. *)
Fixpoint postCalls (rqs : list request) : nat :=
  match rqs with
  | [] => 0
  | rq :: rest => (if isPost rq then 1 else 0) + postCalls rest
  end.

(** A token as the session file can hold it: not empty, without tab or
    newline. *)
Fixpoint fieldText (s : string) : bool :=
  match s with
  | EmptyString => true
  | String c s' => SingleEventProcessor.fieldChar c && fieldText s'
  end.

(** The thumbnail file of the command-line processor. *)
Definition thumbnailFile (eventId : string) : string :=
  "thumbnail-" +:+ eventId +:+ ".jpg".

End More.

Module MoreInputs.

(** Triggers with devices, keys and event ids. *)
Definition mixedTriggers : list val :=
  [obj [("device", VStr "74ACB99F4E24"); ("key", VStr "motion")];
   obj [("key", VStr "person"); ("eventId", VStr "evt-1")];
   obj [("key", VStr "face_known"); ("group", obj [("name", VStr "Alice")]);
        ("eventId", VStr "evt-2")]].

Definition mixedAlarm : val :=
  obj [("name", VStr "Porch"); ("conditions", VArr []); ("triggers", VArr mixedTriggers)].

(** A body the nested validator accepts, with the shared secret. *)
Definition signedBody : val :=
  obj [("alarm", mixedAlarm); ("timestamp", VNum 1722526793954); ("secret", VStr "s3cr3t")].

(** A flat body with an over-long camera name. *)
Definition longCamera : gmap string val :=
  list_to_map [("eventType", VStr "Motion");
               ("cameraName", VStr (String.concat "" (repeat "Front Door " 20)));
               ("timestamp", VStr "2025-01-15T10:30:00.000Z")].

End MoreInputs.

Module Sanitized.

(** What [sanitizeData] makes of the value of a truncated field. *)
Definition truncated (n : nat) (v : val) : val :=
  if truthy v then VStr (substring0 n (toString v)) else v.

(** The field [k] of the sanitized copy of [data]. *)
Definition field (data : gmap string val) (k : string) : option val :=
  if String.eqb k "secret" || String.eqb k "password" || String.eqb k "token" then None
  else if String.eqb k "cameraName" then truncated 100 <$> data !! k
  else if String.eqb k "description" then truncated 2000 <$> data !! k
  else data !! k.

End Sanitized.

Module Delivery.

(** The JSON post of a message to the webhook. *)
Definition jsonPost (E : env) (msg : Message.t) : request :=
  Post (webhookUrl E) (JsonMessage msg).

(** The outcome of [sendMessage]: the reply's data, or the error it
    throws for a rejected post. *)
Definition jsonDelivery (E : env) (msg : Message.t) : result val :=
  match respond E (jsonPost E msg) with
  | Resolved r => Ok (bodyValue (data r))
  | Rejected m => Throw (Error ("Discord webhook failed: " +:+ m))
  end.

(** The world after some more calls. *)
Definition called (w : world) (rqs : list request) : world :=
  mkWorld (files w) (sessionToken w) (calls w ++ rqs).

(** A Discord that accepts every post and a platform that is not asked. *)
Definition accepting : env :=
  mkEnv None None "" "" "https://discord.com/api/webhooks/1/x"
    1722526793954 "2024-08-01T15:39:53.954Z" (fun _ => "")
    (fun rq => match rq with
               | Get _ _ => Rejected "unused"
               | Post _ _ => Resolved (mkReply 200 None (Data (obj [("id", VStr "1400")])))
               end).

(** A body whose [triggers] is a text. *)
Definition textTriggers : val :=
  obj [("alarm", obj [("name", VStr "Porch"); ("conditions", VArr []);
                      ("triggers", VStr "74ACB99F4E24")]);
       ("timestamp", VNum 1722526793954)].

End Delivery.

Module ThumbnailInputs.
Import Delivery.

(** The webhook service with an API key, a platform that serves the
    animated thumbnail, and a Discord that accepts the upload. *)
Definition thumbnailServed : env :=
  mkEnv (Some "192.168.1.80") (Some "api-key") "" "" "https://discord.com/api/webhooks/1/x"
    1722526793954 "2024-08-01T15:39:53.954Z" (fun _ => "")
    (fun rq => match rq with
               | Get _ _ => Resolved (mkReply 200 None (Binary "GIF89a"))
               | Post _ _ => Resolved (mkReply 200 None (Data (obj [("id", VStr "1401")])))
               end).

(** The event of the known face with a timestamp past the last time value. *)
Definition aliceLate : val :=
  obj [("alarm", Inputs.aliceAlarm); ("timestamp", VNum 8640000000000001)].

End ThumbnailInputs.

Module SessionFile.

(** A text without the letter T. *)
Fixpoint withoutT (s : string) : bool :=
  match s with
  | EmptyString => true
  | String c s' => negb (Ascii.eqb c "T") && withoutT s'
  end.

(** A world holding the session file written for [token]. *)
Definition saved (E : env) (token : string) (w : world) : world :=
  mkWorld (<["cookies.txt" := SingleEventProcessor.cookieLine E (VStr token)]> (files w))
    (VStr token) (calls w ++ [Spec.loginRequest E]).

End SessionFile.

Module SessionInputs.

(** A platform that sets the session cookie at login and accepts the
    probe of a session. *)
Definition reusable : env :=
  mkEnv None None "admin" "hunter2" "https://discord.com/api/webhooks/1/x"
    1722526793954 "2024-08-01T15:39:53.954Z" (fun _ => "8/1/2024, 3:39:53 PM")
    (fun rq => match rq with
               | Get _ _ => Resolved (mkReply 200 None (Data (obj [])))
               | Post _ _ =>
                 Resolved (mkReply 200 (Some ["TOKEN=fresh456; Path=/; Secure"]) (Data (obj [])))
               end).

(** A later run: a new processor in the directory a first run left. *)
Definition laterRun : world :=
  mkWorld (files (snd (SingleEventProcessor.authenticate reusable Inputs.firstRun))) VNull [].

End SessionInputs.

Module Processor.
Import SingleEventProcessor.

(** The three calls of [processEvent]. *)
Definition eventRequest (E : env) (eventId : string) (token : val) : request :=
  Get (eventUrl E eventId)
    [("accept", "application/json"); ("user-agent", userAgent);
     ("Cookie", "TOKEN=" +:+ toString token)].

Definition downloadRequest (E : env) (eventId : string) (token : val) : request :=
  Get (eventUrl E eventId +:+ "/thumbnail")
    [("accept", downloadAccept); ("accept-language", "en-US,en;q=0.9");
     ("cache-control", "no-cache"); ("pragma", "no-cache");
     ("user-agent", userAgent);
     ("Cookie", "TOKEN=" +:+ toString token)].

Definition uploadRequest (E : env) (fileName : string) (file content : option string) : request :=
  Post (webhookUrl E) (FormFile fileName file content).

(** What [getEventInfo] makes of the answer to the event request. *)
Definition eventOf (r : response) : val :=
  match r with
  | Resolved r =>
    if (status r =? 200)%Z && bodyTruthy (data r) then bodyValue (data r) else VNull
  | Rejected _ => VNull
  end.

(** The bytes [downloadThumbnail] writes for the answer to the thumbnail
    request. *)
Definition served (r : response) : option string :=
  match r with
  | Resolved r => if (status r =? 200)%Z then Some (bodyBytes (data r)) else None
  | Rejected _ => None
  end.

(** The answers [uploadToDiscord] takes for a success. *)
Definition accepted (r : response) : bool :=
  match r with
  | Resolved r => (status r =? 204)%Z || (status r =? 200)%Z
  | Rejected _ => false
  end.

End Processor.

Module Uploader.
Import UniFiDiscordUploader.

Definition eventsRequest (E : env) (token : val) : request :=
  Get (eventsUrl E)
    [("accept", "application/json");
     ("user-agent", SingleEventProcessor.userAgent);
     ("Cookie", "TOKEN=" +:+ toString token)].

(** An event with a camera and one of the listed types. *)
Definition listed (eventType : val) : bool :=
  match eventType with
  | VStr t => existsb (String.eqb t) thumbnailEventTypes
  | _ => false
  end.

Definition kept (event : val) : bool :=
  negb (nullish event) && truthy (getOpt event "camera") && listed (getOpt event "type").

(** The events a reply lists: the body itself when it is an array, its
    [data] otherwise. *)
Definition listedEvents (r : response) : list val :=
  match r with
  | Resolved r =>
    if (status r =? 200)%Z && bodyTruthy (data r) then
      let body := bodyValue (data r) in
      elements (if isArray body then body else getOpt body "data")
    else []
  | Rejected _ => []
  end.

(** What [getEvents] returns for a reply: the listed events that are
    kept, and none when an entry of the list is null. *)
Definition keptEvents (r : response) : list val :=
  let events := listedEvents r in
  if existsb nullish events then [] else List.filter kept events.

End Uploader.

Module UploaderInputs.

(** A platform with a session that lists three events, one without a
    camera and one of a type without thumbnail, and serves thumbnails. *)
Definition events : list val :=
  [obj [("id", VStr "e1"); ("type", VStr "motion"); ("start", VNum 1722526793);
        ("camera", VStr "cam1")];
   obj [("id", VStr "e2"); ("type", VStr "motion"); ("start", VNum 1722526794)];
   obj [("id", VStr "e3"); ("type", VStr "ring"); ("start", VNum 1722526795);
        ("camera", VStr "cam1")]].

Definition listing : env :=
  mkEnv None None "admin" "hunter2" "https://discord.com/api/webhooks/1/x"
    1722526793954 "2024-08-01T15:39:53.954Z" (fun _ => "8/1/2024, 3:39:53 PM")
    (fun rq => match rq with
               | Get url _ =>
                 if String.prefix "https://192.168.1.80/proxy/protect/api/events?" url
                 then Resolved (mkReply 200 None (Data (obj [("data", VArr events)])))
                 else Resolved (mkReply 200 None (Binary "JFIF"))
               | Post _ _ => Resolved (mkReply 204 None (Data (VStr "")))
               end).

(** The same platform listing a null entry among the events. *)
Definition listingNull : env :=
  mkEnv None None "admin" "hunter2" "https://discord.com/api/webhooks/1/x"
    1722526793954 "2024-08-01T15:39:53.954Z" (fun _ => "8/1/2024, 3:39:53 PM")
    (fun rq => match rq with
               | Get _ _ => Resolved (mkReply 200 None (Data (VArr (events ++ [VNull])%list)))
               | Post _ _ => Resolved (mkReply 204 None (Data (VStr "")))
               end).

End UploaderInputs.

Module FlatInputs.

(** A flat body the flat validator accepts. *)
Definition doorbell : val :=
  obj [("eventType", VStr "Motion"); ("cameraName", VStr "Front Door");
       ("timestamp", VStr "2025-01-15T10:30:00.000Z"); ("secret", VStr "s3cr3t")].

(** A flat body whose event type is a number. *)
Definition numberedType : val :=
  obj [("eventType", VNum 7); ("timestamp", VStr "2025-01-15T10:30:00.000Z")].

End FlatInputs.

(* ===================================================================== *)
(** * Sanity checks of the built-ins *)
(* ===================================================================== *)

Example toISOString_epoch : toISOString 0 = Ok "1970-01-01T00:00:00.000Z".
Proof. vm_compute. reflexivity. Qed.

Example toISOString_scenario : toISOString 1722526793954 = Ok "2024-08-01T15:39:53.954Z".
Proof. vm_compute. reflexivity. Qed.

Example toISOString_before_epoch : toISOString (-1) = Ok "1969-12-31T23:59:59.999Z".
Proof. vm_compute. reflexivity. Qed.

Example toISOString_last : toISOString 8640000000000000 = Ok "+275760-09-13T00:00:00.000Z".
Proof. vm_compute. reflexivity. Qed.

Example toISOString_past_last : toISOString 8640000000000001 = Throw RangeError.
Proof. vm_compute. reflexivity. Qed.

Example split_cookie : split "TOKEN=" "a=1; TOKEN=xyz; Path=/" = ["a=1; "; "xyz; Path=/"].
Proof. vm_compute. reflexivity. Qed.

Example split_semicolon : split ";" "xyz; Path=/; Secure" = ["xyz"; " Path=/"; " Secure"].
Proof. vm_compute. reflexivity. Qed.

Example toString_array : toString (VArr [VStr "a"; VNull; VNum 12]) = "a,,12".
Proof. vm_compute. reflexivity. Qed.

Example scenario_message :
  DiscordThumb.transformToDiscordFormat "unused" scenario
  = Ok (Message.mk "🚨 **Motion Detected**"
          [Embed.mk "Unifi Protect Alert" (VStr "Front Door Motion") (VNum 15158332)
             (VStr "2024-08-01T15:39:53.954Z")
             [Field.mk "Event Type" (VStr "motion") true;
              Field.mk "Device" (VStr "Device: 74ACB99F4E24 | Trigger: motion") true;
              Field.mk "Conditions" (VStr "motion (is)") false]]).
Proof. vm_compute. reflexivity. Qed.

(* ===================================================================== *)
(** * Basic facts about the built-ins *)
(* ===================================================================== *)

Ltac unfold_result :=
  unfold mbind, result_bind, mret, result_ret, fmap, result_fmap in *.

Lemma bind_ok {A B} (m : result A) (f : A -> result B) (b : B) :
  (x ← m; f x) = Ok b -> exists a, m = Ok a /\ f a = Ok b.
Proof. destruct m as [a|e]; unfold_result; [eauto | discriminate]. Qed.

Lemma get_ok_of_not_nullish (v : val) (k : string) :
  nullish v = false -> get v k = Ok (getOpt v k).
Proof. destruct v; simpl; try discriminate; reflexivity. Qed.

Lemma get_ok_not_nullish (v x : val) (k : string) :
  get v k = Ok x -> nullish v = false /\ x = getOpt v k.
Proof. destruct v; simpl; try discriminate; intros [= <-]; auto. Qed.

Lemma truthy_not_nullish (v : val) : truthy v = true -> nullish v = false.
Proof. destruct v; simpl; auto; discriminate. Qed.

Lemma substring0_length (n : nat) (s : string) : String.length (substring0 n s) <= n.
Proof.
  unfold substring0. revert s.
  induction n as [|n IH]; intros [|c s]; simpl; try lia.
  specialize (IH s). lia.
Qed.

Lemma lower_empty (s : string) : lower s = "" -> s = "".
Proof. destruct s; simpl; [reflexivity | discriminate]. Qed.

(* ===================================================================== *)
(** * [sanitizeData] *)
(* ===================================================================== *)

Section Sanitize.
Import Validator.

Lemma truncateField_lookup_ne (k k' : string) (n : nat) (m : gmap string val) :
  k <> k' -> truncateField k n m !! k' = m !! k'.
Proof.
  intros Hne. unfold truncateField.
  destruct (truthy _); [apply lookup_insert_ne; exact Hne | reflexivity].
Qed.

Lemma truncateField_lookup_truthy (k : string) (n : nat) (m : gmap string val) (v : val) :
  m !! k = Some v -> truthy v = true ->
  truncateField k n m !! k = Some (VStr (substring0 n (toString v))).
Proof.
  intros Hk Hv. unfold truncateField. rewrite Hk. simpl. rewrite Hv.
  apply lookup_insert_eq.
Qed.

Lemma truncateField_falsy (k : string) (n : nat) (m : gmap string val) :
  truthy (default VUndef (m !! k)) = false -> truncateField k n m = m.
Proof. intros H. unfold truncateField. rewrite H. reflexivity. Qed.

Lemma sanitizeData_insert_secret (data : gmap string val) (s : val) :
  sanitizeData (<["secret" := s]> data) = sanitizeData data.
Proof. unfold sanitizeData. rewrite delete_insert_eq. reflexivity. Qed.



(** A falsy [cameraName] is left as it is. *)
Lemma sanitizeData_cameraName_falsy (data : gmap string val) :
  truthy (default VUndef (data !! "cameraName")) = false ->
  sanitizeData data !! "cameraName" = data !! "cameraName".
Proof.
  intros H. unfold sanitizeData.
  rewrite truncateField_lookup_ne by discriminate.
  rewrite truncateField_falsy.
  - rewrite !lookup_delete_ne by discriminate. reflexivity.
  - rewrite !lookup_delete_ne by discriminate. exact H.
Qed.

End Sanitize.

(* ===================================================================== *)
(** * Event-type extraction *)
(* ===================================================================== *)

Section EventType.
Import DiscordCommon Spec.

Variable keyword : string -> option string.
Variable kws : list string.
Hypothesis keyword_priority : forall s, keyword s = find (fun k => includes s k) kws.

Lemma wellFormed_get_condition (c : val) :
  wellFormedCondition c = true -> get c "condition" = Ok (getOpt c "condition").
Proof.
  unfold wellFormedCondition. intros [Hn _]%andb_prop.
  apply get_ok_of_not_nullish. destruct (nullish c); [discriminate | reflexivity].
Qed.

Lemma truthy_get (v : val) (k : string) :
  truthy v = true -> get v k = Ok (getOpt v k).
Proof. intros H. apply get_ok_of_not_nullish, truthy_not_nullish, H. Qed.

(** One condition entry: the text the loop lower-cases, if any. *)
Lemma conditionSource_cases (c : val) :
  wellFormedCondition c = true ->
  let cc := getOpt c "condition" in
  (truthy cc = true /\ exists s, getOpt cc "source" = VStr s /\ s <> ""
                                 /\ conditionSource c = Some s)
  \/ (truthy cc = true /\ truthy (getOpt cc "source") = false /\ conditionSource c = None)
  \/ (truthy cc = false /\ conditionSource c = None).
Proof.
  unfold wellFormedCondition, conditionSource. intros [_ H]%andb_prop. simpl in *.
  destruct (truthy (getOpt c "condition")) eqn:Hcc; [|auto].
  destruct (truthy (getOpt (getOpt c "condition") "source")) eqn:Hsrc.
  - left. split; [reflexivity|].
    destruct (getOpt (getOpt c "condition") "source") as [| | | |s| |]; simpl in *; try discriminate.
    exists s. destruct (String.eqb_spec s ""); [discriminate|]. auto.
  - right. left. split; [reflexivity|]. split; [reflexivity|].
    destruct (getOpt (getOpt c "condition") "source") as [| | | |s| |]; try reflexivity.
    simpl in Hsrc. destruct (String.eqb s ""); [reflexivity | discriminate].
Qed.

Lemma scanConditions_firstKeyword (cs : list val) :
  Forall (fun c => wellFormedCondition c = true) cs ->
  scanConditions keyword cs = Ok (firstKeyword kws (map conditionSource cs)).
Proof.
  induction 1 as [|c cs Hc _ IH]; [reflexivity|].
  simpl. rewrite (wellFormed_get_condition c Hc). unfold_result.
  destruct (conditionSource_cases c Hc) as [(Hcc & s & Hs & Hne & Hsrc) | [(Hcc & Hs & Hsrc) | (Hcc & Hsrc)]];
    rewrite Hcc, Hsrc.
  - rewrite (truthy_get _ "source" Hcc), Hs. simpl.
    destruct (String.eqb_spec s ""); [contradiction|]. simpl.
    unfold keywordIn. rewrite keyword_priority.
    destruct (find _ kws); [reflexivity | exact IH].
  - rewrite (truthy_get _ "source" Hcc), Hs. simpl. exact IH.
  - simpl. exact IH.
Qed.

Lemma firstConditionSource_fallback (cs : list val) :
  Forall (fun c => wellFormedCondition c = true) cs ->
  firstConditionSource cs = Ok (fallbackType (map conditionSource cs)).
Proof.
  intros Hwf. unfold firstConditionSource.
  destruct Hwf as [|c cs Hc _]; [reflexivity|]. simpl.
  destruct (truthy c) eqn:Hc'.
  - rewrite (wellFormed_get_condition c Hc). unfold_result.
    destruct (conditionSource_cases c Hc) as [(Hcc & s & Hs & Hne & Hsrc) | [(Hcc & Hs & Hsrc) | (Hcc & Hsrc)]];
      rewrite Hcc, Hsrc; try reflexivity.
    + rewrite (truthy_get _ "source" Hcc), Hs. simpl.
      destruct (String.eqb_spec s ""); [contradiction | reflexivity].
    + rewrite (truthy_get _ "source" Hcc), Hs. reflexivity.
  - replace (conditionSource c) with (@None string); [reflexivity|].
    unfold conditionSource.
    destruct c as [| |b|n|s| |]; try discriminate; reflexivity.
Qed.

(** The extraction of either version, on readable conditions. *)
Lemma extractEventTypeWith_precedence (alarm : val) (cs : list val) :
  get alarm "conditions" = Ok (VArr cs) ->
  Forall (fun c => wellFormedCondition c = true) cs ->
  extractEventTypeWith keyword alarm = Ok (precedence kws (map conditionSource cs)).
Proof.
  intros Hget Hwf. unfold extractEventTypeWith, precedence.
  rewrite Hget. unfold_result. simpl.
  rewrite (scanConditions_firstKeyword cs Hwf).
  destruct (firstKeyword kws _); [reflexivity|].
  apply firstConditionSource_fallback, Hwf.
Qed.

Lemma extractEventTypeWith_no_array (alarm conditions : val) :
  get alarm "conditions" = Ok conditions ->
  isArray conditions = false ->
  extractEventTypeWith keyword alarm = Ok "unknown".
Proof.
  intros Hget Harr. unfold extractEventTypeWith. rewrite Hget. unfold_result.
  rewrite Harr, orb_true_r. reflexivity.
Qed.

End EventType.

Section EventTypeVersions.
Import Spec.

Lemma sourceKeyword_priority (s : string) :
  DiscordThumb.sourceKeyword s = find (fun k => includes s k) keywords.
Proof. reflexivity. Qed.

Lemma sourceKeyword_alarm_priority (s : string) :
  DiscordAlarm.sourceKeyword s = find (fun k => includes s k) keywordsAlarm.
Proof. reflexivity. Qed.

(** The keyword found is one of the list, is contained in the source, and
    no keyword before it in the list is. *)
Lemma keywordIn_first (kws : list string) (source k : string) :
  keywordIn kws source = Some k ->
  exists before after, kws = (before ++ k :: after)%list
    /\ includes (lower source) k = true
    /\ Forall (fun k' => includes (lower source) k' = false) before.
Proof.
  unfold keywordIn. induction kws as [|k0 kws IH]; simpl; [discriminate|].
  destruct (includes (lower source) k0) eqn:Hk0.
  - intros [= <-]. exists [], kws. auto.
  - intros H. destruct (IH H) as (before & after & -> & Hin & Hall).
    exists (k0 :: before), after. auto.
Qed.

(** Document order: the conditions before the deciding one contain no keyword. *)
Lemma firstKeyword_document_order (kws : list string) (sources : list (option string)) (k : string) :
  firstKeyword kws sources = Some k ->
  exists before s after, sources = (before ++ Some s :: after)%list
    /\ keywordIn kws s = Some k
    /\ Forall (fun src => src ≫= keywordIn kws = None) before.
Proof.
  induction sources as [|src sources IH]; simpl; [discriminate|].
  destruct (src ≫= keywordIn kws) as [k'|] eqn:Hsrc.
  - intros [= <-]. destruct src as [s|]; [|discriminate].
    exists [], s, sources. auto.
  - intros H. destruct (IH H) as (before & s & after & -> & Hk & Hall).
    exists (src :: before), s, after. auto.
Qed.




(** The same precedence in [src/services/discord.js], over its five keywords. *)
Lemma extractEventType_alarm_precedence (alarm : val) (cs : list val) :
  get alarm "conditions" = Ok (VArr cs) ->
  Forall (fun c => wellFormedCondition c = true) cs ->
  DiscordAlarm.extractEventType alarm = Ok (precedence keywordsAlarm (map conditionSource cs)).
Proof.
  apply (extractEventTypeWith_precedence _ keywordsAlarm sourceKeyword_alarm_priority).
Qed.

(** The spec's example: "Motion Detected" gives "motion". *)
Example extractEventType_motion_detected :
  DiscordThumb.extractEventType
    (obj [("conditions", VArr [obj [("condition", obj [("source", VStr "Motion Detected")])]])])
  = Ok "motion".
Proof. vm_compute. reflexivity. Qed.

(** The event type is never the empty text. *)
Lemma precedence_nonempty (kws : list string) (sources : list (option string)) :
  Forall (fun k => k <> "") kws ->
  Forall (fun src => src <> Some "") sources ->
  precedence kws sources <> "".
Proof.
  intros Hkws Hsrc. unfold precedence.
  destruct (firstKeyword kws sources) as [k|] eqn:Hk.
  - destruct (firstKeyword_document_order _ _ _ Hk) as (_ & s & _ & _ & Hin & _).
    destruct (keywordIn_first _ _ _ Hin) as (before & after & -> & _).
    apply Forall_app in Hkws as [_ Hk']. inversion Hk'; assumption.
  - destruct sources as [|[s|] sources]; simpl; try discriminate.
    intros He%lower_empty. subst. inversion Hsrc; congruence.
Qed.

Lemma conditionSource_nonempty (cs : list val) :
  Forall (fun src => src <> Some "") (map conditionSource cs).
Proof.
  induction cs as [|c cs IH]; constructor; [|exact IH].
  unfold conditionSource. destruct (truthy _); [|discriminate].
  destruct (getOpt _ "source") as [| | | |s| |]; try discriminate.
  destruct (String.eqb_spec s ""); [discriminate | congruence].
Qed.

End EventTypeVersions.

(* ===================================================================== *)
(** * Person identity *)
(* ===================================================================== *)

Section Person.
Import Spec DiscordThumb.

Lemma isFaceKey_spec (t : val) : isFaceKey (getOpt t "key") = isFaceTrigger t.
Proof. reflexivity. Qed.

Lemma personName_spec (t : val) :
  nullish t = false -> personName t = Ok (personNameOf t).
Proof.
  intros Ht. unfold personName, personNameOf.
  rewrite (get_ok_of_not_nullish t "group" Ht). unfold_result.
  destruct (truthy (getOpt t "group")) eqn:Hg.
  - rewrite (get_ok_of_not_nullish _ "name" (truthy_not_nullish _ Hg)).
    destruct (truthy (getOpt (getOpt t "group") "name")); [reflexivity|].
    rewrite (get_ok_of_not_nullish t "value" Ht). reflexivity.
  - assert (Hn : truthy (getOpt (getOpt t "group") "name") = false).
    { destruct (getOpt t "group") as [| |b|n|s| |]; try discriminate; reflexivity. }
    rewrite Hn, Hg. rewrite (get_ok_of_not_nullish t "value" Ht). reflexivity.
Qed.

Lemma scanTriggers_find (alarm : val) (ts : list val) :
  nullish alarm = false ->
  Forall (fun t => nullish t = false) ts ->
  scanTriggers alarm ts = Ok (personRecord alarm <$> find isFaceTrigger ts).
Proof.
  intros Ha. induction 1 as [|t ts Ht _ IH]; [reflexivity|].
  simpl. rewrite (get_ok_of_not_nullish t "key" Ht). unfold_result.
  rewrite isFaceKey_spec. destruct (isFaceTrigger t); [|exact IH].
  rewrite (get_ok_of_not_nullish t "eventId" Ht),
    (get_ok_of_not_nullish alarm "eventLocalLink" Ha),
    (get_ok_of_not_nullish alarm "eventPath" Ha),
    (get_ok_of_not_nullish t "timestamp" Ht), (personName_spec t Ht).
  reflexivity.
Qed.

Lemma extractPersonInfo_no_array (alarm triggers : val) :
  get alarm "triggers" = Ok triggers ->
  isArray triggers = false ->
  extractPersonInfo alarm = Ok None.
Proof.
  intros Hget Harr. unfold extractPersonInfo. rewrite Hget. unfold_result.
  rewrite Harr, orb_true_r. reflexivity.
Qed.

Lemma extractPersonInfo_array (alarm : val) (ts : list val) :
  get alarm "triggers" = Ok (VArr ts) ->
  Forall (fun t => nullish t = false) ts ->
  extractPersonInfo alarm = Ok (personRecord alarm <$> find isFaceTrigger ts).
Proof.
  intros Hget Hts. destruct (get_ok_not_nullish _ _ _ Hget) as [Ha _].
  unfold extractPersonInfo. rewrite Hget. unfold_result. simpl.
  apply (scanTriggers_find alarm ts Ha Hts).
Qed.



(** The spec's example: Alice, with the event id of her trigger. *)
Example extractPersonInfo_alice :
  extractPersonInfo aliceAlarm
  = Ok (Some (PersonInfo.mk (VStr "Alice") (VStr "abc123") VUndef VUndef VUndef)).
Proof. vm_compute. reflexivity. Qed.

End Person.

(* ===================================================================== *)
(** * Conditions summary *)
(* ===================================================================== *)

Section Summary.
Import Spec DiscordCommon.

Lemma conditionFragment_spec (c : val) :
  nullish c = false -> conditionFragment c = Ok (fragment c).
Proof.
  intros Hc. unfold conditionFragment, fragment, sourceTypeFragment.
  rewrite (get_ok_of_not_nullish c "condition" Hc). unfold_result.
  destruct (truthy (getOpt c "condition")) eqn:Hcc; [|reflexivity].
  pose proof (truthy_not_nullish _ Hcc) as Hn.
  rewrite (get_ok_of_not_nullish _ "source" Hn), (get_ok_of_not_nullish _ "type" Hn).
  reflexivity.
Qed.

Lemma mapFragments_spec (conds : list val) :
  Forall (fun c => nullish c = false) conds ->
  mapFragments conds = Ok (map fragment conds).
Proof.
  induction 1 as [|c conds Hc _ IH]; [reflexivity|].
  simpl. rewrite (conditionFragment_spec c Hc), IH. reflexivity.
Qed.

Lemma conditionsSummary_falsy (alarm conditions : val) :
  get alarm "conditions" = Ok conditions ->
  truthy conditions = false ->
  conditionsSummary alarm = Ok None.
Proof.
  intros Hget Hc. unfold conditionsSummary. rewrite Hget. unfold_result.
  rewrite Hc. reflexivity.
Qed.

Lemma conditionsSummary_array (alarm : val) (conds : list val) :
  get alarm "conditions" = Ok (VArr conds) ->
  Forall (fun c => nullish c = false) conds ->
  conditionsSummary alarm = Ok (summary conds).
Proof.
  intros Hget Hconds. unfold conditionsSummary. rewrite Hget. unfold_result. simpl.
  destruct conds as [|c conds]; [reflexivity|].
  replace (0 <? Z.of_nat (length (c :: conds)))%Z with true
    by (symmetry; apply Z.ltb_lt; simpl; lia).
  rewrite (mapFragments_spec _ Hconds). reflexivity.
Qed.




(** When every entry has its [condition] object, the wording holds. *)
Lemma summary_claimed (conds : list val) :
  Forall (fun c => truthy (getOpt c "condition") = true) conds ->
  summary conds = claimedSummary conds.
Proof.
  intros H. unfold summary, claimedSummary. destruct conds as [|c conds]; [reflexivity|].
  f_equal. f_equal. apply map_ext_in. intros x Hx.
  rewrite Forall_forall in H. unfold fragment.
  rewrite H; [reflexivity | exact Hx].
Qed.

End Summary.

(* ===================================================================== *)
(** * The message does not depend on the clock *)
(* ===================================================================== *)

Section Clock.
Import DiscordCommon.

Lemma formatTimestamp_clock (now1 now2 : string) (timestamp : val) :
  isNumber timestamp || truthy timestamp = true ->
  formatTimestamp now1 timestamp = formatTimestamp now2 timestamp.
Proof.
  unfold formatTimestamp, or_else.
  destruct timestamp; simpl; intros H; try discriminate; try reflexivity;
    rewrite H; reflexivity.
Qed.




(** The flat version has no test for numbers: there the timestamp must be truthy. *)
Lemma transformToDiscordFormat_flat_clock (now1 now2 : string) (eventData timestamp : val) :
  get eventData "timestamp" = Ok timestamp ->
  truthy timestamp = true ->
  DiscordFlat.transformToDiscordFormat now1 eventData
  = DiscordFlat.transformToDiscordFormat now2 eventData.
Proof.
  intros Hget Hts. unfold DiscordFlat.transformToDiscordFormat.
  rewrite Hget. unfold_result. unfold or_else. rewrite Hts. reflexivity.
Qed.

End Clock.

(* ===================================================================== *)
(** * Normalization of the supported shapes *)
(* ===================================================================== *)

Section Totality.
Import Spec DiscordCommon.

Lemma toISOString_in_range (n : Z) :
  (Z.abs n <=? maxTime)%Z = true -> exists s, toISOString n = Ok s.
Proof.
  intros H. unfold toISOString. rewrite H.
  destruct (civil (n / msPerDay)) as [[y m] d]. eauto.
Qed.

Lemma toISOString_out_of_range (n : Z) :
  (Z.abs n <=? maxTime)%Z = false -> toISOString n = Throw RangeError.
Proof. intros H. unfold toISOString. rewrite H. reflexivity. Qed.

Lemma formatTimestamp_in_range (now : string) (p : val) :
  timestampInRange p = true ->
  exists ts, formatTimestamp now (getOpt p "timestamp") = Ok ts.
Proof.
  unfold timestampInRange, formatTimestamp.
  destruct (getOpt p "timestamp") as [| |b|n|s|xs|m]; intros H; eauto.
  destruct (toISOString_in_range n H) as [s Hs]. rewrite Hs. unfold_result. eauto.
Qed.

Lemma deviceFragments_total (ts : list val) :
  Forall (fun t => nullish t = false) ts -> exists fs, deviceFragments ts = Ok fs.
Proof.
  induction 1 as [|t ts Ht _ [fs IH]]; [eexists; reflexivity|].
  simpl. rewrite !(get_ok_of_not_nullish t _ Ht), IH. unfold_result. eauto.
Qed.

Lemma optionalArray_cases (entry : val -> bool) (v : val) :
  optionalArray entry v = true ->
  nullish v = true \/ exists xs, v = VArr xs /\ Forall (fun x => entry x = true) xs.
Proof.
  destruct v; simpl; try discriminate; auto.
  intros H. right. eexists. split; [reflexivity|].
  apply Forall_forall. intros x Hx. rewrite forallb_forall in H. apply H, Hx.
Qed.

Lemma nullish_not_truthy (v : val) : nullish v = true -> truthy v = false.
Proof. destruct v; simpl; auto; discriminate. Qed.

Lemma wellFormed_not_nullish (cs : list val) :
  Forall (fun c => wellFormedCondition c = true) cs ->
  Forall (fun c => nullish c = false) cs.
Proof.
  apply Forall_impl. intros c [H _]%andb_prop.
  destruct (nullish c); [discriminate | reflexivity].
Qed.

Lemma negb_nullish (ts : list val) :
  Forall (fun t => negb (nullish t) = true) ts -> Forall (fun t => nullish t = false) ts.
Proof. apply Forall_impl. intros t H. destruct (nullish t); [discriminate | reflexivity]. Qed.

Lemma alarmShape_facts (p : val) :
  alarmShape p = true -> alarmFacts p (getOpt p "alarm").
Proof.
  unfold alarmShape. intros [[[Hp Ha]%andb_prop Hc]%andb_prop Ht]%andb_prop.
  assert (Hpn : nullish p = false) by (destruct p; try discriminate; reflexivity).
  assert (Han : nullish (getOpt p "alarm") = false)
    by (destruct (getOpt p "alarm"); try discriminate; reflexivity).
  constructor; auto using get_ok_of_not_nullish.
  - apply optionalArray_cases in Hc. exact Hc.
  - apply optionalArray_cases in Ht. destruct Ht as [Ht | (ts & Hts & Hall)]; [auto|].
    right. exists ts. split; [exact Hts | apply negb_nullish, Hall].
Qed.

Section WithAlarm.
Variables p alarm : val.
Hypothesis facts : alarmFacts p alarm.

Lemma shape_extractEventType (keyword : string -> option string) (kws : list string) :
  (forall s, keyword s = find (fun k => includes s k) kws) ->
  Forall (fun k => k <> "") kws ->
  exists ty, extractEventTypeWith keyword alarm = Ok ty /\ ty <> "".
Proof.
  intros Hkw Hne. pose proof (af_not_nullish _ _ facts) as Ha.
  destruct (af_conditions _ _ facts) as [Hc | (cs & Hcs & Hwf)].
  - exists "unknown". split; [|discriminate].
    apply (extractEventTypeWith_no_array keyword alarm (getOpt alarm "conditions")).
    + apply get_ok_of_not_nullish, Ha.
    + destruct (getOpt alarm "conditions"); try discriminate; reflexivity.
  - eexists. split.
    + apply (extractEventTypeWith_precedence keyword kws Hkw alarm cs); [|exact Hwf].
      rewrite <- Hcs. apply get_ok_of_not_nullish, Ha.
    + apply precedence_nonempty; [exact Hne | apply conditionSource_nonempty].
Qed.

Lemma shape_extractDeviceInfo : exists d, extractDeviceInfo alarm = Ok d.
Proof.
  pose proof (af_not_nullish _ _ facts) as Ha. unfold extractDeviceInfo.
  rewrite (get_ok_of_not_nullish alarm "triggers" Ha). unfold_result.
  destruct (af_triggers _ _ facts) as [Ht | (ts & Hts & Hall)].
  - rewrite (nullish_not_truthy _ Ht). simpl. eauto.
  - rewrite Hts. simpl. destruct (deviceFragments_total ts Hall) as [fs ->]. eauto.
Qed.

Lemma shape_extractPersonInfo : exists i, DiscordThumb.extractPersonInfo alarm = Ok i.
Proof.
  pose proof (af_not_nullish _ _ facts) as Ha.
  pose proof (get_ok_of_not_nullish alarm "triggers" Ha) as Hget.
  destruct (af_triggers _ _ facts) as [Ht | (ts & Hts & Hall)].
  - exists None. apply (extractPersonInfo_no_array alarm _ Hget).
    destruct (getOpt alarm "triggers"); try discriminate; reflexivity.
  - rewrite Hts in Hget. eexists. apply (extractPersonInfo_array alarm ts Hget Hall).
Qed.

Lemma shape_conditionsField : exists fs, conditionsField alarm = Ok fs.
Proof.
  pose proof (af_not_nullish _ _ facts) as Ha. unfold conditionsField.
  pose proof (get_ok_of_not_nullish alarm "conditions" Ha) as Hget.
  destruct (af_conditions _ _ facts) as [Hc | (cs & Hcs & Hwf)].
  - rewrite (conditionsSummary_falsy alarm _ Hget (nullish_not_truthy _ Hc)).
    unfold_result. eauto.
  - rewrite Hcs in Hget.
    rewrite (conditionsSummary_array alarm cs Hget (wellFormed_not_nullish cs Hwf)).
    unfold_result. eauto.
Qed.

End WithAlarm.

Lemma keywords_nonempty : Forall (fun k => k <> "") keywords.
Proof. repeat constructor; discriminate. Qed.

Lemma keywordsAlarm_nonempty : Forall (fun k => k <> "") keywordsAlarm.
Proof. repeat constructor; discriminate. Qed.

End Totality.

Section TotalityTheorem.
Import Spec DiscordCommon.

Lemma getEventConfig_text (s : string) :
  exists c, DiscordThumb.getEventConfig (VStr s) = Ok c.
Proof. unfold DiscordThumb.getEventConfig. simpl. unfold_result. eauto. Qed.

Lemma getEventConfig_alarm_text (s : string) :
  exists c, DiscordAlarm.getEventConfig (VStr s) = Ok c.
Proof. unfold DiscordAlarm.getEventConfig. simpl. unfold_result. eauto. Qed.

Lemma transform_thumb_total (now : string) (p : val) :
  alarmShape p = true -> timestampInRange p = true ->
  exists m ty, DiscordThumb.transformToDiscordFormat now p = Ok m
               /\ DiscordThumb.extractEventType (getOpt p "alarm") = Ok ty
               /\ ty <> "" /\ hasEventType m (VStr ty).
Proof.
  intros Hshape Hrange. pose proof (alarmShape_facts p Hshape) as facts.
  destruct (shape_extractEventType p _ facts _ _ sourceKeyword_priority keywords_nonempty)
    as (ty & Hty & Hne).
  destruct (shape_extractDeviceInfo p _ facts) as [d Hd].
  destruct (shape_extractPersonInfo p _ facts) as [i Hi].
  destruct (shape_conditionsField p _ facts) as [fs Hfs].
  destruct (formatTimestamp_in_range now p Hrange) as [ts Hts].
  destruct (getEventConfig_text ty) as [c Hc].
  unfold DiscordThumb.transformToDiscordFormat, DiscordThumb.extractEventType,
    DiscordThumb.extractDeviceInfo.
  rewrite (af_alarm _ _ facts), (af_timestamp _ _ facts). unfold_result.
  rewrite (get_ok_of_not_nullish _ "name" (af_not_nullish _ _ facts)).
  rewrite Hty, Hd, Hi, Hts, Hc, Hfs.
  eexists _, ty. repeat split; [exact Hne|].
  eexists. split; [reflexivity|]. left. reflexivity.
Qed.

Lemma transform_alarm_total (now : string) (p : val) :
  alarmShape p = true -> timestampInRange p = true ->
  exists m ty, DiscordAlarm.transformToDiscordFormat now p = Ok m
               /\ DiscordAlarm.extractEventType (getOpt p "alarm") = Ok ty
               /\ ty <> "" /\ hasEventType m (VStr ty).
Proof.
  intros Hshape Hrange. pose proof (alarmShape_facts p Hshape) as facts.
  destruct (shape_extractEventType p _ facts _ _ sourceKeyword_alarm_priority
              keywordsAlarm_nonempty) as (ty & Hty & Hne).
  destruct (shape_extractDeviceInfo p _ facts) as [d Hd].
  destruct (shape_conditionsField p _ facts) as [fs Hfs].
  destruct (formatTimestamp_in_range now p Hrange) as [ts Hts].
  destruct (getEventConfig_alarm_text ty) as [c Hc].
  unfold DiscordAlarm.transformToDiscordFormat, DiscordAlarm.extractEventType,
    DiscordAlarm.extractDeviceInfo.
  rewrite (af_alarm _ _ facts), (af_timestamp _ _ facts). unfold_result.
  rewrite (get_ok_of_not_nullish _ "name" (af_not_nullish _ _ facts)).
  rewrite Hty, Hd, Hts, Hc, Hfs.
  eexists _, ty. repeat split; [exact Hne|].
  eexists. split; [reflexivity|]. left. reflexivity.
Qed.

Lemma transform_flat_total (now : string) (p : val) :
  flatShape p = true ->
  exists m, DiscordFlat.transformToDiscordFormat now p = Ok m
            /\ hasEventType m (getOpt p "eventType")
            /\ truthy (getOpt p "eventType") = true.
Proof.
  unfold flatShape. intros [[Hp Htext]%andb_prop Hty]%andb_prop.
  assert (Hpn : nullish p = false) by (destruct p; try discriminate; reflexivity).
  unfold DiscordFlat.transformToDiscordFormat, DiscordFlat.getEventConfig.
  rewrite !(get_ok_of_not_nullish p _ Hpn). unfold_result.
  destruct (getOpt p "eventType") as [| | | |s| |] eqn:He; try discriminate.
  destruct (getEventConfig_alarm_text s) as [c Hc]. rewrite Hc.
  eexists. split; [reflexivity|]. split; [|exact Hty].
  eexists. split; [reflexivity|]. simpl.
  destruct (truthy (getOpt p "cameraName")); simpl; auto.
Qed.




(** Neither alarm version reads a flat payload, nor the flat version an
    alarm payload: each raises a TypeError on the other's shape. *)
Example transformToDiscordFormat_other_shape :
  DiscordThumb.transformToDiscordFormat "2025-01-15T10:30:00.000Z" flatPayload = Throw TypeError
  /\ DiscordAlarm.transformToDiscordFormat "2025-01-15T10:30:00.000Z" flatPayload = Throw TypeError
  /\ DiscordFlat.transformToDiscordFormat "2025-01-15T10:30:00.000Z" scenario = Throw TypeError.
Proof. vm_compute. repeat split. Qed.

End TotalityTheorem.

(* ===================================================================== *)
(** * The session token of a login reply *)
(* ===================================================================== *)

Section Cookies.
Import Spec SingleEventProcessor.

Lemma includes_true (s pat : string) :
  includes s pat = true <-> exists i, indexOf pat s = Some i.
Proof. unfold includes. rewrite bool_decide_eq_true. reflexivity. Qed.

Lemma includes_false (s pat : string) :
  includes s pat = false <-> indexOf pat s = None.
Proof.
  unfold includes. rewrite bool_decide_eq_false.
  destruct (indexOf pat s) as [i|]; split; intros H; try reflexivity.
  - exfalso. apply H. eauto.
  - discriminate.
  - intros [i Hi]. discriminate.
Qed.

Lemma split_fuel_S (n : nat) (sep s : string) :
  split_fuel (S n) sep s
  = match indexOf sep s with
    | None => [s]
    | Some i => substring0 i s :: split_fuel n sep (drop_string (i + String.length sep) s)
    end.
Proof. reflexivity. Qed.

(** The first piece of a split is the text up to the separator. *)
Lemma split_fuel_head (n : nat) (sep s : string) :
  exists tail, split_fuel (S n) sep s = upTo sep s :: tail.
Proof. rewrite split_fuel_S. unfold upTo. destruct (indexOf sep s); eauto. Qed.

Lemma tokenOfCookie_split (cookie rest : string) :
  afterFirst "TOKEN=" cookie = Some rest ->
  tokenOfCookie cookie = Ok (upTo ";" (upTo "TOKEN=" rest)).
Proof.
  unfold afterFirst. destruct (indexOf "TOKEN=" cookie) as [i|] eqn:Hi; [|discriminate].
  intros [= <-]. unfold tokenOfCookie, split.
  destruct cookie as [|c cookie]; [discriminate|].
  change (String.length (String c cookie)) with (S (String.length cookie)).
  rewrite split_fuel_S, Hi.
  destruct (split_fuel_head (String.length cookie) "TOKEN="
              (drop_string (i + String.length "TOKEN=") (String c cookie))) as [tail ->].
  destruct (split_fuel_head (String.length (upTo "TOKEN="
              (drop_string (i + String.length "TOKEN=") (String c cookie)))) ";"
              (upTo "TOKEN=" (drop_string (i + String.length "TOKEN=") (String c cookie))))
    as [tail' ->].
  reflexivity.
Qed.

Lemma afterFirst_includes (cookie : string) :
  includes cookie "TOKEN=" = true -> exists rest, afterFirst "TOKEN=" cookie = Some rest.
Proof.
  intros [i Hi]%includes_true. unfold afterFirst. rewrite Hi. simpl. eauto.
Qed.

Lemma afterFirst_not_included (cookie : string) :
  includes cookie "TOKEN=" = false -> afterFirst "TOKEN=" cookie = None.
Proof. intros Hi%includes_false. unfold afterFirst. rewrite Hi. reflexivity. Qed.

(** The loop never raises: it yields the token of the first cookie with
    the marker. *)
Lemma tokenFromCookies_find (cookies : list string) :
  tokenFromCookies cookies
  = Ok (find (fun c => includes c "TOKEN=") cookies ≫= splitToken).
Proof.
  induction cookies as [|c cookies IH]; [reflexivity|].
  simpl. destruct (includes c "TOKEN=") eqn:Hc; [|exact IH].
  destruct (afterFirst_includes c Hc) as [rest Hrest].
  rewrite (tokenOfCookie_split c rest Hrest). simpl.
  unfold splitToken. rewrite Hrest. reflexivity.
Qed.

Lemma find_first_marked (before : list string) (cookie : string) (after : list string) :
  Forall (fun c => includes c "TOKEN=" = false) before ->
  includes cookie "TOKEN=" = true ->
  find (fun c => includes c "TOKEN=") (before ++ cookie :: after)%list = Some cookie.
Proof.
  induction 1 as [|c before Hc _ IH]; intros Hcookie; simpl.
  - rewrite Hcookie. reflexivity.
  - rewrite Hc. apply IH, Hcookie.
Qed.

Lemma find_none_marked (cookies : list string) :
  Forall (fun c => includes c "TOKEN=" = false) cookies ->
  find (fun c => includes c "TOKEN=") cookies = None.
Proof. induction 1 as [|c cookies Hc _ IH]; simpl; [reflexivity|]. rewrite Hc. exact IH. Qed.

Lemma upTo_unfold (sep s : string) :
  upTo sep s = if String.prefix sep s then ""
               else match s with
                    | EmptyString => ""
                    | String c s' => String c (upTo sep s')
                    end.
Proof.
  unfold upTo. destruct s as [|c s]; cbn [indexOf].
  - destruct (String.prefix sep ""); reflexivity.
  - destruct (String.prefix sep (String c s)); [reflexivity|].
    destruct (indexOf sep s); reflexivity.
Qed.

Lemma indexOf_none_cons (pat : string) (c : ascii) (s : string) :
  indexOf pat (String c s) = None ->
  String.prefix pat (String c s) = false /\ indexOf pat s = None.
Proof.
  cbn [indexOf]. destruct (String.prefix pat (String c s)); [discriminate|].
  destruct (indexOf pat s); [discriminate | auto].
Qed.

Lemma prefix_char (c a : ascii) (x : string) :
  String.prefix (String c "") (String a x) = if ascii_dec c a then true else false.
Proof. simpl. destruct (ascii_dec c a); [destruct x|]; reflexivity. Qed.

(** A prefix without semicolon survives the cut at the first semicolon. *)
Lemma prefix_upTo (pat s : string) :
  includes pat ";" = false ->
  String.prefix pat s = true ->
  String.prefix pat (upTo ";" s) = true.
Proof.
  revert s. induction pat as [|a pat IH]; intros s Hpat Hpre;
    [destruct (upTo ";" s); reflexivity|].
  destruct s as [|c s]; [discriminate|].
  apply includes_false in Hpat. apply indexOf_none_cons in Hpat as [Ha Hpat].
  simpl in Hpre. destruct (ascii_dec a c) as [<-|]; [|discriminate].
  rewrite prefix_char in Ha.
  rewrite upTo_unfold, prefix_char. destruct (ascii_dec ";" a); [discriminate|].
  simpl. destruct (ascii_dec a a); [|contradiction].
  apply IH; [apply includes_false, Hpat | exact Hpre].
Qed.

Lemma upTo_marker_then_semicolon (marker rest : string) :
  includes marker ";" = false ->
  marker <> "" ->
  includes (upTo ";" rest) marker = false ->
  upTo ";" (upTo marker rest) = upTo ";" rest.
Proof.
  intros Hm Hne. induction rest as [|c rest IH]; intros Hfree.
  - rewrite (upTo_unfold marker ""). destruct marker; [contradiction | reflexivity].
  - rewrite (upTo_unfold ";" (String c rest)) in Hfree |- *.
    destruct (String.prefix ";" (String c rest)) eqn:Hsemi.
    + rewrite (upTo_unfold marker).
      destruct (String.prefix marker (String c rest)) eqn:Hmark; [reflexivity|].
      rewrite upTo_unfold. rewrite prefix_char in Hsemi |- *. rewrite Hsemi. reflexivity.
    + apply includes_false in Hfree. apply indexOf_none_cons in Hfree as [Hpre Hfree].
      rewrite (upTo_unfold marker).
      destruct (String.prefix marker (String c rest)) eqn:Hmark.
      * pose proof (prefix_upTo marker (String c rest) Hm Hmark) as H.
        rewrite (upTo_unfold ";" (String c rest)), Hsemi in H. congruence.
      * rewrite upTo_unfold. rewrite prefix_char in Hsemi |- *. rewrite Hsemi.
        f_equal. apply IH, includes_false, Hfree.
Qed.

(** [authenticate], step by step: the login call, the token kept in
    [this.sessionToken], and the file written when that token is truthy. *)
Lemma authenticate_run (E : env) (w : world) :
  authenticate E w
  = let token := match replyToken (respond E (loginRequest E)) with
                 | Some t => VStr t
                 | None => sessionToken w
                 end in
    let called := (calls w ++ [loginRequest E])%list in
    match respond E (loginRequest E) with
    | Rejected _ => (Ok false, mkWorld (files w) (sessionToken w) called)
    | Resolved _ =>
      if truthy token
      then (Ok true, mkWorld (<["cookies.txt" := cookieLine E token]> (files w)) token called)
      else (Ok false, mkWorld (files w) token called)
    end.
Proof.
  unfold authenticate, try_catch, mbind, io_bind, http, replyToken. fold (loginRequest E).
  destruct (respond E (loginRequest E)) as [r|m]; [|reflexivity].
  destruct (setCookie r) as [cookies|]; simpl.
  - unfold lift, mbind, io_bind. rewrite tokenFromCookies_find.
    destruct (find _ cookies ≫= splitToken) as [t|]; simpl.
    + unfold getSessionToken, setSessionToken. simpl.
      destruct (negb (String.eqb t "")); reflexivity.
    + unfold getSessionToken, mret, io_ret. simpl.
      destruct (truthy (sessionToken w)); reflexivity.
  - unfold getSessionToken, mret, io_ret. simpl.
    destruct (truthy (sessionToken w)); reflexivity.
Qed.

End Cookies.

Section CookieTheorem.
Import Spec SingleEventProcessor.

(** C5, as the code has it. The session token is taken from the first
    cookie containing "TOKEN=": it is the text after the first "TOKEN=" of
    that cookie, cut at the next ";" or at the next "TOKEN=", whichever
    comes first, or at the end of the cookie; it is the text up to the
    next ";" whenever that text has no further marker. When no cookie contains the
    marker the reply yields no token: [authenticate] of
    [download-thumbnail.mjs] returns null, and the processor's
    [authenticate], entered without a session token, returns false and
    writes nothing. *)
Theorem sessionToken_of_cookies :
  (forall (before : list string) (cookie : string) (after : list string) (rest : string),
     Forall (fun c => includes c "TOKEN=" = false) before ->
     afterFirst "TOKEN=" cookie = Some rest ->
     let token := upTo ";" (upTo "TOKEN=" rest) in
     tokenFromCookies (before ++ cookie :: after) = Ok (Some token)
     /\ (token <> "" ->
         DownloadThumbnail.sessionFromLogin (Some (before ++ cookie :: after)%list)
         = Ok (Some token))
     /\ (includes (upTo ";" rest) "TOKEN=" = false -> token = upTo ";" rest))
  /\ (forall (cookies : list string),
        Forall (fun c => includes c "TOKEN=" = false) cookies ->
        tokenFromCookies cookies = Ok None
        /\ DownloadThumbnail.sessionFromLogin (Some cookies) = Ok None
        /\ (forall (E : env) (w : world) (r : reply),
              respond E (loginRequest E) = Resolved r ->
              setCookie r = Some cookies ->
              truthy (sessionToken w) = false ->
              fst (authenticate E w) = Ok false
              /\ files (snd (authenticate E w)) = files w)).
Proof.
  split.
  - intros before cookie after rest Hbefore Hrest token.
    assert (Hfound : tokenFromCookies (before ++ cookie :: after) = Ok (Some token)).
    { rewrite tokenFromCookies_find, find_first_marked; [| exact Hbefore |].
      - simpl. unfold splitToken. rewrite Hrest. reflexivity.
      - apply includes_true. unfold afterFirst in Hrest.
        destruct (indexOf "TOKEN=" cookie) as [i|]; [eauto | discriminate]. }
    split; [exact Hfound|]. split.
    + intros Hne.
      unfold DownloadThumbnail.sessionFromLogin. rewrite Hfound. unfold_result. simpl.
      destruct (String.eqb_spec token ""); [contradiction | reflexivity].
    + apply upTo_marker_then_semicolon; [reflexivity | discriminate].
  - intros cookies Hnone.
    assert (Hfound : tokenFromCookies cookies = Ok None).
    { rewrite tokenFromCookies_find, find_none_marked; [reflexivity | exact Hnone]. }
    split; [exact Hfound|]. split.
    + unfold DownloadThumbnail.sessionFromLogin. rewrite Hfound. reflexivity.
    + intros E w r Hr Hc Hw. rewrite authenticate_run.
      unfold replyToken. rewrite Hr, Hc, Hfound. simpl. rewrite Hw. auto.
Qed.

Lemma sessionToken_of_cookies_witness :
  tokenFromCookies ["Path=/"; "TOKEN=fresh456; Path=/; Secure"] = Ok (Some "fresh456")
  /\ tokenFromCookies ["Path=/; HttpOnly"] = Ok None.
Proof.
  split.
  - refine (proj1 (proj1 sessionToken_of_cookies ["Path=/"] "TOKEN=fresh456; Path=/; Secure"
                     [] "fresh456; Path=/; Secure" _ _)).
    + repeat constructor.
    + vm_compute. reflexivity.
  - refine (proj1 (proj2 sessionToken_of_cookies ["Path=/; HttpOnly"] _)).
    repeat constructor.
Defined.

(** C5 as worded fails on a cookie whose value contains the marker again
    before the first ";": the code stops at the second marker. *)
Lemma sessionToken_second_marker_counterexample :
  tokenFromCookies [doubleMarker] = Ok (Some "abc")
  /\ DownloadThumbnail.sessionFromLogin (Some [doubleMarker]) = Ok (Some "abc")
  /\ claimedToken doubleMarker = Some "abcTOKEN=def"
  /\ tokenFromCookies [doubleMarker] <> Ok (claimedToken doubleMarker).
Proof. vm_compute. repeat split; discriminate. Qed.

(** The processor keeps the token of a loaded session in
    [this.sessionToken]: a login reply without token cookie then passes the
    test for a token, and the stale token is written back as a fresh
    session. *)
Example authenticate_keeps_stale_token :
  fst (authenticate loginWithoutToken authenticated) = Ok true
  /\ sessionToken (snd (authenticate loginWithoutToken authenticated)) = VStr "tok123"
  /\ files (snd (authenticate loginWithoutToken authenticated)) !! "cookies.txt"
     = Some (cookieLine loginWithoutToken (VStr "tok123")).
Proof. vm_compute. repeat split. Qed.

End CookieTheorem.

(* ===================================================================== *)
(** * [ensureAuthenticated] *)
(* ===================================================================== *)

Section Session.
Import Spec SingleEventProcessor.

Lemma loadExistingSession_run (w : world) :
  loadExistingSession w
  = match cachedToken w with
    | Some token => (Ok true, mkWorld (files w) (VStr token) (calls w))
    | None => (Ok false, w)
    end.
Proof.
  unfold loadExistingSession, cachedToken, mbind at 1, io_bind, existsSync.
  destruct (files w !! "cookies.txt") as [content|] eqn:Hfile; simpl; [|reflexivity].
  unfold try_catch, mbind, io_bind, readFileSync. rewrite Hfile.
  destruct (matchToken content); reflexivity.
Qed.

Lemma probe_run (E : env) (w : world) :
  probe E w
  = (Ok (resolved (respond E (probeRequest E (toString (sessionToken w))))),
     mkWorld (files w) (sessionToken w)
       (calls w ++ [probeRequest E (toString (sessionToken w))])).
Proof.
  unfold probe, mbind, io_bind, getSessionToken, try_catch, http.
  fold (probeRequest E (toString (sessionToken w))).
  destruct (respond E (probeRequest E (toString (sessionToken w)))); reflexivity.
Qed.

Lemma ensureAuthenticated_run (E : env) (w : world) :
  ensureAuthenticated E w
  = if sessionValid E w
    then (Ok true, afterProbe E w)
    else authenticate E (afterProbe E w).
Proof.
  unfold ensureAuthenticated, sessionValid, afterProbe, mbind at 1, io_bind.
  rewrite loadExistingSession_run.
  destruct (cachedToken w) as [token|]; [|reflexivity].
  unfold mbind, io_bind. rewrite probe_run. simpl.
  destruct (resolved (respond E (probeRequest E token))); reflexivity.
Qed.

Lemma loginCalls_app (a b : list request) :
  loginCalls (a ++ b) = loginCalls a + loginCalls b.
Proof. induction a as [|rq a IH]; simpl; [reflexivity|]. rewrite IH. lia. Qed.

Lemma authenticate_calls (E : env) (w : world) :
  calls (snd (authenticate E w)) = (calls w ++ [loginRequest E])%list.
Proof.
  rewrite authenticate_run. simpl.
  destruct (respond E (loginRequest E)); [|reflexivity].
  destruct (truthy _); reflexivity.
Qed.

Lemma afterProbe_calls (E : env) (w : world) :
  exists probes, calls (afterProbe E w) = (calls w ++ probes)%list /\ loginCalls probes = 0
                 /\ files (afterProbe E w) = files w.
Proof.
  unfold afterProbe. destruct (cachedToken w) as [token|].
  - exists [probeRequest E token]. auto.
  - exists []. rewrite app_nil_r. auto.
Qed.



(** A valid cached session: no login call. *)
Example ensureAuthenticated_cached :
  ensureAuthenticated probeAccepted authenticated
  = (Ok true, mkWorld (files authenticated) (VStr "tok123") [probeRequest probeAccepted "tok123"]).
Proof. vm_compute. reflexivity. Qed.

End Session.

(* ===================================================================== *)
(** * Dispatch with a failing thumbnail *)
(* ===================================================================== *)

Section Dispatch.
Import Spec DiscordCommon DiscordThumb DiscordSend.

Lemma world_eta (w : world) : mkWorld (files w) (sessionToken w) (calls w) = w.
Proof. destruct w; reflexivity. Qed.

Lemma fetchAnimatedThumbnail_fails (E : env) (eventId : val) (w : world) :
  thumbnailFails E eventId = true ->
  fetchAnimatedThumbnail E eventId w
  = (Ok None, mkWorld (files w) (sessionToken w) (calls w ++ thumbnailRequest E eventId)).
Proof.
  unfold thumbnailFails, thumbnailRequest, fetchAnimatedThumbnail.
  destruct (PROTECT_API_KEY E) as [key|];
    [|intros _; rewrite app_nil_r, world_eta; reflexivity].
  destruct (String.eqb key ""); simpl;
    [intros _; rewrite app_nil_r, world_eta; reflexivity|].
  destruct (truthy eventId); simpl;
    [|intros _; rewrite app_nil_r, world_eta; reflexivity].
  unfold try_catch, mbind, io_bind, http.
  destruct (respond E _) as [r|m]; [|reflexivity].
  intros H. apply negb_true_iff in H. rewrite H. reflexivity.
Qed.

Lemma sendMessageWithThumbnail_plain (E : env) (msg : Message.t) (w : world) :
  sendMessageWithThumbnail E msg None w
  = (plainDelivery E msg,
     mkWorld (files w) (sessionToken w) (calls w ++ [Post (webhookUrl E) (JsonMessage msg)])).
Proof.
  unfold sendMessageWithThumbnail, sendMessage, try_catch, mbind, io_bind, http, plainDelivery.
  destruct (respond E _) as [r|m]; reflexivity.
Qed.

Lemma deviceFragments_readable (ts : list val) (fs : list string) :
  deviceFragments ts = Ok fs -> Forall (fun t => nullish t = false) ts.
Proof.
  revert fs. induction ts as [|t ts IH]; intros fs; [constructor|].
  simpl. intros H.
  apply bind_ok in H as (device & Hdevice & H).
  apply bind_ok in H as (key & _ & H).
  apply bind_ok in H as (more & Hmore & _).
  constructor; [|eapply IH, Hmore].
  apply (get_ok_not_nullish _ _ _ Hdevice).
Qed.

Lemma firstEventId_total (ts : list val) :
  Forall (fun t => nullish t = false) ts -> exists e, firstEventId ts = Ok e.
Proof.
  induction 1 as [|t ts Ht _ [e IH]]; [eexists; reflexivity|].
  simpl. rewrite (get_ok_of_not_nullish t "eventId" Ht). unfold_result.
  destruct (truthy _); eauto.
Qed.

Lemma extractEventId_of_deviceInfo (alarm d : val) :
  extractDeviceInfo alarm = Ok d -> exists e, extractEventId alarm = Ok e.
Proof.
  unfold extractDeviceInfo, DiscordCommon.extractDeviceInfo, extractEventId.
  destruct (get alarm "triggers") as [triggers|]; [|discriminate]. unfold_result.
  destruct (negb (truthy triggers) || negb (isArray triggers)); [eauto|].
  destruct (deviceFragments (elements triggers)) as [fs|] eqn:Hfs; [|discriminate].
  intros _. apply firstEventId_total, (deviceFragments_readable _ fs), Hfs.
Qed.

(** C4, as the code has it. In the webhook service a failed thumbnail
    fetch (no API key, no event id, a rejected call, a status other than
    200, an empty reply) yields no buffer, and the dispatch goes on: the
    message is posted to Discord as JSON, without attachment, and the
    outcome of [processAndSend] is the outcome of that post alone. *)
Theorem processAndSend_thumbnail_failure
    (E : env) (eventData : val) (w : world) (msg : Message.t) :
  transformToDiscordFormat (nowISO E) eventData = Ok msg ->
  exists eventId,
    extractEventId (getOpt eventData "alarm") = Ok eventId
    /\ (thumbnailFails E eventId = true ->
          fst (fetchAnimatedThumbnail E eventId w) = Ok None
          /\ processAndSend E eventData w
             = (plainDelivery E msg,
                mkWorld (files w) (sessionToken w)
                  (calls w ++ thumbnailRequest E eventId
                   ++ [Post (webhookUrl E) (JsonMessage msg)]))).
Proof.
  intros Htransform. pose proof Htransform as H.
  unfold transformToDiscordFormat in H.
  apply bind_ok in H as (alarm & Halarm & H).
  apply bind_ok in H as (timestamp & Htimestamp & H).
  apply bind_ok in H as (name & _ & H).
  apply bind_ok in H as (eventType & HeventType & H).
  apply bind_ok in H as (deviceInfo & HdeviceInfo & H).
  apply bind_ok in H as (personInfo & HpersonInfo & _).
  destruct (extractEventId_of_deviceInfo alarm deviceInfo HdeviceInfo) as [eventId HeventId].
  destruct (get_ok_not_nullish _ _ _ Halarm) as [_ ->].
  exists eventId. split; [exact HeventId|]. intros Hfails.
  split; [rewrite (fetchAnimatedThumbnail_fails E eventId w Hfails); reflexivity|].
  unfold processAndSend, try_catch, mbind, io_bind, lift.
  rewrite Halarm, HeventType, Htimestamp, HdeviceInfo, HpersonInfo, HeventId.
  assert (Hfetch : (if truthy eventId then fetchAnimatedThumbnail E eventId else mret None) w
                   = (Ok None, mkWorld (files w) (sessionToken w)
                                 (calls w ++ thumbnailRequest E eventId))).
  { destruct (truthy eventId) eqn:Hid; [apply fetchAnimatedThumbnail_fails, Hfails|].
    unfold thumbnailRequest.
    destruct (PROTECT_API_KEY E); [rewrite Hid, andb_false_r|];
      rewrite app_nil_r, world_eta; reflexivity. }
  rewrite Hfetch, Htransform, sendMessageWithThumbnail_plain. simpl.
  rewrite <- app_assoc.
  destruct (plainDelivery E msg); reflexivity.
Qed.

Lemma processAndSend_thumbnail_failure_witness :
  exists msg eventId,
    fst (fetchAnimatedThumbnail thumbnailNotFound eventId idle) = Ok None
    /\ processAndSend thumbnailNotFound aliceEvent idle
       = (plainDelivery thumbnailNotFound msg,
          mkWorld ∅ VNull
            (thumbnailRequest thumbnailNotFound eventId
             ++ [Post (webhookUrl thumbnailNotFound) (JsonMessage msg)])).
Proof.
  destruct (transformToDiscordFormat (nowISO thumbnailNotFound) aliceEvent) as [msg|e] eqn:Hmsg;
    [|vm_compute in Hmsg; discriminate].
  destruct (processAndSend_thumbnail_failure thumbnailNotFound aliceEvent idle msg Hmsg)
    as (eventId & HeventId & Hrun).
  exists msg, eventId. apply Hrun.
  vm_compute in HeventId. injection HeventId as <-. vm_compute. reflexivity.
Defined.

(** The run of the witness: one thumbnail call, then the JSON post. *)
Example processAndSend_not_found :
  fst (processAndSend thumbnailNotFound aliceEvent idle) = Ok (obj [("id", VStr "1400")])
  /\ map isPost (calls (snd (processAndSend thumbnailNotFound aliceEvent idle))) = [false; true].
Proof. vm_compute. split; reflexivity. Qed.

End Dispatch.

(* ===================================================================== *)
(** * The command-line processor *)
(* ===================================================================== *)

Section Processor.
Import Spec SingleEventProcessor.

(** C4 as worded fails in the command-line processor: when the thumbnail
    cannot be downloaded, [processEvent] returns false and nothing is
    posted to Discord. *)
Lemma processEvent_thumbnail_missing_counterexample :
  fst (processEvent thumbnailMissing "e1" authenticated) = Ok false
  /\ existsb isPost (calls (snd (processEvent thumbnailMissing "e1" authenticated))) = false
  /\ length (calls (snd (processEvent thumbnailMissing "e1" authenticated))) = 2.
Proof. vm_compute. repeat split. Qed.

(** C9 at the failing run: the thumbnail is written, Discord refuses the
    upload, [processEvent] returns false before its clean-up, and the
    file is still there; after an accepted upload it is gone. *)
Theorem processEvent_upload_refused_keeps_file :
  fst (processEvent uploadRefused "e1" authenticated) = Ok false
  /\ existsb isPost (calls (snd (processEvent uploadRefused "e1" authenticated))) = true
  /\ files (snd (processEvent uploadRefused "e1" authenticated)) !! "thumbnail-e1.jpg"
     = Some "JFIF"
  /\ fst (processEvent uploadAccepted "e1" authenticated) = Ok true
  /\ files (snd (processEvent uploadAccepted "e1" authenticated)) !! "thumbnail-e1.jpg" = None.
Proof. vm_compute. repeat split. Qed.

(** The same for every run: once the thumbnail is on disk, a failed
    upload ends [processEvent] with the file left behind. *)
Lemma uploadToDiscord_files (E : env) (filePath : string) (eventInfo : val) (w : world) :
  files (snd (uploadToDiscord E filePath eventInfo w)) = files w.
Proof.
  unfold uploadToDiscord, try_catch, mbind, io_bind, lift, http.
  destruct (formatEventInfo E eventInfo); [|reflexivity].
  destruct (respond E _); reflexivity.
Qed.

Lemma downloadThumbnail_written (E : env) (eventId outputFile : string) (w w' : world) :
  downloadThumbnail E eventId outputFile w = (Ok true, w') ->
  is_Some (files w' !! outputFile).
Proof.
  unfold downloadThumbnail, try_catch, mbind, io_bind, getSessionToken, http, writeFileSync.
  destruct (respond E _) as [r|m]; [|discriminate].
  destruct (status r =? 200)%Z; [|discriminate].
  intros [= <-]. simpl. rewrite lookup_insert_eq. eauto.
Qed.

Lemma processEvent_failed_upload (E : env) (eventId : string) (w w1 w2 w3 : world) (info : val) :
  let fileName := "thumbnail-" +:+ eventId +:+ ".jpg" in
  getEventInfo E eventId w = (Ok info, w1) ->
  truthy info = true ->
  downloadThumbnail E eventId fileName w1 = (Ok true, w2) ->
  uploadToDiscord E fileName info w2 = (Ok false, w3) ->
  processEvent E eventId w = (Ok false, w3) /\ is_Some (files w3 !! fileName).
Proof.
  intros fileName Hinfo Htruthy Hdownload Hupload. split.
  - unfold processEvent, try_catch, mbind at 1, io_bind. fold fileName.
    rewrite Hinfo, Htruthy. simpl.
    unfold mbind at 1, io_bind. rewrite Hdownload. simpl.
    unfold mbind at 1, io_bind. rewrite Hupload. reflexivity.
  - pose proof (uploadToDiscord_files E fileName info w2) as Hfiles.
    rewrite Hupload in Hfiles. simpl in Hfiles. rewrite Hfiles.
    apply (downloadThumbnail_written E eventId fileName w1 w2 Hdownload).
Qed.

End Processor.

(* ===================================================================== *)
(** * Further properties: extraction *)
(* ===================================================================== *)

Section MoreExtraction.
Import Spec More MoreInputs DiscordCommon.

Lemma deviceFragments_flat_map (ts : list val) :
  Forall (fun t => nullish t = false) ts ->
  deviceFragments ts = Ok (flat_map triggerFragments ts).
Proof.
  induction 1 as [|t ts Ht _ IH]; [reflexivity|].
  simpl. rewrite !(get_ok_of_not_nullish t _ Ht), IH. unfold_result.
  unfold triggerFragments. rewrite <- app_assoc. reflexivity.
Qed.

Lemma flat_map_fragments_length (ts : list val) :
  (0 <? length (flat_map triggerFragments ts))%nat = existsb namesDevice ts.
Proof.
  induction ts as [|t ts IH]; [reflexivity|].
  simpl. rewrite length_app. unfold namesDevice, triggerFragments in *.
  destruct (truthy (getOpt t "device")), (truthy (getOpt t "key")); simpl; try reflexivity.
  exact IH.
Qed.

Lemma append_nonempty (a b : string) : a <> "" -> a +:+ b <> "".
Proof. destruct a; [contradiction | discriminate]. Qed.

Lemma join_nonempty (sep : string) (parts : list string) :
  Forall (fun p => p <> "") parts -> parts <> [] -> join sep parts <> "".
Proof.
  intros Hall Hne. destruct Hall as [|p parts Hp _]; [contradiction|].
  destruct parts; simpl; [exact Hp | apply append_nonempty, Hp].
Qed.

Lemma triggerFragments_nonempty (ts : list val) :
  Forall (fun p => p <> "") (flat_map triggerFragments ts).
Proof.
  induction ts as [|t ts IH]; [constructor|].
  simpl. apply Forall_app. split; [|exact IH].
  unfold triggerFragments.
  destruct (truthy (getOpt t "device")), (truthy (getOpt t "key"));
    repeat constructor; discriminate.
Qed.



Lemma firstEventId_find (ts : list val) :
  Forall (fun t => nullish t = false) ts ->
  DiscordThumb.firstEventId ts = Ok (firstIdOf ts).
Proof.
  unfold firstIdOf. induction 1 as [|t ts Ht _ IH]; [reflexivity|].
  simpl. rewrite (get_ok_of_not_nullish t "eventId" Ht). unfold_result.
  destruct (truthy (getOpt t "eventId")); [reflexivity | exact IH].
Qed.

(** X2. The event id used for the thumbnail is the [eventId] of the first
    trigger, in document order, that has a truthy one, whatever its key;
    it is null when no trigger has one or when there is no triggers
    array. *)
Theorem extractEventId_first (alarm triggers : val) :
  get alarm "triggers" = Ok triggers ->
  (isArray triggers = false -> DiscordThumb.extractEventId alarm = Ok VNull)
  /\ (forall ts, triggers = VArr ts ->
        Forall (fun t => nullish t = false) ts ->
        DiscordThumb.extractEventId alarm = Ok (firstIdOf ts)).
Proof.
  intros Hget. unfold DiscordThumb.extractEventId. rewrite Hget. unfold_result. split.
  - intros ->. rewrite orb_true_r. reflexivity.
  - intros ts -> Hts. simpl. apply firstEventId_find, Hts.
Qed.

Lemma extractEventId_first_witness :
  DiscordThumb.extractEventId mixedAlarm = Ok (firstIdOf mixedTriggers).
Proof.
  refine (proj2 (extractEventId_first mixedAlarm (VArr mixedTriggers) _) mixedTriggers eq_refl _).
  - vm_compute. reflexivity.
  - repeat constructor.
Defined.

Lemma scanTriggers_has_id (alarm : val) (ts : list val) (p : PersonInfo.t) :
  DiscordThumb.scanTriggers alarm ts = Ok (Some p) ->
  truthy (PersonInfo.eventId p) = true ->
  exists e, DiscordThumb.firstEventId ts = Ok e /\ truthy e = true.
Proof.
  induction ts as [|t ts IH]; [discriminate|].
  simpl. intros H Hid.
  apply bind_ok in H as (key & Hkey & H).
  destruct (get_ok_not_nullish _ _ _ Hkey) as [Ht _].
  rewrite (get_ok_of_not_nullish t "eventId" Ht). unfold_result.
  destruct (truthy (getOpt t "eventId")) eqn:Hte; [eauto|].
  destruct (DiscordThumb.isFaceKey key); [|apply IH; assumption].
  rewrite (get_ok_of_not_nullish t "eventId" Ht) in H.
  destruct (get alarm "eventLocalLink"); [|discriminate].
  destruct (get alarm "eventPath"); [|discriminate].
  destruct (get t "timestamp"); [|discriminate].
  destruct (DiscordThumb.personName t); [|discriminate].
  injection H as <-. simpl in Hid. congruence.
Qed.

(** X3. Whenever the person record carries an event id, so that the
    message shows an Event ID field, the alarm also yields an event id for
    the thumbnail. The thumbnail id is the one of the first trigger with
    an event id, which need not be the face trigger. *)
Theorem personInfo_eventId_has_thumbnail_id (alarm : val) (p : PersonInfo.t) :
  DiscordThumb.extractPersonInfo alarm = Ok (Some p) ->
  truthy (PersonInfo.eventId p) = true ->
  exists e, DiscordThumb.extractEventId alarm = Ok e /\ truthy e = true.
Proof.
  unfold DiscordThumb.extractPersonInfo, DiscordThumb.extractEventId.
  destruct (get alarm "triggers") as [triggers|]; [|discriminate]. unfold_result.
  destruct (negb (truthy triggers) || negb (isArray triggers)); [discriminate|].
  apply scanTriggers_has_id.
Qed.

Lemma personInfo_eventId_has_thumbnail_id_witness :
  exists e, DiscordThumb.extractEventId mixedAlarm = Ok e /\ truthy e = true.
Proof.
  apply (personInfo_eventId_has_thumbnail_id mixedAlarm
           (PersonInfo.mk (VStr "Alice") (VStr "evt-2") VUndef VUndef VUndef)).
  - vm_compute. reflexivity.
  - reflexivity.
Defined.

(** The two ids of the sample differ: the field shows the face trigger's,
    the thumbnail is the one of the first trigger with an id. *)
Example eventId_of_field_and_thumbnail :
  DiscordThumb.extractEventId mixedAlarm = Ok (VStr "evt-1")
  /\ DiscordThumb.extractPersonInfo mixedAlarm
     = Ok (Some (PersonInfo.mk (VStr "Alice") (VStr "evt-2") VUndef VUndef VUndef)).
Proof. vm_compute. split; reflexivity. Qed.

End MoreExtraction.

(* ===================================================================== *)
(** * Further properties: presentation *)
(* ===================================================================== *)

Section MorePresentation.
Import Spec More MoreInputs DiscordCommon.

Lemma lower_ascii_idempotent (c : ascii) : lower_ascii (lower_ascii c) = lower_ascii c.
Proof. destruct c as [[] [] [] [] [] [] [] []]; reflexivity. Qed.

Lemma lower_idempotent (s : string) : lower (lower s) = lower s.
Proof.
  induction s as [|c s IH]; [reflexivity|].
  simpl. rewrite lower_ascii_idempotent, IH. reflexivity.
Qed.

Lemma isMapped_false (key : string) :
  isMapped key = false ->
  String.eqb key "motion" = false /\ String.eqb key "person" = false
  /\ String.eqb key "vehicle" = false /\ String.eqb key "package" = false
  /\ String.eqb key "alert" = false /\ String.eqb key "face_known" = false
  /\ String.eqb key "face_unknown" = false.
Proof.
  unfold isMapped, keywords. simpl. rewrite orb_false_r. intros H.
  repeat (apply orb_false_elim in H as [? H]). auto 10.
Qed.



Lemma keywordIn_member_lower (kws : list string) (s k : string) :
  Forall (fun k => lower k = k) kws -> keywordIn kws s = Some k -> lower k = k.
Proof.
  intros Hkws Hk. destruct (keywordIn_first _ _ _ Hk) as (before & after & -> & _).
  apply Forall_app in Hkws as [_ Hk']. inversion Hk'; assumption.
Qed.

Lemma precedence_lower (kws : list string) (sources : list (option string)) :
  Forall (fun k => lower k = k) kws ->
  lower (precedence kws sources) = precedence kws sources.
Proof.
  intros Hkws. unfold precedence.
  destruct (firstKeyword kws sources) as [k|] eqn:Hk.
  - destruct (firstKeyword_document_order _ _ _ Hk) as (_ & s & _ & _ & Hin & _).
    eapply keywordIn_member_lower; eauto.
  - unfold fallbackType. destruct sources as [|[s|] sources]; try reflexivity.
    apply lower_idempotent.
Qed.



(** The names of the fields, in the order of the source. *)
Lemma fields_order (personInfo : option PersonInfo.t) (deviceInfo : val) (conditions : list Field.t) :
  (conditions = [] \/ exists s, conditions = [Field.mk "Conditions" (VStr s) false]) ->
  sublist
    (map Field.name
       (DiscordThumb.personField personInfo
        ++ (if truthy deviceInfo then [Field.mk "Device" deviceInfo true] else [])
        ++ DiscordThumb.eventIdField personInfo ++ conditions))
    ["Person"; "Device"; "Event ID"; "Conditions"].
Proof.
  intros Hc. unfold DiscordThumb.personField, DiscordThumb.eventIdField.
  destruct personInfo as [p|]; [destruct (truthy (PersonInfo.name p)), (truthy (PersonInfo.eventId p))|];
    destruct (truthy deviceInfo); destruct Hc as [-> | [s ->]]; simpl;
    repeat first [apply sublist_nil | apply sublist_skip | apply sublist_cons].
Qed.

Lemma conditionsField_cases (alarm : val) (fs : list Field.t) :
  conditionsField alarm = Ok fs ->
  fs = [] \/ exists s, fs = [Field.mk "Conditions" (VStr s) false].
Proof.
  unfold conditionsField. intros H. apply bind_ok in H as ([s|] & _ & H);
    injection H as <-; eauto.
Qed.

(** X6. Every message [transformToDiscordFormat] returns has exactly one
    embed, titled "Unifi Protect Alert"; its first field is the inline
    Event Type field with the extracted type, and the others are, each at
    most once and in this order, Person, Device, Event ID and Conditions. *)
Theorem transformToDiscordFormat_layout (now : string) (eventData : val) (m : Message.t) :
  DiscordThumb.transformToDiscordFormat now eventData = Ok m ->
  exists e ty rest,
    Message.embeds m = [e]
    /\ Embed.title e = "Unifi Protect Alert"
    /\ DiscordThumb.extractEventType (getOpt eventData "alarm") = Ok ty
    /\ Embed.fields e = Field.mk "Event Type" (VStr ty) true :: rest
    /\ sublist (map Field.name rest) ["Person"; "Device"; "Event ID"; "Conditions"].
Proof.
  unfold DiscordThumb.transformToDiscordFormat. intros H.
  apply bind_ok in H as (alarm & Halarm & H).
  apply bind_ok in H as (timestamp & _ & H).
  apply bind_ok in H as (name & _ & H).
  apply bind_ok in H as (eventType & HeventType & H).
  apply bind_ok in H as (deviceInfo & _ & H).
  apply bind_ok in H as (personInfo & _ & H).
  apply bind_ok in H as (formatted & _ & H).
  apply bind_ok in H as (eventConfig & _ & H).
  apply bind_ok in H as (conditions & Hconditions & H).
  injection H as <-.
  destruct (get_ok_not_nullish _ _ _ Halarm) as [_ ->].
  eexists _, eventType, _. simpl.
  repeat split; [exact HeventType|].
  apply fields_order, (conditionsField_cases _ _ Hconditions).
Qed.

Lemma transformToDiscordFormat_layout_witness :
  exists e ty rest,
    Message.embeds (Message.mk "🚨 **Motion Detected**"
          [Embed.mk "Unifi Protect Alert" (VStr "Front Door Motion") (VNum 15158332)
             (VStr "2024-08-01T15:39:53.954Z")
             [Field.mk "Event Type" (VStr "motion") true;
              Field.mk "Device" (VStr "Device: 74ACB99F4E24 | Trigger: motion") true;
              Field.mk "Conditions" (VStr "motion (is)") false]]) = [e]
    /\ Embed.title e = "Unifi Protect Alert"
    /\ DiscordThumb.extractEventType (getOpt scenario "alarm") = Ok ty
    /\ Embed.fields e = Field.mk "Event Type" (VStr ty) true :: rest
    /\ sublist (map Field.name rest) ["Person"; "Device"; "Event ID"; "Conditions"].
Proof.
  apply (transformToDiscordFormat_layout "unused" scenario).
  vm_compute. reflexivity.
Defined.

End MorePresentation.

(* ===================================================================== *)
(** * Further properties: validation and sanitizing *)
(* ===================================================================== *)

Section MoreValidation.
Import Spec More MoreInputs Validator Sanitized.

Lemma truncateField_lookup (k : string) (n : nat) (m : gmap string val) :
  truncateField k n m !! k = truncated n <$> m !! k.
Proof.
  unfold truncateField, truncated. destruct (m !! k) as [v|] eqn:Hk; simpl.
  - destruct (truthy v); [apply lookup_insert_eq | exact Hk].
  - exact Hk.
Qed.

(** Every field of the sanitized copy. *)
Lemma sanitizeData_lookup (data : gmap string val) (k : string) :
  sanitizeData data !! k = field data k.
Proof.
  unfold sanitizeData, field.
  destruct (String.eqb_spec k "description") as [->|Hd].
  { simpl. rewrite truncateField_lookup, truncateField_lookup_ne by discriminate.
    rewrite !lookup_delete_ne by discriminate. reflexivity. }
  rewrite truncateField_lookup_ne by congruence.
  destruct (String.eqb_spec k "cameraName") as [->|Hc].
  { simpl. rewrite truncateField_lookup. rewrite !lookup_delete_ne by discriminate. reflexivity. }
  rewrite truncateField_lookup_ne by congruence.
  destruct (String.eqb_spec k "token") as [->|Ht].
  { simpl. apply lookup_delete_eq. }
  rewrite lookup_delete_ne by congruence.
  destruct (String.eqb_spec k "password") as [->|Hp].
  { simpl. apply lookup_delete_eq. }
  rewrite lookup_delete_ne by congruence.
  destruct (String.eqb_spec k "secret") as [->|Hs].
  { simpl. apply lookup_delete_eq. }
  rewrite lookup_delete_ne by congruence. reflexivity.
Qed.

Lemma substring0_idempotent (n : nat) (s : string) :
  substring0 n (substring0 n s) = substring0 n s.
Proof.
  unfold substring0. revert s.
  induction n as [|n IH]; intros [|c s]; simpl; try reflexivity.
  rewrite IH. reflexivity.
Qed.

Lemma truncated_idempotent (n : nat) (v : val) :
  truncated n (truncated n v) = truncated n v.
Proof.
  unfold truncated. destruct (truthy v) eqn:Hv; [|rewrite Hv; reflexivity].
  simpl. destruct (negb _); [|reflexivity].
  rewrite substring0_idempotent. reflexivity.
Qed.

(** X7. Sanitizing is idempotent: a sanitized body is left as it is by a
    second pass, the truncated texts being short enough already. *)
Theorem sanitizeData_idempotent (data : gmap string val) :
  sanitizeData (sanitizeData data) = sanitizeData data.
Proof.
  apply map_eq. intros k.
  rewrite (sanitizeData_lookup (sanitizeData data) k). unfold field at 1.
  rewrite !(sanitizeData_lookup data k). unfold field.
  destruct (String.eqb k "secret" || String.eqb k "password" || String.eqb k "token");
    [reflexivity|].
  destruct (String.eqb k "cameraName"); [|destruct (String.eqb k "description")];
    try reflexivity.
  - destruct (data !! k); simpl; [rewrite truncated_idempotent|]; reflexivity.
  - destruct (data !! k); simpl; [rewrite truncated_idempotent|]; reflexivity.
Qed.

End MoreValidation.

Section MoreValidator.
Import Spec More MoreInputs Validator Sanitized.

Lemma secret_errors (secret : option string) (body : val) :
  match secret with
  | Some s =>
    if negb (String.eqb s "")
       && negb (match getOpt body "secret" with VStr s' => String.eqb s' s | _ => false end)
    then ["Invalid webhook secret"] else []
  | None => []
  end = (if secretAccepted secret body then [] else ["Invalid webhook secret"]).
Proof.
  unfold secretAccepted. destruct secret as [s|]; [|reflexivity].
  destruct (String.eqb s ""); simpl; [reflexivity|].
  destruct (match getOpt body "secret" with VStr s' => String.eqb s' s | _ => false end);
    reflexivity.
Qed.

Lemma validate_characterized (body : val) (secret : option string) :
  validateWebhookRequest body secret = [] <-> validBody secret body = true.
Proof.
  unfold validateWebhookRequest, validBody. rewrite secret_errors.
  destruct body as [| |b|n|s|xs|m]; simpl; try (split; discriminate).
  - destruct b; split; discriminate.
  - destruct (negb (n =? 0)%Z); split; discriminate.
  - destruct (negb (String.eqb s "")); split; discriminate.
  - set (alarm := default VUndef (m !! "alarm")).
    assert (Hobj : forall v, negb (truthy v) || negb (objectLike v) = negb (objectLike v)).
    { intros v. destruct v; simpl; try reflexivity.
      - destruct b; reflexivity.
      - destruct (n =? 0)%Z; reflexivity.
      - destruct (String.eqb s ""); reflexivity. }
    fold (objectLike alarm). rewrite Hobj.
    destruct (objectLike alarm) eqn:Halarm; simpl; [|split; discriminate].
    assert (Harr : forall v, truthy v && isArray v = isArray v).
    { intros v. destruct v; simpl; try reflexivity; apply andb_false_r. }
    rewrite !Harr.
    destruct (truthy (getOpt alarm "name")); simpl; [|split; discriminate].
    destruct (isArray (getOpt alarm "conditions")); simpl; [|split; discriminate].
    destruct (isArray (getOpt alarm "triggers")); simpl; [|split; discriminate].
    destruct (truthy (default VUndef (m !! "timestamp"))); simpl; [|split; discriminate].
    destruct (secretAccepted secret (VObj m)); split; (reflexivity || discriminate).
Qed.

Lemma validate_accepts_object (body : val) (secret : option string) :
  Validator.validateWebhookRequest body secret = [] ->
  exists m cs ts,
    body = VObj m
    /\ getOpt (getOpt body "alarm") "conditions" = VArr cs
    /\ getOpt (getOpt body "alarm") "triggers" = VArr ts
    /\ truthy (getOpt body "timestamp") = true.
Proof.
  intros H%validate_characterized. unfold validBody in H.
  repeat (apply andb_prop in H as [H ?]).
  destruct body as [| | | | | |m]; try discriminate.
  destruct (getOpt (getOpt (VObj m) "alarm") "conditions") as [| | | | |cs|]; try discriminate.
  destruct (getOpt (getOpt (VObj m) "alarm") "triggers") as [| | | | |ts|]; try discriminate.
  eauto 10.
Qed.

(** X8. The validator of [src/utils/validator.js] returns no error exactly
    for a plain object with an [alarm] object that has a truthy [name] and
    arrays as [conditions] and [triggers], a truthy [timestamp], and,
    when a non-empty secret is configured, that very text as [secret]. An
    accepted body is never an array, and its conditions and triggers can
    be iterated. *)
Theorem validateWebhookRequest_accepts (body : val) (secret : option string) :
  (validateWebhookRequest body secret = [] <-> validBody secret body = true)
  /\ (validateWebhookRequest body secret = [] ->
        exists m cs ts,
          body = VObj m
          /\ getOpt (getOpt body "alarm") "conditions" = VArr cs
          /\ getOpt (getOpt body "alarm") "triggers" = VArr ts
          /\ truthy (getOpt body "timestamp") = true).
Proof.
  split; [apply validate_characterized | apply validate_accepts_object].
Qed.

Lemma validateWebhookRequest_accepts_witness :
  exists m cs ts,
    signedBody = VObj m
    /\ getOpt (getOpt signedBody "alarm") "conditions" = VArr cs
    /\ getOpt (getOpt signedBody "alarm") "triggers" = VArr ts
    /\ truthy (getOpt signedBody "timestamp") = true.
Proof.
  apply (proj2 (validateWebhookRequest_accepts signedBody (Some "s3cr3t"))).
  vm_compute. reflexivity.
Defined.

Lemma validBody_sanitized (data : gmap string val) (secret : option string) :
  validBody secret (VObj (sanitizeData data))
  = validBody None (VObj data) && secretAccepted secret (VObj (sanitizeData data)).
Proof.
  unfold validBody. simpl.
  rewrite !sanitizeData_lookup. unfold field. simpl.
  rewrite !andb_true_r. reflexivity.
Qed.

(** X9. Sanitizing does not change what the validator says about a body
    when no secret is configured: the fields it reads are passed through.
    With a non-empty secret configured a sanitized body is always
    refused, its [secret] being gone. *)
Theorem sanitizeData_validation (data : gmap string val) :
  (validateWebhookRequest (VObj (sanitizeData data)) None = []
   <-> validateWebhookRequest (VObj data) None = [])
  /\ (forall s, s <> "" ->
        validateWebhookRequest (VObj (sanitizeData data)) (Some s) <> []).
Proof.
  split.
  - rewrite !validate_characterized, validBody_sanitized. simpl.
    rewrite andb_true_r. reflexivity.
  - intros s Hs H%validate_characterized. rewrite validBody_sanitized in H.
    apply andb_prop in H as [_ H]. unfold secretAccepted in H. simpl in H.
    rewrite sanitizeData_lookup in H. simpl in H. rewrite orb_false_r in H.
    apply String.eqb_eq in H. contradiction.
Qed.

Lemma sanitizeData_validation_witness :
  validateWebhookRequest (VObj (sanitizeData secretBody)) (Some "s3cr3t") <> [].
Proof. apply (proj2 (sanitizeData_validation secretBody) "s3cr3t"). discriminate. Defined.

(** X10. In a message built by the flat version from a sanitized body, a
    Camera field holds a non-empty text of at most 100 code units, and
    the description is a text of at most 2000 code units unless it is the
    default "Event: <type>". *)
Theorem flat_message_truncated (now : string) (data : gmap string val) (m : Message.t) :
  DiscordFlat.transformToDiscordFormat now (VObj (sanitizeData data)) = Ok m ->
  exists e, Message.embeds m = [e]
    /\ (forall f, In f (Embed.fields e) -> Field.name f = "Camera" ->
          exists s, Field.value f = VStr s /\ s <> "" /\ String.length s <= 100)
    /\ ((exists s, Embed.description e = VStr s /\ String.length s <= 2000)
        \/ Embed.description e
           = VStr ("Event: " +:+ toString (default VUndef (data !! "eventType")))).
Proof.
  unfold DiscordFlat.transformToDiscordFormat. simpl.
  rewrite !sanitizeData_lookup. unfold field. simpl.
  unfold mbind, result_bind, mret, result_ret.
  destruct (DiscordFlat.getEventConfig _) as [config|]; [|discriminate].
  intros [= <-]. eexists. split; [reflexivity|]. cbn [Embed.fields Embed.description]. split.
  - intros f Hf Hname.
    assert (Hcam : f = Field.mk "Camera" (default VUndef (truncated 100 <$> data !! "cameraName")) true
                   /\ truthy (default VUndef (truncated 100 <$> data !! "cameraName")) = true).
    { apply in_app_or in Hf as [Hf | Hf].
      - destruct (truthy (default VUndef (truncated 100 <$> data !! "cameraName")));
          [|exact (False_ind _ Hf)]. destruct Hf as [<- | []]. auto.
      - exfalso. destruct Hf as [<- | Hf]; [discriminate|].
        destruct (truthy _); [destruct Hf as [<- | []]; discriminate | exact (False_ind _ Hf)]. }
    destruct Hcam as [-> Hc]. simpl.
    destruct (data !! "cameraName") as [v|]; [simpl in *|discriminate].
    unfold truncated in *. destruct (truthy v) eqn:Hv; [|congruence].
    eexists. split; [reflexivity|]. split; [|apply substring0_length].
    simpl in Hc. intros He. rewrite He in Hc. discriminate.
  - unfold or_else.
    destruct (truthy (default VUndef (truncated 2000 <$> data !! "description"))) eqn:Hd;
      [left | right; reflexivity].
    destruct (data !! "description") as [v|]; [simpl in *|discriminate].
    unfold truncated in *. destruct (truthy v) eqn:Hv; [|congruence].
    eexists. split; [reflexivity | apply substring0_length].
Qed.

Lemma flat_message_truncated_witness :
  exists m e, DiscordFlat.transformToDiscordFormat "unused" (VObj (sanitizeData longCamera)) = Ok m
    /\ Message.embeds m = [e]
    /\ (forall f, In f (Embed.fields e) -> Field.name f = "Camera" ->
          exists s, Field.value f = VStr s /\ s <> "" /\ String.length s <= 100).
Proof.
  destruct (DiscordFlat.transformToDiscordFormat "unused" (VObj (sanitizeData longCamera)))
    as [m|] eqn:Hm; [|vm_compute in Hm; discriminate].
  destruct (flat_message_truncated "unused" longCamera m Hm) as (e & He & Hcam & _).
  exists m, e. auto.
Defined.

End MoreValidator.

(* ===================================================================== *)
(** * Further properties: sending and the route *)
(* ===================================================================== *)

Section MoreSending.
Import Spec More MoreInputs Delivery DiscordCommon.

Lemma sendMessage_run (E : env) (msg : Message.t) (w : world) :
  DiscordSend.sendMessage E msg w = (jsonDelivery E msg, called w [jsonPost E msg]).
Proof.
  unfold DiscordSend.sendMessage, try_catch, mbind, io_bind, http, jsonDelivery, called.
  fold (jsonPost E msg). destruct (respond E (jsonPost E msg)); reflexivity.
Qed.

Lemma get_throws (v : val) (k : string) (e : exn) :
  get v k = Throw e -> nullish v = true /\ e = TypeError.
Proof. destruct v; simpl; try discriminate; intros [= <-]; auto. Qed.

Lemma alarm_processAndSend_run (E : env) (eventData : val) (w : world) :
  DiscordAlarmSend.processAndSend E eventData w
  = match DiscordAlarm.transformToDiscordFormat (nowISO E) eventData with
    | Ok msg => (jsonDelivery E msg, called w [jsonPost E msg])
    | Throw e => (Throw e, w)
    end.
Proof.
  unfold DiscordAlarmSend.processAndSend, DiscordAlarmSend.sendMessage,
    DiscordAlarm.transformToDiscordFormat, try_catch, lift.
  unfold mbind at 1 2 3 4 5 6, io_bind.
  destruct (get eventData "alarm") as [alarm|e] eqn:Halarm; [|reflexivity].
  destruct (get_ok_not_nullish _ _ _ Halarm) as [Hdata _].
  rewrite (get_ok_of_not_nullish eventData "timestamp" Hdata). unfold_result.
  destruct (nullish alarm) eqn:Hnull.
  { destruct alarm; try discriminate; reflexivity. }
  rewrite (get_ok_of_not_nullish alarm "name" Hnull).
  destruct (DiscordAlarm.extractEventType alarm) as [eventType|e]; [|reflexivity].
  destruct (DiscordAlarm.extractDeviceInfo alarm) as [deviceInfo|e]; [|reflexivity].
  destruct (formatTimestamp (nowISO E) (getOpt eventData "timestamp")) as [ts|e];
    [|reflexivity].
  destruct (DiscordAlarm.getEventConfig (VStr eventType)) as [config|e]; [|reflexivity].
  destruct (conditionsField alarm) as [conditions|e]; [|reflexivity].
  rewrite sendMessage_run. destruct (jsonDelivery E _); reflexivity.
Qed.

(** X11. [processAndSend] of [src/services/discord.js] makes no outbound
    call when the transformation raises, and rethrows that exception;
    otherwise it makes exactly one call, the JSON post of the message, and
    returns Discord's reply or throws "Discord webhook failed: ..." for a
    rejected post. *)
Theorem alarm_processAndSend_outcome (E : env) (eventData : val) (w : world) :
  (forall e, DiscordAlarm.transformToDiscordFormat (nowISO E) eventData = Throw e ->
     DiscordAlarmSend.processAndSend E eventData w = (Throw e, w))
  /\ (forall msg, DiscordAlarm.transformToDiscordFormat (nowISO E) eventData = Ok msg ->
        DiscordAlarmSend.processAndSend E eventData w
        = (jsonDelivery E msg, called w [jsonPost E msg])).
Proof.
  rewrite alarm_processAndSend_run. split.
  - intros e ->. reflexivity.
  - intros msg ->. reflexivity.
Qed.

Lemma alarm_processAndSend_outcome_witness :
  exists msg, DiscordAlarmSend.processAndSend accepting scenario idle
              = (jsonDelivery accepting msg, called idle [jsonPost accepting msg]).
Proof.
  destruct (DiscordAlarm.transformToDiscordFormat (nowISO accepting) scenario) as [msg|e] eqn:Hmsg;
    [|vm_compute in Hmsg; discriminate].
  exists msg. apply (proj2 (alarm_processAndSend_outcome accepting scenario idle) msg Hmsg).
Defined.

End MoreSending.

Section MoreRoute.
Import Spec More MoreInputs Delivery Route.

Lemma handler_invalid (validate : val -> option string -> list string)
    (service : val -> io val) (secret : option string) (body : val) (w : world) :
  validate body secret <> [] ->
  handler validate service secret body w = (invalidRequest (validate body secret), w).
Proof.
  intros H. unfold handler, answer, validateAndSend.
  destruct (validate body secret); [contradiction | reflexivity].
Qed.

(** X12. With a non-empty secret configured, a request whose body does
    not carry that very text as [secret] is answered 400 "Invalid request"
    by the route of [src/routes/webhook.js]; the service is not invoked,
    whatever it is, so nothing is sent to Discord. *)
Theorem handler_refuses_wrong_secret
    (service : val -> io val) (s : string) (body : val) (w : world) :
  s <> "" ->
  getOpt body "secret" <> VStr s ->
  exists errors,
    handler Validator.validateWebhookRequest service (Some s) body w
    = (mkResponse 400 (obj [("error", VStr "Invalid request");
                            ("details", VArr (map VStr errors))]), w)
    /\ errors <> [].
Proof.
  intros Hs Hsecret. exists (Validator.validateWebhookRequest body (Some s)).
  assert (Herr : Validator.validateWebhookRequest body (Some s) <> []).
  { intros H%validate_characterized. unfold validBody in H.
    apply andb_prop in H as [_ H]. unfold secretAccepted in H.
    apply orb_prop in H as [H | H].
    - apply String.eqb_eq in H. contradiction.
    - destruct (getOpt body "secret") as [| | | |s'| |]; try discriminate.
      apply String.eqb_eq in H. subst. contradiction. }
  split; [|exact Herr]. rewrite (handler_invalid _ _ _ _ _ Herr). reflexivity.
Qed.

Lemma handler_refuses_wrong_secret_witness :
  exists errors,
    handler Validator.validateWebhookRequest (DiscordAlarmSend.processAndSend accepting)
      (Some "other") signedBody idle
    = (mkResponse 400 (obj [("error", VStr "Invalid request");
                            ("details", VArr (map VStr errors))]), idle)
    /\ errors <> [].
Proof.
  apply handler_refuses_wrong_secret.
  - discriminate.
  - vm_compute. discriminate.
Defined.

(** X13. The route of [src/routes/webhook.js] over the service of
    [src/services/discord.js] answers 200 only after a delivery: the body
    was accepted by the validator, the message built from the sanitized
    body was posted to the webhook, once, and Discord's reply, whose [id]
    the answer carries, was a success. *)
Theorem handler_success_means_delivered
    (E : env) (secret : option string) (body : val) (w w' : world) (resp : response) :
  handler Validator.validateWebhookRequest (DiscordAlarmSend.processAndSend E) secret body w
  = (resp, w') ->
  code resp = 200%Z ->
  exists m msg r,
    body = VObj m
    /\ Validator.validateWebhookRequest body secret = []
    /\ DiscordAlarm.transformToDiscordFormat (nowISO E) (VObj (Validator.sanitizeData m)) = Ok msg
    /\ respond E (jsonPost E msg) = Resolved r
    /\ w' = called w [jsonPost E msg]
    /\ resp = processed (getOpt (bodyValue (data r)) "id").
Proof.
  unfold handler, answer, validateAndSend. intros Hrun Hcode.
  destruct (Validator.validateWebhookRequest body secret) as [|err errors] eqn:Hvalid.
  2:{ injection Hrun as <- <-. discriminate. }
  destruct (validate_accepts_object body secret Hvalid) as (m & _ & _ & -> & _).
  simpl in Hrun. unfold mbind, io_bind in Hrun.
  rewrite alarm_processAndSend_run in Hrun.
  destruct (DiscordAlarm.transformToDiscordFormat (nowISO E) (VObj (Validator.sanitizeData m)))
    as [msg|e] eqn:Hmsg.
  2:{ injection Hrun as <- <-. discriminate. }
  unfold jsonDelivery in Hrun.
  destruct (respond E (jsonPost E msg)) as [r|reason] eqn:Hr.
  2:{ injection Hrun as <- <-. discriminate. }
  unfold lift in Hrun.
  destruct (get (bodyValue (data r)) "id") as [id|e] eqn:Hid.
  2:{ injection Hrun as <- <-. discriminate. }
  injection Hrun as <- <-.
  destruct (get_ok_not_nullish _ _ _ Hid) as [_ ->].
  exists m, msg, r. auto 10.
Qed.

Lemma handler_success_means_delivered_witness :
  exists m msg r,
    signedBody = VObj m
    /\ Validator.validateWebhookRequest signedBody None = []
    /\ DiscordAlarm.transformToDiscordFormat (nowISO accepting) (VObj (Validator.sanitizeData m))
       = Ok msg
    /\ respond accepting (jsonPost accepting msg) = Resolved r
    /\ snd (handler Validator.validateWebhookRequest (DiscordAlarmSend.processAndSend accepting)
              None signedBody idle) = called idle [jsonPost accepting msg]
    /\ fst (handler Validator.validateWebhookRequest (DiscordAlarmSend.processAndSend accepting)
              None signedBody idle) = processed (getOpt (bodyValue (data r)) "id").
Proof.
  destruct (handler Validator.validateWebhookRequest (DiscordAlarmSend.processAndSend accepting)
              None signedBody idle) as [resp w'] eqn:Hrun.
  apply (handler_success_means_delivered accepting None signedBody idle w' resp Hrun).
  vm_compute in Hrun. injection Hrun as <- _. reflexivity.
Defined.

End MoreRoute.

Section MoreRouteLater.
Import Spec More MoreInputs Delivery Route.

Lemma mapIds_not_array (field : val) :
  nullish field = false -> isArray field = false -> mapIds field = Throw TypeError.
Proof. unfold mapIds. intros -> H. destruct field; try discriminate; reflexivity. Qed.

(** X14. The later version of the route evaluates its "Webhook structure"
    log before validating: a body that is null, or whose [alarm.triggers]
    is present without being an array, is answered 500 there, with no
    outbound call, where the route of [src/routes/webhook.js] answers it
    400 with the validation errors. *)
Theorem handlerLater_masks_validation
    (validate : val -> option string -> list string) (service : val -> io val)
    (secret : option string) (body : val) (w : world) :
  nullish body = true
  \/ (nullish body = false
      /\ nullish (getOpt (getOpt body "alarm") "triggers") = false
      /\ isArray (getOpt (getOpt body "alarm") "triggers") = false) ->
  handlerLater validate service secret body w = (internalError, w)
  /\ exists errors,
       handler Validator.validateWebhookRequest service secret body w
       = (invalidRequest errors, w) /\ errors <> [].
Proof.
  intros Hbody. split.
  - unfold handlerLater, answer, mbind, io_bind, lift, logStructure.
    destruct Hbody as [Hnull | (Hnull & Htriggers & Harray)].
    + destruct body; try discriminate; reflexivity.
    + rewrite (get_ok_of_not_nullish body "alarm" Hnull). unfold_result.
      rewrite (mapIds_not_array _ Htriggers Harray). reflexivity.
  - exists (Validator.validateWebhookRequest body secret).
    assert (Herr : Validator.validateWebhookRequest body secret <> []).
    { intros H. destruct (validate_accepts_object body secret H) as (m & cs & ts & -> & _ & Hts & _).
      destruct Hbody as [Hnull | (_ & _ & Harray)]; [discriminate|].
      rewrite Hts in Harray. discriminate. }
    split; [apply handler_invalid, Herr | exact Herr].
Qed.

Lemma handlerLater_masks_validation_witness :
  handlerLater Validator.validateWebhookRequest (DiscordSend.processAndSend accepting)
    None textTriggers idle = (internalError, idle).
Proof.
  refine (proj1 (handlerLater_masks_validation _ _ None textTriggers idle _)).
  right. vm_compute. auto.
Defined.

End MoreRouteLater.

(* ===================================================================== *)
(** * Further properties: the service with thumbnails *)
(* ===================================================================== *)

Section MoreThumbnail.
Import Spec More MoreInputs Delivery DiscordCommon DiscordThumb DiscordSend.

(** [fetchAnimatedThumbnail] never throws; it makes the thumbnail request
    when it has a key and an event id, and no other call. *)
Lemma fetchAnimatedThumbnail_run (E : env) (eventId : val) (w : world) :
  exists buffer,
    fetchAnimatedThumbnail E eventId w = (Ok buffer, called w (thumbnailRequest E eventId))
    /\ (forall bytes, buffer = Some bytes ->
          exists rq r, thumbnailRequest E eventId = [rq]
                       /\ respond E rq = Resolved r
                       /\ status r = 200%Z /\ bytes = bodyBytes (data r)).
Proof.
  unfold fetchAnimatedThumbnail, thumbnailRequest, called.
  destruct (PROTECT_API_KEY E) as [key|].
  2:{ exists None. rewrite app_nil_r, world_eta. split; [reflexivity | discriminate]. }
  destruct (String.eqb key ""); simpl.
  { exists None. rewrite app_nil_r, world_eta. split; [reflexivity | discriminate]. }
  destruct (truthy eventId); simpl.
  2:{ exists None. rewrite app_nil_r, world_eta. split; [reflexivity | discriminate]. }
  unfold try_catch, mbind, io_bind, http.
  destruct (respond E _) as [r|m] eqn:Hr.
  2:{ exists None. split; [reflexivity | discriminate]. }
  destruct ((status r =? 200)%Z && bodyTruthy (data r)) eqn:Hok.
  - exists (Some (bodyBytes (data r))). split; [reflexivity|].
    intros bytes [= <-]. apply andb_prop in Hok as [Hstatus _].
    apply Z.eqb_eq in Hstatus. eauto 10.
  - exists None. split; [reflexivity | discriminate].
Qed.

Lemma prefix_append (a b : string) : String.prefix a (a +:+ b) = true.
Proof.
  induction a as [|c a IH]; simpl; [destruct b; reflexivity|].
  destruct (ascii_dec c c); [exact IH | contradiction].
Qed.

Lemma sendMessageWithThumbnail_run (E : env) (msg : Message.t) (buffer : option string) (w : world) :
  let rq := match buffer with
            | Some bytes => Post (webhookUrl E) (FormMessage msg bytes)
            | None => jsonPost E msg
            end in
  exists outcome,
    sendMessageWithThumbnail E msg buffer w = (outcome, called w [rq])
    /\ (forall v, outcome = Ok v ->
          exists r, respond E rq = Resolved r /\ v = bodyValue (data r))
    /\ (forall e, outcome = Throw e ->
          exists m, respond E rq = Rejected m
                    /\ String.prefix "Discord webhook failed: " (message e) = true).
Proof.
  unfold sendMessageWithThumbnail, sendMessage, try_catch, mbind, io_bind, http, called, jsonPost.
  destruct buffer as [bytes|]; simpl; destruct (respond E _) as [r|m] eqn:Hr.
  - exists (Ok (bodyValue (data r))). split; [reflexivity|].
    split; [intros v [= <-]; eauto | discriminate].
  - exists (Throw (Error ("Discord webhook failed: " +:+ m))). split; [reflexivity|].
    split; [discriminate|]. intros e [= <-]. exists m. split; [reflexivity|].
    apply prefix_append.
  - exists (Ok (bodyValue (data r))). split; [reflexivity|].
    split; [intros v [= <-]; eauto | discriminate].
  - exists (Throw (Error ("Discord webhook failed: " +:+ "Discord webhook failed: " +:+ m))).
    split; [reflexivity|].
    split; [discriminate|]. intros e [= <-]. exists m. split; [reflexivity|].
    apply (prefix_append "Discord webhook failed: ").
Qed.

(** X15. When the thumbnail is fetched, [processAndSend] forwards it
    unchanged: it makes two calls, the thumbnail request and then one
    multipart post carrying the message and exactly the bytes of the
    reply. When the post is rejected the error it throws starts with
    "Discord webhook failed: ". *)
Theorem processAndSend_forwards_thumbnail
    (E : env) (eventData : val) (w : world) (msg : Message.t) :
  transformToDiscordFormat (nowISO E) eventData = Ok msg ->
  exists eventId,
    extractEventId (getOpt eventData "alarm") = Ok eventId
    /\ (thumbnailFails E eventId = false ->
          exists rq r outcome,
            thumbnailRequest E eventId = [rq]
            /\ respond E rq = Resolved r
            /\ processAndSend E eventData w
               = (outcome,
                  called w [rq; Post (webhookUrl E) (FormMessage msg (bodyBytes (data r)))])
            /\ (forall e, outcome = Throw e ->
                  String.prefix "Discord webhook failed: " (message e) = true)).
Proof.
  intros Htransform. pose proof Htransform as H.
  unfold transformToDiscordFormat in H.
  apply bind_ok in H as (alarm & Halarm & H).
  apply bind_ok in H as (timestamp & Htimestamp & H).
  apply bind_ok in H as (name & _ & H).
  apply bind_ok in H as (eventType & HeventType & H).
  apply bind_ok in H as (deviceInfo & HdeviceInfo & H).
  apply bind_ok in H as (personInfo & HpersonInfo & _).
  destruct (extractEventId_of_deviceInfo alarm deviceInfo HdeviceInfo) as [eventId HeventId].
  destruct (get_ok_not_nullish _ _ _ Halarm) as [_ ->].
  exists eventId. split; [exact HeventId|]. intros Hfetch.
  unfold thumbnailFails in Hfetch.
  destruct (thumbnailRequest E eventId) as [|rq rest] eqn:Hrq; [discriminate|].
  assert (Hrest : rest = [] /\ truthy eventId = true).
  { unfold thumbnailRequest in Hrq. destruct (PROTECT_API_KEY E); [|discriminate].
    destruct (negb _ && truthy eventId) eqn:Hc; [|discriminate].
    apply andb_prop in Hc as [_ Hc]. injection Hrq as _ <-. auto. }
  destruct Hrest as [-> Hid].
  destruct (respond E rq) as [r|reason] eqn:Hr; [|discriminate].
  apply negb_false_iff in Hfetch.
  destruct (fetchAnimatedThumbnail_run E eventId w) as (buffer & Hrun & _).
  assert (Hbuffer : buffer = Some (bodyBytes (data r))).
  { revert Hrun. unfold fetchAnimatedThumbnail, thumbnailRequest in *.
    destruct (PROTECT_API_KEY E) as [key|]; [|discriminate].
    destruct (String.eqb key ""); [discriminate|]. simpl in Hrq. rewrite Hid in *.
    injection Hrq as <-. simpl.
    unfold try_catch, mbind, io_bind, http. rewrite Hr, Hfetch.
    intros [= <-]. reflexivity. }
  subst buffer.
  destruct (sendMessageWithThumbnail_run E msg (Some (bodyBytes (data r)))
              (called w [rq])) as (outcome & Hsend & _ & Hthrow).
  exists rq, r, outcome. split; [reflexivity|]. split; [exact Hr|]. split.
  - unfold processAndSend, try_catch, mbind, io_bind, lift.
    rewrite Halarm, HeventType, Htimestamp, HdeviceInfo, HpersonInfo, HeventId, Hid.
    rewrite Hrun, Hrq, Htransform, Hsend. unfold called. simpl.
    rewrite <- app_assoc. destruct outcome; reflexivity.
  - intros e He. destruct (Hthrow e He) as (m & _ & Hprefix). exact Hprefix.
Qed.

Lemma processAndSend_forwards_thumbnail_witness :
  exists msg eventId rq r outcome,
    thumbnailRequest ThumbnailInputs.thumbnailServed eventId = [rq]
    /\ respond ThumbnailInputs.thumbnailServed rq = Resolved r
    /\ processAndSend ThumbnailInputs.thumbnailServed aliceEvent idle
       = (outcome,
          called idle [rq; Post (webhookUrl ThumbnailInputs.thumbnailServed)
                             (FormMessage msg (bodyBytes (data r)))]).
Proof.
  destruct (transformToDiscordFormat (nowISO ThumbnailInputs.thumbnailServed) aliceEvent)
    as [msg|e] eqn:Hmsg; [|vm_compute in Hmsg; discriminate].
  destruct (processAndSend_forwards_thumbnail ThumbnailInputs.thumbnailServed aliceEvent idle msg Hmsg)
    as (eventId & HeventId & Hrun).
  destruct Hrun as (rq & r & outcome & H1 & H2 & H3 & _).
  { vm_compute in HeventId. injection HeventId as <-. vm_compute. reflexivity. }
  exists msg, eventId, rq, r, outcome. auto.
Defined.

Lemma thumbnailRequest_no_post (E : env) (eventId : val) :
  postCalls (thumbnailRequest E eventId) = 0.
Proof.
  unfold thumbnailRequest. destruct (PROTECT_API_KEY E); [|reflexivity].
  destruct (negb _ && truthy eventId); reflexivity.
Qed.

(** X16. When the transformation raises, [processAndSend] throws without
    posting anything to Discord; the only call it can have made by then is
    the thumbnail request, which precedes the transformation. *)
Theorem processAndSend_no_post_on_error (E : env) (eventData : val) (w : world) (e : exn) :
  transformToDiscordFormat (nowISO E) eventData = Throw e ->
  exists e' new,
    processAndSend E eventData w = (Throw e', called w new)
    /\ postCalls new = 0
    /\ (new = [] \/ exists eventId, new = thumbnailRequest E eventId).
Proof.
  intros Htransform.
  assert (Hstop : forall e', exists e'' new,
            (Throw e' : result val, w) = (Throw e'', called w new)
            /\ postCalls new = 0
            /\ (new = [] \/ exists eventId, new = thumbnailRequest E eventId)).
  { intros e'. exists e', []. unfold called. rewrite app_nil_r, world_eta. auto. }
  unfold processAndSend, try_catch, lift. unfold mbind at 1 2 3 4 5 6 7 8, io_bind.
  destruct (get eventData "alarm") as [alarm|e1]; [|apply Hstop].
  destruct (extractEventType alarm) as [eventType|e1]; [|apply Hstop].
  destruct (get eventData "timestamp") as [timestamp|e1]; [|apply Hstop].
  destruct (extractDeviceInfo alarm) as [deviceInfo|e1]; [|apply Hstop].
  destruct (extractPersonInfo alarm) as [personInfo|e1]; [|apply Hstop].
  destruct (extractEventId alarm) as [eventId|e1]; [|apply Hstop].
  assert (Hfetch : exists buffer,
            (if truthy eventId then fetchAnimatedThumbnail E eventId else mret None) w
            = (Ok buffer, called w (thumbnailRequest E eventId))).
  { destruct (truthy eventId) eqn:Hid.
    - destruct (fetchAnimatedThumbnail_run E eventId w) as (buffer & Hrun & _). eauto.
    - exists None. unfold thumbnailRequest, called. rewrite Hid.
      destruct (PROTECT_API_KEY E); [rewrite andb_false_r|];
        rewrite app_nil_r, world_eta; reflexivity. }
  destruct Hfetch as [buffer ->]. unfold mbind, io_bind. rewrite Htransform.
  exists e, (thumbnailRequest E eventId). split; [reflexivity|].
  split; [apply thumbnailRequest_no_post | eauto].
Qed.

Lemma processAndSend_no_post_on_error_witness :
  exists e' new,
    processAndSend ThumbnailInputs.thumbnailServed ThumbnailInputs.aliceLate idle
    = (Throw e', called idle new)
    /\ postCalls new = 0
    /\ (new = [] \/ exists eventId, new = thumbnailRequest ThumbnailInputs.thumbnailServed eventId).
Proof.
  apply (processAndSend_no_post_on_error _ _ _ RangeError).
  vm_compute. reflexivity.
Defined.

(** In the run of the witness the thumbnail has been requested before
    the transformation raises. *)
Example processAndSend_fetches_before_raising :
  fst (processAndSend ThumbnailInputs.thumbnailServed ThumbnailInputs.aliceLate idle)
  = Throw RangeError
  /\ length (calls (snd (processAndSend ThumbnailInputs.thumbnailServed
                           ThumbnailInputs.aliceLate idle))) = 1.
Proof. vm_compute. split; reflexivity. Qed.

End MoreThumbnail.

(* ===================================================================== *)
(** * Further properties: the session file *)
(* ===================================================================== *)

Section MoreSession.
Import Spec More MoreInputs SessionFile SingleEventProcessor.

Lemma takeField_fieldText (s : string) : fieldText (takeField s) = true.
Proof.
  induction s as [|c s IH]; [reflexivity|].
  simpl. destruct (fieldChar c) eqn:Hc; [simpl; rewrite Hc; exact IH | reflexivity].
Qed.

Lemma takeField_id (s : string) : fieldText s = true -> takeField s = s.
Proof.
  induction s as [|c s IH]; [reflexivity|].
  simpl. intros [Hc Hs]%andb_prop. rewrite Hc, (IH Hs). reflexivity.
Qed.

Lemma matchToken_cons (c : ascii) (s : string) :
  matchToken (String c s)
  = if String.prefix ("TOKEN" +:+ tab) (String c s)
       && negb (String.eqb (takeField (drop_string 6 (String c s))) "")
    then Some (takeField (drop_string 6 (String c s)))
    else matchToken s.
Proof. reflexivity. Qed.

(** X17. A token loaded from the session file is never empty and
    contains neither a tab nor a newline. *)
Theorem matchToken_field (content token : string) :
  matchToken content = Some token -> token <> "" /\ fieldText token = true.
Proof.
  induction content as [|c content IH]; [discriminate|].
  rewrite matchToken_cons.
  destruct (String.prefix _ _ && negb (String.eqb (takeField (drop_string 6 (String c content))) ""))
    eqn:Hmatch; [|exact IH].
  intros [= <-]. apply andb_prop in Hmatch as [_ Hne].
  split; [|apply takeField_fieldText].
  apply negb_true_iff, String.eqb_neq in Hne. exact Hne.
Qed.

Lemma matchToken_field_witness :
  "tok123" <> "" /\ fieldText "tok123" = true.
Proof.
  apply (matchToken_field ("192.168.1.80" +:+ tab +:+ "TOKEN" +:+ tab +:+ "tok123")).
  vm_compute. reflexivity.
Defined.

Lemma prefix_nil (s : string) : String.prefix "" s = true.
Proof. destruct s; reflexivity. Qed.

Lemma prefix_cons (a b : ascii) (m x : string) :
  String.prefix (String a m) (String b x) = if ascii_dec a b then String.prefix m x else false.
Proof. reflexivity. Qed.

(** A marker ending in a tab that matches across the end of [x], where a
    tab follows, has its tab-free part inside [x]. *)
Lemma append_cons (c : ascii) (a b : string) : String c a +:+ b = String c (a +:+ b).
Proof. reflexivity. Qed.

Lemma append_nil (b : string) : "" +:+ b = b.
Proof. reflexivity. Qed.

Lemma prefix_through_tab (m x r : string) :
  fieldText m = true ->
  String.prefix (m +:+ tab) (x +:+ tab +:+ r) = true ->
  String.prefix m x = true.
Proof.
  revert x. induction m as [|a m IH]; intros x Hm Hpre; [apply prefix_nil|].
  simpl in Hm. apply andb_prop in Hm as [Ha Hm].
  destruct x as [|b x]; unfold tab in Hpre;
    rewrite ?append_cons, ?append_nil, prefix_cons in Hpre.
  - exfalso. destruct (ascii_dec a (ascii_of_nat 9)) as [->|]; discriminate.
  - rewrite prefix_cons. destruct (ascii_dec a b); [|discriminate].
    apply IH; assumption.
Qed.

Lemma matchToken_skip_host (h r : string) :
  includes h "TOKEN" = false ->
  matchToken (h +:+ tab +:+ r) = matchToken (tab +:+ r).
Proof.
  induction h as [|c h IH]; intros Hh; [reflexivity|].
  apply includes_false in Hh. apply indexOf_none_cons in Hh as [Hpre Hh].
  change (String c h +:+ tab +:+ r) with (String c (h +:+ tab +:+ r)).
  rewrite matchToken_cons.
  replace (String.prefix ("TOKEN" +:+ tab) (String c (h +:+ tab +:+ r))) with false.
  - simpl. apply IH, includes_false, Hh.
  - symmetry. apply not_true_is_false. intros H.
    apply (prefix_through_tab "TOKEN" (String c h) r eq_refl) in H. congruence.
Qed.

Lemma matchToken_skip_withoutT (a b : string) :
  withoutT a = true -> matchToken (a +:+ b) = matchToken b.
Proof.
  induction a as [|c a IH]; [reflexivity|].
  simpl withoutT. intros [Hc Ha]%andb_prop.
  change (String c a +:+ b) with (String c (a +:+ b)). rewrite matchToken_cons.
  replace (String.prefix ("TOKEN" +:+ tab) (String c (a +:+ b))) with false; [exact (IH Ha)|].
  change ("TOKEN" +:+ tab) with (String "T" ("OKEN" +:+ tab)). rewrite prefix_cons.
  destruct (ascii_dec "T" c) as [<-|]; [discriminate | reflexivity].
Qed.

Lemma withoutT_uint (u : Decimal.uint) : withoutT (NilEmpty.string_of_uint u) = true.
Proof. induction u; simpl; auto. Qed.

Lemma withoutT_decimal (n : Z) : withoutT (decimal n) = true.
Proof.
  unfold decimal, NilZero.string_of_int, NilZero.string_of_uint.
  destruct (Z.to_int n) as [u|u]; destruct u; simpl; auto using withoutT_uint.
Qed.

Lemma withoutT_app (a b : string) :
  withoutT a = true -> withoutT b = true -> withoutT (a +:+ b) = true.
Proof.
  induction a as [|c a IH]; [auto|]. rewrite append_cons. simpl.
  intros [Hc Ha]%andb_prop Hb. rewrite Hc. simpl. auto.
Qed.

Lemma append_assoc (a b c : string) : (a +:+ b) +:+ c = a +:+ b +:+ c.
Proof. induction a as [|x a IH]; [reflexivity|]. rewrite !append_cons, IH. reflexivity. Qed.

Lemma matchToken_at_marker (token : string) :
  token <> "" -> fieldText token = true ->
  matchToken ("TOKEN" +:+ tab +:+ token) = Some token.
Proof.
  intros Hne Hfield.
  change ("TOKEN" +:+ tab +:+ token)
    with (String "T" (String "O" (String "K" (String "E" (String "N"
            (String (ascii_of_nat 9) token)))))).
  rewrite matchToken_cons.
  change (drop_string 6 _) with token. rewrite (takeField_id token Hfield).
  replace (String.prefix _ _) with true.
  - simpl. destruct (String.eqb_spec token ""); [contradiction | reflexivity].
  - symmetry. apply (prefix_append ("TOKEN" +:+ tab) token).
Qed.

Lemma matchToken_cookieLine (E : env) (token : string) :
  includes (host E) "TOKEN" = false ->
  token <> "" ->
  fieldText token = true ->
  matchToken (cookieLine E (VStr token)) = Some token.
Proof.
  intros Hhost Hne Hfield. unfold cookieLine.
  rewrite (matchToken_skip_host (host E) _ Hhost).
  set (expiry := decimal (dateNow E / 1000 + 24 * 60 * 60)).
  change (toString (VStr token)) with token.
  rewrite <- (append_assoc "TOKEN" tab token).
  set (tail := ("TOKEN" +:+ tab) +:+ token).
  replace (tab +:+ "TRUE" +:+ tab +:+ "/proxy/protect/" +:+ tab +:+ "TRUE" +:+ tab
           +:+ expiry +:+ tab +:+ tail)
    with ((tab +:+ "TRUE") +:+ (tab +:+ "/proxy/protect/" +:+ tab +:+ "TRUE" +:+ tab
           +:+ expiry +:+ tab +:+ tail)) by reflexivity.
  assert (Hskip : forall r, matchToken ((tab +:+ "TRUE") +:+ r) = matchToken r).
  { intros r. reflexivity. }
  rewrite Hskip.
  replace (tab +:+ "/proxy/protect/" +:+ tab +:+ "TRUE" +:+ tab +:+ expiry +:+ tab +:+ tail)
    with ((tab +:+ "/proxy/protect/" +:+ tab) +:+ (("TRUE" +:+ tab) +:+ expiry +:+ tab +:+ tail))
    by reflexivity.
  rewrite (matchToken_skip_withoutT (tab +:+ "/proxy/protect/" +:+ tab) _ eq_refl).
  assert (Hskip' : forall r, matchToken (("TRUE" +:+ tab) +:+ r) = matchToken r).
  { intros r. reflexivity. }
  rewrite Hskip'.
  rewrite (matchToken_skip_withoutT expiry _ (withoutT_decimal _)).
  rewrite (matchToken_skip_withoutT tab tail eq_refl).
  subst tail. rewrite append_assoc. apply matchToken_at_marker; assumption.
Qed.

(** X18. The session file round-trips: the line [authenticate] writes for
    a token is read back by [loadExistingSession] as that token, provided
    the token is not empty and has no tab or newline, and the host name
    does not contain "TOKEN". *)
Theorem cookieLine_round_trip (E : env) (token : string) :
  includes (host E) "TOKEN" = false ->
  token <> "" ->
  fieldText token = true ->
  matchToken (cookieLine E (VStr token)) = Some token.
Proof. exact (matchToken_cookieLine E token). Qed.

Lemma cookieLine_round_trip_witness :
  matchToken (cookieLine loginWithToken (VStr "fresh456")) = Some "fresh456".
Proof. apply cookieLine_round_trip; [reflexivity | discriminate | reflexivity]. Defined.

(** X19. A saved session is reused: after a successful [authenticate]
    that left a token without tab or newline, [ensureAuthenticated] in a
    directory with that session file loads the token, probes the platform
    with it and, when the probe is accepted, returns true without logging
    in again, provided the host name does not contain "TOKEN". *)
Theorem ensureAuthenticated_reuses_session
    (E : env) (w w' next : world) (token : string) (r : reply) :
  authenticate E w = (Ok true, w') ->
  sessionToken w' = VStr token ->
  fieldText token = true ->
  includes (host E) "TOKEN" = false ->
  files next !! "cookies.txt" = files w' !! "cookies.txt" ->
  respond E (probeRequest E token) = Resolved r ->
  ensureAuthenticated E next
  = (Ok true, mkWorld (files next) (VStr token) (calls next ++ [probeRequest E token])).
Proof.
  intros Hauth Htoken Hfield Hhost Hfile Hprobe.
  rewrite authenticate_run in Hauth. cbv zeta in Hauth.
  destruct (respond E (loginRequest E)) as [reply|reason]; [|discriminate].
  set (tok := match replyToken (Resolved reply) with
              | Some t => VStr t
              | None => sessionToken w
              end) in Hauth.
  destruct (truthy tok) eqn:Htruthy; [|discriminate].
  injection Hauth as <-. simpl in Htoken, Hfile.
  rewrite lookup_insert_eq in Hfile. rewrite Htoken in Hfile, Htruthy.
  assert (Hne : token <> "") by (intros ->; discriminate).
  assert (Hcached : cachedToken next = Some token).
  { unfold cachedToken. rewrite Hfile. simpl.
    apply matchToken_cookieLine; assumption. }
  rewrite ensureAuthenticated_run. unfold sessionValid, afterProbe.
  rewrite Hcached, Hprobe. reflexivity.
Qed.

Lemma ensureAuthenticated_reuses_session_witness :
  ensureAuthenticated SessionInputs.reusable SessionInputs.laterRun
  = (Ok true,
     mkWorld (files SessionInputs.laterRun) (VStr "fresh456")
       [probeRequest SessionInputs.reusable "fresh456"]).
Proof.
  apply (ensureAuthenticated_reuses_session SessionInputs.reusable firstRun
           (snd (authenticate SessionInputs.reusable firstRun)) SessionInputs.laterRun
           "fresh456" (mkReply 200 None (Data (obj []))));
    try reflexivity.
Defined.

End MoreSession.

(* ===================================================================== *)
(** * Further properties: the command-line processor *)
(* ===================================================================== *)

Section MoreProcessor.
Import Spec More Delivery Processor SingleEventProcessor.

Lemma io_bind_run {A B} (m : io A) (f : A -> io B) (w : world) :
  (m ≫= f) w
  = match m w with
    | (Ok a, w') => f a w'
    | (Throw e, w') => (Throw e, w')
    end.
Proof. reflexivity. Qed.

Lemma getEventInfo_run (E : env) (eventId : string) (w : world) :
  getEventInfo E eventId w
  = (Ok (eventOf (respond E (eventRequest E eventId (sessionToken w)))),
     called w [eventRequest E eventId (sessionToken w)]).
Proof.
  unfold getEventInfo, try_catch, mbind, io_bind, getSessionToken, http, eventOf, called.
  fold (eventRequest E eventId (sessionToken w)).
  destruct (respond E (eventRequest E eventId (sessionToken w))) as [r|reason]; [|reflexivity].
  simpl. destruct ((status r =? 200)%Z && bodyTruthy (data r)); reflexivity.
Qed.

Lemma downloadThumbnail_run (E : env) (eventId outputFile : string) (w : world) :
  downloadThumbnail E eventId outputFile w
  = match served (respond E (downloadRequest E eventId (sessionToken w))) with
    | Some bytes =>
      (Ok true, mkWorld (<[outputFile := bytes]> (files w)) (sessionToken w)
                  (calls w ++ [downloadRequest E eventId (sessionToken w)]))
    | None => (Ok false, called w [downloadRequest E eventId (sessionToken w)])
    end.
Proof.
  unfold downloadThumbnail, try_catch, mbind, io_bind, getSessionToken, http, served, called.
  fold (downloadRequest E eventId (sessionToken w)).
  destruct (respond E (downloadRequest E eventId (sessionToken w))) as [r|reason]; [|reflexivity].
  simpl. destruct (status r =? 200)%Z; reflexivity.
Qed.

Lemma uploadToDiscord_run (E : env) (filePath : string) (eventInfo : val) (w : world) :
  uploadToDiscord E filePath eventInfo w
  = match formatEventInfo E eventInfo with
    | Ok content =>
      let rq := uploadRequest E filePath (files w !! filePath) content in
      (Ok (accepted (respond E rq)), called w [rq])
    | Throw _ => (Ok false, w)
    end.
Proof.
  unfold uploadToDiscord, try_catch, mbind, io_bind, lift, http, accepted, called, basename.
  destruct (formatEventInfo E eventInfo) as [content|e]; [|reflexivity].
  cbv zeta. fold (uploadRequest E filePath (files w !! filePath) content).
  destruct (respond E (uploadRequest E filePath (files w !! filePath) content)); reflexivity.
Qed.

(** The whole of [processEvent], outcome by outcome. *)
Lemma processEvent_run (E : env) (eventId : string) (w : world) :
  processEvent E eventId w
  = let token := sessionToken w in
    let fileName := thumbnailFile eventId in
    let lookup := eventRequest E eventId token in
    let download := downloadRequest E eventId token in
    let info := eventOf (respond E lookup) in
    if negb (truthy info) then (Ok false, called w [lookup])
    else
      match served (respond E download) with
      | None => (Ok false, called w [lookup; download])
      | Some bytes =>
        let written := <[fileName := bytes]> (files w) in
        match formatEventInfo E info with
        | Throw _ => (Ok false, mkWorld written token (calls w ++ [lookup; download]))
        | Ok content =>
          let upload := uploadRequest E fileName (Some bytes) content in
          if accepted (respond E upload)
          then (Ok true, mkWorld (delete fileName written) token
                           (calls w ++ [lookup; download; upload]))
          else (Ok false, mkWorld written token (calls w ++ [lookup; download; upload]))
        end
      end.
Proof.
  unfold processEvent. fold (thumbnailFile eventId). cbv zeta.
  unfold try_catch at 1. rewrite io_bind_run, getEventInfo_run.
  destruct (truthy (eventOf _)) eqn:Hinfo; [|reflexivity].
  change (negb true) with false. cbv iota.
  rewrite io_bind_run, downloadThumbnail_run.
  unfold called at 1 2 3. simpl files. simpl sessionToken. simpl calls.
  destruct (served _) as [bytes|];
    [|unfold called; simpl; rewrite <- app_assoc; reflexivity].
  change (negb true) with false. cbv iota.
  rewrite io_bind_run, uploadToDiscord_run. simpl files. rewrite lookup_insert_eq.
  destruct (formatEventInfo E _) as [content|e]; [|rewrite <- app_assoc; reflexivity].
  cbv zeta. unfold called. simpl files. simpl sessionToken. simpl calls.
  rewrite <- !app_assoc. simpl app.
  destruct (accepted _); [|reflexivity].
  change (negb true) with false. cbv iota.
  rewrite io_bind_run. unfold try_catch, unlinkSync. simpl files.
  rewrite lookup_insert_eq. reflexivity.
Qed.

(** X20. [processEvent] never throws, leaves the session token alone,
    changes no file but its own thumbnail file, and makes at most one
    post. *)
Theorem processEvent_contained (E : env) (eventId : string) (w : world) :
  exists b w' rqs,
    processEvent E eventId w = (Ok b, w')
    /\ sessionToken w' = sessionToken w
    /\ (forall name, name <> thumbnailFile eventId -> files w' !! name = files w !! name)
    /\ calls w' = (calls w ++ rqs)%list
    /\ postCalls rqs <= 1.
Proof.
  rewrite processEvent_run. cbv zeta.
  destruct (negb (truthy _)).
  { eexists _, _, _. split; [reflexivity|]. simpl. auto. }
  destruct (served _) as [bytes|].
  2:{ eexists _, _, _. split; [reflexivity|]. simpl. auto. }
  destruct (formatEventInfo E _) as [content|e].
  2:{ eexists _, _, _. split; [reflexivity|]. simpl. repeat split; auto.
      intros name Hname. apply lookup_insert_ne. congruence. }
  destruct (accepted _); eexists _, _, _; (split; [reflexivity|]); simpl; repeat split; auto;
    intros name Hname.
  - rewrite lookup_delete_ne by congruence. apply lookup_insert_ne. congruence.
  - apply lookup_insert_ne. congruence.
Qed.

Lemma processEvent_contained_witness :
  files (snd (processEvent uploadRefused "e1" authenticated)) !! "cookies.txt"
  = files authenticated !! "cookies.txt".
Proof.
  destruct (processEvent_contained uploadRefused "e1" authenticated)
    as (b & w' & rqs & Hrun & _ & Hframe & _).
  rewrite Hrun. apply Hframe. intros H. vm_compute in H. discriminate.
Defined.

(** X21. When [processEvent] reports success, it made exactly three
    calls: the event lookup, the thumbnail download, and one upload to the
    webhook that carries the downloaded bytes under the name
    thumbnail-<id>.jpg; and the thumbnail file is gone from the
    directory, the other files being as before. *)
Theorem processEvent_success (E : env) (eventId : string) (w w' : world) :
  processEvent E eventId w = (Ok true, w') ->
  exists r content,
    respond E (downloadRequest E eventId (sessionToken w)) = Resolved r
    /\ status r = 200%Z
    /\ calls w'
       = (calls w ++ [eventRequest E eventId (sessionToken w);
                      downloadRequest E eventId (sessionToken w);
                      uploadRequest E (thumbnailFile eventId) (Some (bodyBytes (data r))) content])%list
    /\ files w' = delete (thumbnailFile eventId) (files w).
Proof.
  rewrite processEvent_run. cbv zeta.
  destruct (negb (truthy _)); [discriminate|].
  unfold served.
  destruct (respond E (downloadRequest E eventId (sessionToken w))) as [r|reason];
    [|discriminate].
  destruct (Z.eqb_spec (status r) 200) as [Hstatus|]; [|discriminate].
  destruct (formatEventInfo E _) as [content|e]; [|discriminate].
  destruct (accepted _); [|discriminate].
  intros [= <-]. exists r, content. simpl. rewrite delete_insert_eq. auto.
Qed.

Lemma processEvent_success_witness :
  exists r content,
    respond uploadAccepted (downloadRequest uploadAccepted "e1" (VStr "tok123")) = Resolved r
    /\ status r = 200%Z
    /\ calls (snd (processEvent uploadAccepted "e1" authenticated))
       = [eventRequest uploadAccepted "e1" (VStr "tok123");
          downloadRequest uploadAccepted "e1" (VStr "tok123");
          uploadRequest uploadAccepted (thumbnailFile "e1") (Some (bodyBytes (data r))) content]
    /\ files (snd (processEvent uploadAccepted "e1" authenticated))
       = delete (thumbnailFile "e1") (files authenticated).
Proof.
  apply (processEvent_success uploadAccepted "e1" authenticated
           (snd (processEvent uploadAccepted "e1" authenticated))).
  vm_compute. reflexivity.
Defined.

Lemma authenticate_rejected (E : env) (w : world) (reason : string) :
  respond E (loginRequest E) = Rejected reason ->
  authenticate E w = (Ok false, called w [loginRequest E]).
Proof. intros H. rewrite authenticate_run, H. reflexivity. Qed.

(** X22. Without a usable session [run] stops before the event: when the
    cached session is missing or refused and the login is rejected, it
    returns without an outcome and without throwing, its only calls being
    the probe, if a session was cached, and the login; no file is
    changed. *)
Theorem run_stops_without_session (E : env) (eventId : string) (w : world) (reason : string) :
  sessionValid E w = false ->
  respond E (loginRequest E) = Rejected reason ->
  ProcessorRun.run E eventId w = (Ok None, called (afterProbe E w) [loginRequest E])
  /\ files (called (afterProbe E w) [loginRequest E]) = files w.
Proof.
  intros Hvalid Hlogin. split.
  - unfold ProcessorRun.run, try_catch. rewrite io_bind_run, ensureAuthenticated_run, Hvalid.
    rewrite (authenticate_rejected _ _ _ Hlogin). reflexivity.
  - unfold afterProbe. destruct (cachedToken w); reflexivity.
Qed.

Lemma run_stops_without_session_witness :
  ProcessorRun.run uploadAccepted "e1" authenticated
  = (Ok None, called (afterProbe uploadAccepted authenticated) [loginRequest uploadAccepted])
  /\ files (called (afterProbe uploadAccepted authenticated) [loginRequest uploadAccepted])
     = files authenticated.
Proof.
  apply (run_stops_without_session uploadAccepted "e1" authenticated
           "Request failed with status code 401"); reflexivity.
Defined.

End MoreProcessor.

(* ===================================================================== *)
(** * Further properties: the uploader of recent events *)
(* ===================================================================== *)

Section MoreUploader.
Import Spec More Delivery Uploader UploaderInputs UniFiDiscordUploader.

Lemma hasThumbnail_run (event : val) :
  hasThumbnail event = if nullish event then Throw TypeError else Ok (kept event).
Proof.
  unfold hasThumbnail, kept.
  destruct (nullish event) eqn:Hnull.
  - destruct event; try discriminate; reflexivity.
  - rewrite !(get_ok_of_not_nullish event _ Hnull). reflexivity.
Qed.

Lemma filterEvents_run (events : list val) :
  filterEvents events
  = if existsb nullish events then Throw TypeError else Ok (List.filter kept events).
Proof.
  induction events as [|event rest IH]; [reflexivity|].
  simpl. rewrite hasThumbnail_run, IH.
  destruct (nullish event) eqn:Hnull; [reflexivity|]. simpl.
  destruct (existsb nullish rest); [reflexivity|]. simpl.
  destruct (kept event); reflexivity.
Qed.

Lemma getEvents_run (E : env) (w : world) :
  getEvents E w
  = (Ok (keptEvents (respond E (eventsRequest E (sessionToken w)))),
     called w [eventsRequest E (sessionToken w)]).
Proof.
  unfold getEvents, try_catch. rewrite io_bind_run. unfold getSessionToken.
  rewrite io_bind_run. unfold http, keptEvents, listedEvents, called.
  fold (eventsRequest E (sessionToken w)).
  destruct (respond E (eventsRequest E (sessionToken w))) as [r|reason]; [|reflexivity].
  destruct ((status r =? 200)%Z && bodyTruthy (data r)) eqn:Hok; [|reflexivity].
  apply andb_prop in Hok as [_ Hdata]. cbv zeta. rewrite io_bind_run. unfold lift.
  set (body := bodyValue (data r)).
  assert (Hbody : nullish body = false).
  { subst body. destruct (data r); [apply truthy_not_nullish, Hdata | reflexivity]. }
  destruct (isArray body) eqn:Harray.
  - rewrite Harray. destruct body as [| | | | |xs|]; try discriminate. simpl.
    rewrite filterEvents_run. destruct (existsb nullish xs); reflexivity.
  - rewrite (get_ok_of_not_nullish body "data" Hbody).
    destruct (getOpt body "data") as [| | | | |xs|]; simpl;
      try reflexivity; try (destruct (_ && _); reflexivity).
    rewrite filterEvents_run. destruct (existsb nullish xs); reflexivity.
Qed.

Lemma filter_sublist {A} (f : A -> bool) (l : list A) : sublist (List.filter f l) l.
Proof.
  induction l as [|x l IH]; [constructor|].
  simpl. destruct (f x); constructor; exact IH.
Qed.

Lemma keptEvents_kept (r : response) (event : val) :
  In event (keptEvents r) -> kept event = true.
Proof.
  unfold keptEvents. cbv zeta. destruct (existsb nullish (listedEvents r)); [intros []|].
  intros H%filter_In. apply H.
Qed.

(** X23. [getEvents] never throws and makes one call, the events query.
    The events it returns are, in their order, among those the reply
    lists, and each of them has a camera and one of the five listed
    types. *)
Theorem getEvents_keeps_thumbnail_events (E : env) (w : world) :
  exists events,
    getEvents E w = (Ok events, called w [eventsRequest E (sessionToken w)])
    /\ sublist events (listedEvents (respond E (eventsRequest E (sessionToken w))))
    /\ (forall event, In event events ->
          truthy (getOpt event "camera") = true
          /\ exists t, getOpt event "type" = VStr t /\ In t thumbnailEventTypes).
Proof.
  exists (keptEvents (respond E (eventsRequest E (sessionToken w)))).
  split; [apply getEvents_run|]. split.
  - unfold keptEvents. cbv zeta. destruct (existsb nullish _); [apply sublist_nil_l|].
    apply filter_sublist.
  - intros event Hkept%keptEvents_kept. unfold kept in Hkept.
    apply andb_prop in Hkept as [[_ Hcamera]%andb_prop Hlisted]. split; [exact Hcamera|].
    unfold listed in Hlisted. destruct (getOpt event "type") as [| | | |t| |]; try discriminate.
    exists t. split; [reflexivity|].
    apply existsb_exists in Hlisted as (t' & Hin & ->%String.eqb_eq). exact Hin.
Qed.

Lemma getEvents_keeps_thumbnail_events_witness :
  exists events,
    getEvents listing idle = (Ok events, called idle [eventsRequest listing VNull])
    /\ (forall event, In event events -> truthy (getOpt event "camera") = true).
Proof.
  destruct (getEvents_keeps_thumbnail_events listing idle) as (events & Hrun & _ & Hkept).
  exists events. split; [exact Hrun|]. intros event Hin. apply (Hkept event Hin).
Defined.

(** X24. One null entry in the listed events makes [getEvents] return no
    event at all: the filter throws on it and the catch answers with the
    empty list. *)
Theorem getEvents_null_entry (E : env) (w : world) :
  In VNull (listedEvents (respond E (eventsRequest E (sessionToken w)))) ->
  getEvents E w = (Ok [], called w [eventsRequest E (sessionToken w)]).
Proof.
  intros Hin. rewrite getEvents_run. unfold keptEvents. cbv zeta.
  replace (existsb nullish _) with true; [reflexivity|].
  symmetry. apply existsb_exists. exists VNull. auto.
Qed.

Lemma getEvents_null_entry_witness :
  getEvents listingNull idle = (Ok [], called idle [eventsRequest listingNull VNull]).
Proof. apply getEvents_null_entry. vm_compute. auto. Defined.

Lemma try_catch_false (m : io bool) (w : world) :
  exists b w', try_catch m (fun _ => mret false) w = (Ok b, w').
Proof. unfold try_catch. destruct (m w) as [[b|e] w']; eauto. Qed.

Lemma processEvent_returns (E : env) (event : val) (w : world) :
  nullish event = false -> exists b w', processEvent E event w = (Ok b, w').
Proof.
  intros Hnull. unfold processEvent. rewrite io_bind_run. unfold lift.
  rewrite (get_ok_of_not_nullish event "id" Hnull). cbv zeta. apply try_catch_false.
Qed.

Lemma processEvents_returns (E : env) (events : list val) :
  Forall (fun event => nullish event = false) events ->
  forall (successCount failureCount : nat) (w : world),
  exists s f w',
    processEvents E events successCount failureCount w = (Ok (s, f), w')
    /\ s + f = successCount + failureCount + length events.
Proof.
  induction 1 as [|event rest Hevent _ IH]; intros successCount failureCount w.
  - exists successCount, failureCount, w. split; [reflexivity | simpl; lia].
  - simpl. rewrite io_bind_run.
    destruct (processEvent_returns E event w Hevent) as (b & w1 & ->).
    destruct b.
    + destruct (IH (S successCount) failureCount w1) as (s & f & w' & -> & Hsum).
      exists s, f, w'. split; [reflexivity | lia].
    + destruct (IH successCount (S failureCount) w1) as (s & f & w' & -> & Hsum).
      exists s, f, w'. split; [reflexivity | lia].
Qed.



Lemma ensureAuthenticated_returns (E : env) (w : world) :
  exists b w', SingleEventProcessor.ensureAuthenticated E w = (Ok b, w').
Proof.
  rewrite ensureAuthenticated_run. destruct (sessionValid E w); [eauto|].
  rewrite authenticate_run. cbv zeta.
  destruct (respond E (loginRequest E)); [|eauto].
  destruct (truthy _); eauto.
Qed.

Lemma keptEvents_not_nullish (r : response) :
  Forall (fun event => nullish event = false) (keptEvents r).
Proof.
  apply List.Forall_forall. intros event Hin%keptEvents_kept.
  unfold kept in Hin. apply andb_prop in Hin as [[Hnull _]%andb_prop _].
  apply negb_true_iff, Hnull.
Qed.



End MoreUploader.

(* ===================================================================== *)
(** * Further properties: the version for flat payloads *)
(* ===================================================================== *)

Section MoreFlat.
Import Spec More Sanitized Delivery FlatInputs Route Validator.

Lemma flat_processAndSend_run (E : env) (eventData : val) (w : world) :
  DiscordFlatSend.processAndSend E eventData w
  = match DiscordFlat.transformToDiscordFormat (nowISO E) eventData with
    | Ok msg => (jsonDelivery E msg, called w [jsonPost E msg])
    | Throw e => (Throw e, w)
    end.
Proof.
  unfold DiscordFlatSend.processAndSend, try_catch. rewrite io_bind_run. unfold lift.
  destruct (nullish eventData) eqn:Hnull.
  { destruct eventData; try discriminate; reflexivity. }
  rewrite (get_ok_of_not_nullish eventData "eventType" Hnull).
  rewrite io_bind_run, (get_ok_of_not_nullish eventData "cameraName" Hnull).
  rewrite io_bind_run.
  destruct (DiscordFlat.transformToDiscordFormat (nowISO E) eventData) as [msg|e]; [|reflexivity].
  rewrite sendMessage_run. destruct (jsonDelivery E msg); reflexivity.
Qed.

Lemma flat_validate_object (body : val) (secret : option string) :
  ValidatorFlat.validateWebhookRequest body secret = [] ->
  exists m, body = VObj m
    /\ truthy (getOpt body "timestamp") = true
    /\ truthy (getOpt body "eventType") = true.
Proof.
  unfold ValidatorFlat.validateWebhookRequest.
  destruct body as [| |b|n|s|xs|m]; simpl; try discriminate.
  - destruct b; discriminate.
  - destruct (negb (n =? 0)%Z); discriminate.
  - destruct (negb (String.eqb s "")); discriminate.
  - intros [Hts [Hty _]%app_eq_nil]%app_eq_nil. exists m. split; [reflexivity|].
    destruct (truthy (default VUndef (m !! "timestamp"))); [|discriminate].
    destruct (truthy (default VUndef (m !! "eventType"))); [|discriminate]. auto.
Qed.



(** X28. The flat validator does not look at the kind of [eventType]: a
    body it accepts whose [eventType] is not a text makes the service
    throw at [toLowerCase], and the route answers 500 "Internal server
    error" without any outbound call. *)
Theorem flat_non_text_type_is_internal_error
    (E : env) (secret : option string) (body : val) (w : world) :
  ValidatorFlat.validateWebhookRequest body secret = [] ->
  (forall t, getOpt body "eventType" <> VStr t) ->
  handler ValidatorFlat.validateWebhookRequest (DiscordFlatSend.processAndSend E) secret body w
  = (internalError, w).
Proof.
  intros Hvalid Htype. unfold handler, answer, validateAndSend. rewrite Hvalid. simpl.
  apply flat_validate_object in Hvalid as (m & -> & _ & Hty).
  rewrite io_bind_run, flat_processAndSend_run.
  unfold DiscordFlat.transformToDiscordFormat, DiscordFlat.getEventConfig,
    DiscordAlarm.getEventConfig.
  simpl in *. rewrite !sanitizeData_lookup. unfold field. simpl.
  unfold mbind, result_bind, mret, result_ret.
  destruct (default VUndef (m !! "eventType")) as [| | | |t| |]; try reflexivity.
  destruct (Htype t eq_refl).
Qed.

Lemma flat_non_text_type_is_internal_error_witness :
  handler ValidatorFlat.validateWebhookRequest (DiscordFlatSend.processAndSend accepting)
    None numberedType idle = (internalError, idle).
Proof.
  apply flat_non_text_type_is_internal_error; [reflexivity|].
  intros t H. vm_compute in H. discriminate.
Defined.

End MoreFlat.
